(** * Verification of the mint-amazon-tagger reconciliation core (tagger.py)

    A shallow embedding of the matching, itemization and validation code of
    [tagger.py], followed by the theorems that settle the properties stated
    for it.

    Conventions of the embedding.
    - A Python [dict] with a fixed set of keys is a record; a key that may be
      absent ([MATCHED_TRANSACTION], [CHILDREN], [pid], ...) is an [option]
      field.
    - Python numbers are rationals ([Q]) where the code can produce a float
      (the true division of [adjust_amazon_item_quantity] and everything that
      flows from it) and integers ([Z]) where it cannot: an [int] and a
      finite [float] both denote a rational.  Sums, differences and the
      tax per unit are computed exactly; they are exact in Python too as long
      as the amounts are whole micro-dollars.  Where the code rounds a float
      ([round_usd], the tax rates of the redistribution, the conversion of a
      parsed amount) the embedding computes in IEEE 754 binary64 as Python
      does, since the outcome of a rounding depends on the last bit.
    - Item, Order and Refund dicts are shared mutable objects: they live in a
      heap and are passed around by reference (their address in the heap).
      [copy.deepcopy] allocates.
    - A [defaultdict(list)] whose iteration order is observable is an
      insertion-ordered association list.
    - Exceptions are values of [exn]; a computation returns [Ok], [Raise] or
      [Diverge] (the fuel of the only unbounded [while] loop ran out).  The
      heap survives an exception, as the mutations of a Python run do.
    - The module [category] is not part of the verified file; its table and
      its two default categories are parameters of the development. *)

From Stdlib Require Import List ZArith QArith Qabs Qround Bool Lia Lqa.
From Stdlib Require Import Ascii String DecimalString.
From Stdlib Require Import Permutation Sorted.
From Stdlib Require Import Floats.SpecFloat.
Import ListNotations.

Local Open Scope string_scope.
Local Open Scope Z_scope.

Set Implicit Arguments.

(** ** Python exceptions and outcomes *)

Inductive exn : Type :=
| AssertionError
| IndexError
| KeyError
| NameError (name : string)
| TypeError
| ValueError
| OverflowError
| ZeroDivisionError
| StopIteration
| DanglingReference   (* an address outside the heap: not a Python outcome *).

Inductive outcome (A : Type) : Type :=
| Ok (a : A)
| Raise (e : exn)
| Diverge.

Arguments Ok {A} a.
Arguments Raise {A} e.
Arguments Diverge {A}.

(** ** Python built-ins on strings *)

Module Py.

(** [str(n)] for an [int]. *)
Definition str_int (n : Z) : string := NilZero.string_of_int (Z.to_int n).

(** ['0' * n]. *)
Fixpoint zeros (n : nat) : string :=
  match n with
  | O => ""
  | S n' => "0" ++ zeros n'
  end.

(** ['{:0>w}'.format(s)]: left padding with zeros up to width [w]. *)
Definition zero_pad (w : nat) (s : string) : string :=
  zeros (w - String.length s) ++ s.

(** [s.split(' ')]: every single space separates, empty pieces are kept. *)
Fixpoint split_space_acc (cur : string) (s : string) : list string :=
  match s with
  | EmptyString => [cur]
  | String c rest =>
      if Ascii.eqb c " "%char then cur :: split_space_acc "" rest
      else split_space_acc (cur ++ String c "") rest
  end.

Definition split_space (s : string) : list string := split_space_acc "" s.

(** [sep.join(l)]. *)
Definition join (sep : string) (l : list string) : string := String.concat sep l.

(** [''.join(filter(p, s))]. *)
Fixpoint filter_chars (p : ascii -> bool) (s : string) : string :=
  match s with
  | EmptyString => EmptyString
  | String c rest => if p c then String c (filter_chars p rest) else filter_chars p rest
  end.

(** [s.replace(',', '')]. *)
Definition remove_commas (s : string) : string :=
  filter_chars (fun c => negb (Ascii.eqb c ","%char)) s.

Definition lower_char (c : ascii) : ascii :=
  let n := nat_of_ascii c in
  if ((65 <=? n) && (n <=? 90))%nat then ascii_of_nat (n + 32) else c.

(** [s.lower()], on the ASCII letters. *)
Fixpoint lower (s : string) : string :=
  match s with
  | EmptyString => EmptyString
  | String c rest => String (lower_char c) (lower rest)
  end.

(** [s.startswith(p)]. *)
Definition startswith (s p : string) : bool := String.prefix p s.

(** [sub in s]. *)
Fixpoint contains (sub s : string) : bool :=
  String.prefix sub s ||
  match s with
  | EmptyString => false
  | String _ rest => contains sub rest
  end.

(** [c in chars] for a one-character string [c]. *)
Fixpoint char_in (c : ascii) (chars : string) : bool :=
  match chars with
  | EmptyString => false
  | String d rest => Ascii.eqb c d || char_in c rest
  end.

(** [s[-1]] and [s[:-1]] of a non-empty string. *)
Fixpoint last_char (s : string) : option ascii :=
  match s with
  | EmptyString => None
  | String c EmptyString => Some c
  | String _ rest => last_char rest
  end.

Fixpoint drop_last (s : string) : string :=
  match s with
  | EmptyString => EmptyString
  | String _ EmptyString => EmptyString
  | String c rest => String c (drop_last rest)
  end.

(** [sum(l)] over integers and over numbers. *)
Definition sumZ (l : list Z) : Z := fold_left Z.add l 0.
Definition sumQ (l : list Q) : Q := fold_left Qplus l (0 # 1)%Q.

(** [range(n)]. *)
Definition range (n : Z) : list Z := map Z.of_nat (seq 0 (Z.to_nat n)).

(** [round(x)] to the nearest integer, ties to the even one. *)
Definition round_half_even (x : Q) : Z :=
  let f := Qfloor x in
  let r := (x - inject_Z f)%Q in
  match (r ?= 1 # 2)%Q with
  | Lt => f
  | Gt => f + 1
  | Eq => if Z.even f then f else f + 1
  end.

End Py.

(** ** Python floats: IEEE 754 binary64

    A [float] is a [spec_float] of the Standard Library with 53 bits of
    mantissa; the operations round to the nearest float, ties to the even
    mantissa, as the hardware does for Python. *)

Module F64.

Definition prec : Z := 53.
Definition emax : Z := 1024.

(** The float nearest to the rational [q]: what [float(n)] gives for an
    integer [n], what a decimal literal denotes, and the float that a float
    stands for itself. *)
Definition of_Q (q : Q) : spec_float :=
  match Qnum q with
  | Z0 => S754_zero false
  | Zpos n => SFdiv prec emax (S754_finite false n 0) (S754_finite false (Qden q) 0)
  | Zneg n => SFdiv prec emax (S754_finite true n 0) (S754_finite false (Qden q) 0)
  end.

Definition of_Z (z : Z) : spec_float := of_Q (inject_Z z).

(** The rational that a finite float stands for (0 for the others, which
    no function below passes to it). *)
Definition value (x : spec_float) : Q :=
  match x with
  | S754_finite s m e =>
      let v := match e with
               | Zneg k => (Zpos m # Pos.pow 2 k)%Q
               | _ => inject_Z (Zpos m * 2 ^ e)
               end in
      Qred (if s then - v else v)%Q
  | _ => 0%Q
  end.

(** [x + y], [x * y] and [x / y] on floats. *)
Definition add : spec_float -> spec_float -> spec_float := SFadd prec emax.
Definition mul : spec_float -> spec_float -> spec_float := SFmul prec emax.
Definition div : spec_float -> spec_float -> spec_float := SFdiv prec emax.

(** [round(x, ndigits)]: the decimal with [ndigits] digits nearest to the
    exact value of [x], ties to the even digit, read back as a float;
    a float that is not finite is returned as it is. *)
Definition round (ndigits : nat) (x : spec_float) : spec_float :=
  match x with
  | S754_finite _ _ _ =>
      let scale := inject_Z (10 ^ Z.of_nat ndigits) in
      of_Q (inject_Z (Py.round_half_even (value x * scale)) / scale)
  | _ => x
  end.

(** [int(x)]: truncation towards zero; fails on the special values. *)
Definition to_int (x : spec_float) : outcome Z :=
  match x with
  | S754_nan => Raise ValueError
  | S754_infinity _ => Raise OverflowError
  | _ => Ok (if Qlt_le_dec (value x) 0 then Qceiling (value x) else Qfloor (value x))
  end.

End F64.

(** ** [datetime.date] *)

Record date : Type := mkDate { year : Z; month : Z; day : Z }.

Module Date.

Definition is_leap (y : Z) : bool :=
  (y mod 4 =? 0) && (negb (y mod 100 =? 0) || (y mod 400 =? 0)).

Definition days_before_year (y : Z) : Z :=
  let p := y - 1 in p * 365 + p / 4 - p / 100 + p / 400.

Definition days_in_month (y m : Z) : Z :=
  if m =? 2 then (if is_leap y then 29 else 28)
  else if (m =? 4) || (m =? 6) || (m =? 9) || (m =? 11) then 30 else 31.

Definition days_before_month (y m : Z) : Z :=
  Py.sumZ (map (days_in_month y) (map (fun k => k + 1) (Py.range (m - 1)))).

(** [d.toordinal()]. *)
Definition toordinal (d : date) : Z :=
  days_before_year (year d) + days_before_month (year d) (month d) + day d.

(** [(a - b).days]. *)
Definition days_between (a b : date) : Z := toordinal a - toordinal b.

(** [str(d)], the ISO format. *)
Definition isoformat (d : date) : string :=
  Py.zero_pad 4 (Py.str_int (year d)) ++ "-" ++
  Py.zero_pad 2 (Py.str_int (month d)) ++ "-" ++
  Py.zero_pad 2 (Py.str_int (day d)).

(** ['{}'.format(d)] for a date that may be [None]. *)
Definition format_opt (d : option date) : string :=
  match d with
  | Some d => isoformat d
  | None => "None"
  end.

Definition eqb (a b : date) : bool :=
  (year a =? year b) && (month a =? month b) && (day a =? day b).

End Date.

(** ** Constants of the module *)

(** 50 micro dollars are considered equal. *)
Definition MICRO_USD_EPS : Q := 50 # 1.
Definition CENT_MICRO_USD : Q := 10000 # 1.
Definition DOLLAR_EPS : Q := 1 # 10000.

Definition DEFAULT_MERCHANT_PREFIX : string := "Amazon.com: ".
Definition DEFAULT_MERCHANT_REFUND_PREFIX : string := "Amazon.com refund: ".

Definition nl : string := String (ascii_of_nat 10) "".
Definition dquote : string := String (ascii_of_nat 34) "".

(** ** The records

    A Mint transaction.  [CHILDREN] (set by [unsplit_transactions]), [pid]
    (deleted from a reconstituted parent), [categoryId] and [IS_REFUND] are
    keys that may be absent. *)

#[local] Unset Elimination Schemes.
Inductive Trans : Type := mkTrans {
  id_ : Z;
  pid : option Z;
  date_ : date;
  odate : date;
  amount : Q;
  isDebit : bool;
  isChild : bool;
  isPending : bool;
  merchant : string;
  omerchant : string;
  category : string;
  categoryId : option Z;
  note : string;
  CHILDREN : option (list Trans);
  IS_REFUND : bool
}.
#[local] Set Elimination Schemes.

Definition set_merchant (v : string) (t : Trans) : Trans :=
  mkTrans (id_ t) (pid t) (date_ t) (odate t) (amount t) (isDebit t) (isChild t)
          (isPending t) v (omerchant t) (category t) (categoryId t) (note t)
          (CHILDREN t) (IS_REFUND t).

Definition set_category (v : string) (t : Trans) : Trans :=
  mkTrans (id_ t) (pid t) (date_ t) (odate t) (amount t) (isDebit t) (isChild t)
          (isPending t) (merchant t) (omerchant t) v (categoryId t) (note t)
          (CHILDREN t) (IS_REFUND t).

Definition set_categoryId (v : Z) (t : Trans) : Trans :=
  mkTrans (id_ t) (pid t) (date_ t) (odate t) (amount t) (isDebit t) (isChild t)
          (isPending t) (merchant t) (omerchant t) (category t) (Some v) (note t)
          (CHILDREN t) (IS_REFUND t).

Definition set_amount (v : Q) (t : Trans) : Trans :=
  mkTrans (id_ t) (pid t) (date_ t) (odate t) v (isDebit t) (isChild t)
          (isPending t) (merchant t) (omerchant t) (category t) (categoryId t) (note t)
          (CHILDREN t) (IS_REFUND t).

Definition set_note (v : string) (t : Trans) : Trans :=
  mkTrans (id_ t) (pid t) (date_ t) (odate t) (amount t) (isDebit t) (isChild t)
          (isPending t) (merchant t) (omerchant t) (category t) (categoryId t) v
          (CHILDREN t) (IS_REFUND t).

(** The five assignments every synthesized line receives after
    [copy.deepcopy(t)]. *)
Definition line_item (t : Trans) (merchant' category' : string) (amount' : Q)
    (isDebit' : bool) (note' : string) : Trans :=
  mkTrans (id_ t) (pid t) (date_ t) (odate t) amount' isDebit' (isChild t)
          (isPending t) merchant' (omerchant t) category' (categoryId t) note'
          (CHILDREN t) (IS_REFUND t).

Definition set_IS_REFUND (t : Trans) : Trans :=
  mkTrans (id_ t) (pid t) (date_ t) (odate t) (amount t) (isDebit t) (isChild t)
          (isPending t) (merchant t) (omerchant t) (category t) (categoryId t) (note t)
          (CHILDREN t) true.

(** A row of the Amazon "Items" report. *)
Module Item.
Record t : Type := mk {
  Order_ID : string;
  Order_Date : option date;
  Carrier_Name_Tracking_Number : string;
  Title : string;
  Category : string;
  Quantity : Z;
  Purchase_Price_Per_Unit : Z;
  Item_Subtotal : Z;
  Item_Subtotal_Tax : Q;
  Item_Total : Q;
  ORIGINAL_QUANTITY_IN_ORDER : option Z
}.

(** [item['Item Subtotal Tax'] += d; item['Item Total'] += d], in either order. *)
Definition add_tax_and_total (d : Q) (i : t) : t :=
  mk (Order_ID i) (Order_Date i) (Carrier_Name_Tracking_Number i) (Title i)
     (Category i) (Quantity i) (Purchase_Price_Per_Unit i) (Item_Subtotal i)
     (Item_Subtotal_Tax i + d) (Item_Total i + d) (ORIGINAL_QUANTITY_IN_ORDER i).
End Item.

(** A row of the Amazon "Orders and Shipments" report: one per shipment. *)
Module Order.
Record t : Type := mk {
  Order_ID : string;
  Order_Date : option date;
  Shipment_Date : option date;
  Carrier_Name_Tracking_Number : string;
  Subtotal : Z;
  Shipping_Charge : Z;
  Tax_Charged : Z;
  Tax_Before_Promotions : Z;
  Total_Promotions : Z;
  Total_Charged : Z;
  MATCHED_TRANSACTION : option Trans
}.

Definition claim (tr : Trans) (o : t) : t :=
  mk (Order_ID o) (Order_Date o) (Shipment_Date o) (Carrier_Name_Tracking_Number o)
     (Subtotal o) (Shipping_Charge o) (Tax_Charged o) (Tax_Before_Promotions o)
     (Total_Promotions o) (Total_Charged o) (Some tr).

(** ['MATCHED_TRANSACTION' in o]. *)
Definition claimed (o : t) : bool :=
  match MATCHED_TRANSACTION o with Some _ => true | None => false end.
End Order.

(** A row of the Amazon "Refunds" report. *)
Module Refund.
Record t : Type := mk {
  Order_ID : string;
  Order_Date : option date;
  Refund_Date : option date;
  Refund_Reason : string;
  Title : string;
  Category : string;
  ASIN_ISBN : string;
  Quantity : Z;
  Refund_Amount : Z;
  Refund_Tax_Amount : Z;
  Total_Refund_Amount : Z;
  MATCHED_TRANSACTION : option Trans
}.

Definition claim (tr : Trans) (r : t) : t :=
  mk (Order_ID r) (Order_Date r) (Refund_Date r) (Refund_Reason r) (Title r)
     (Category r) (ASIN_ISBN r) (Quantity r) (Refund_Amount r)
     (Refund_Tax_Amount r) (Total_Refund_Amount r) (Some tr).

Definition claimed (r : t) : bool :=
  match MATCHED_TRANSACTION r with Some _ => true | None => false end.
End Refund.

(** ** Monetary normalizer *)

(** [round(curr + DOLLAR_EPS, 2)], on the float [curr]. *)
Definition round_usd (curr : spec_float) : spec_float :=
  F64.round 2 (F64.add curr (F64.of_Q DOLLAR_EPS)).

(** [round_usd(micro_usd / 1000000.0)]: the value of the float returned. *)
Definition micro_usd_to_usd_float (micro_usd : Q) : Q :=
  F64.value (round_usd (F64.div (F64.of_Q micro_usd) (F64.of_Z 1000000))).

(** ['{:.2f}'.format(x)] for a non-negative [x]. *)
Definition format_2f (x : Q) : string :=
  let cents := Py.round_half_even (x * (100 # 1))%Q in
  Py.str_int (cents / 100) ++ "." ++ Py.zero_pad 2 (Py.str_int (cents mod 100)).

Definition micro_usd_to_usd_string (micro_usd : Q) : string :=
  (if Qlt_le_dec 0 micro_usd then "" else "-") ++ "$" ++
  format_2f (micro_usd_to_usd_float (Qabs micro_usd)).

(** What [float(s)] returns: the float nearest to the number [q] that the
    string spells, or one of the three special values. *)
Inductive pyfloat : Type :=
| Finite (q : Q)
| Nan
| PosInf
| NegInf.

Definition float_of (x : pyfloat) : spec_float :=
  match x with
  | Finite q => F64.of_Q q
  | Nan => S754_nan
  | PosInf => S754_infinity false
  | NegInf => S754_infinity true
  end.

Section CurrencyParsing.

(** [float(s)], the built-in conversion; [None] stands for [ValueError]. *)
Variable float : string -> option pyfloat.

Definition parse_usd_as_float (amount : option string) : outcome pyfloat :=
  match amount with
  | None | Some EmptyString => Ok (Finite 0)          (* if not amount *)
  | Some amount =>
      (* Remove any formatting/grouping commas. *)
      let amount := Py.remove_commas amount in
      match amount with
      | EmptyString => Raise IndexError               (* amount[0] *)
      | String c rest =>
          let amount := if Ascii.eqb "$"%char c then rest else amount in
          match float amount with
          | Some f => Ok f
          | None => Ok (Finite 0)                     (* except ValueError *)
          end
      end
  end.

Definition parse_usd_as_micro_usd (amount : option string) : outcome Z :=
  match parse_usd_as_float amount with
  | Ok f => F64.to_int (F64.mul (round_usd (float_of f)) (F64.of_Z 1000000))
  | Raise e => Raise e
  | Diverge => Diverge
  end.

End CurrencyParsing.

(** ** Titles and notes *)

(** [string.printable]: the ASCII characters 32..126 and the whitespace 9..13. *)
Definition printable (c : ascii) : bool :=
  let n := nat_of_ascii c in
  (((32 <=? n) && (n <=? 126)) || ((9 <=? n) && (n <=? 13)))%nat.

Definition TRAILING_SYMBOLS : string :=
  ",.-()[]{}\/|~!@#$%^&*_+=`'" ++ dquote ++ " ".

Definition len (s : string) : Q := inject_Z (Z.of_nat (String.length s)).

(** The [for word in title.split(' ')] loop of [truncate_title]. *)
Fixpoint truncate_words (title_words : list string) (target_length : Q) : list string :=
  match title_words with
  | [] => []
  | word :: rest =>
      if Qlt_le_dec (len word / (2 # 1)) target_length
      then word :: truncate_words rest (target_length - (len word + 1))
      else []                                            (* break *)
  end.

(** The [while truncated and truncated[-1] in ...] loop; it runs at most
    [len(truncated)] times. *)
Fixpoint strip_trailing (n : nat) (truncated : string) : string :=
  match n with
  | O => truncated
  | S n' =>
      match Py.last_char truncated with
      | Some c =>
          if Py.char_in c TRAILING_SYMBOLS
          then strip_trailing n' (Py.drop_last truncated)
          else truncated
      | None => truncated
      end
  end.

Definition truncate_title (title : string) (target_length : Q)
    (base_str : option string) : string :=
  let '(words, target_length) :=
    match base_str with
    | None | Some EmptyString => ([], target_length)
    | Some b =>
        (filter (fun w => negb (String.eqb w "")) (Py.split_space b),
         (target_length - len b)%Q)
    end in
  let words := (words ++ truncate_words (Py.split_space title) target_length)%list in
  let truncated := Py.join " " words in
  (* Remove any trailing symbol-y crap. *)
  strip_trailing (String.length truncated) truncated.

(** Also works for a Refund record: it reads ['Quantity'] and ['Title']. *)
Definition get_item_title (quantity : Z) (title : string) (target_length : Q) : string :=
  let base_str := if 1 <? quantity then Some (Py.str_int quantity ++ "x") else None in
  (* Remove non-ASCII characters from the title. *)
  let clean_title := Py.filter_chars printable title in
  truncate_title clean_title target_length base_str.

Definition get_notes_header (order : Order.t) : string :=
  "Amazon order id: " ++ Order.Order_ID order ++ nl ++
  "Order date: " ++ Date.format_opt (Order.Order_Date order) ++ nl ++
  "Ship date: " ++ Date.format_opt (Order.Shipment_Date order) ++ nl ++
  "Tracking: " ++ Order.Carrier_Name_Tracking_Number order.

Definition get_refund_notes_header (refund : Refund.t) : string :=
  "Amazon refund for order id: " ++ Refund.Order_ID refund ++ nl ++
  "Order date: " ++ Date.format_opt (Refund.Order_Date refund) ++ nl ++
  "Refund date: " ++ Date.format_opt (Refund.Refund_Date refund) ++ nl ++
  "Refund reason: " ++ Refund.Refund_Reason refund.

Definition sum_amounts (trans : list Trans) : Q := Py.sumQ (map amount trans).

(** [MintTransWrapper.get_tuple]: what change detection compares. *)
Definition get_tuple (d : Trans) : string * string * string :=
  (merchant d, micro_usd_to_usd_string (amount d), category d).

Definition tuple_eqb (a b : string * string * string) : bool :=
  let '(a1, a2, a3) := a in
  let '(b1, b2, b3) := b in
  String.eqb a1 b1 && String.eqb a2 b2 && String.eqb a3 b3.

(** ** Insertion-ordered multi-maps: [defaultdict(list)] *)

Section MultiMap.

Variables (K V : Type) (eqb : K -> K -> bool).

Definition multimap : Type := list (K * list V).

(** [m[k].append(v)]. *)
Fixpoint mm_append (k : K) (v : V) (m : multimap) : multimap :=
  match m with
  | [] => [(k, [v])]
  | (k', vs) :: rest =>
      if eqb k k' then (k', (vs ++ [v])%list) :: rest
      else (k', vs) :: mm_append k v rest
  end.

(** The first entry whose key satisfies [p]: [m.get(k)] when [p] is
    equality with [k]. *)
Fixpoint mm_find (p : K -> bool) (m : multimap) : option (list V) :=
  match m with
  | [] => None
  | (k, vs) :: rest => if p k then Some vs else mm_find p rest
  end.

Definition mm_get (k : K) (m : multimap) : option (list V) := mm_find (eqb k) m.

(** [m.values()] and [m.items()], in insertion order of the keys. *)
Definition mm_values (m : multimap) : list (list V) := map snd m.

(** [for x in l: m[key(x)].append(val(x))], from [m]. *)
Definition mm_collect (A : Type) (key : A -> K) (val : A -> V) (l : list A)
    (m : multimap) : multimap :=
  fold_left (fun acc x => mm_append (key x) (val x) acc) l m.

End MultiMap.

(** ** The heap and the state monad of a run *)

Definition ref : Type := nat.

(** [collections.Counter]: a missing key counts 0. *)
Definition Counter : Type := list (string * Z).

Fixpoint counter_get (key : string) (c : Counter) : Z :=
  match c with
  | [] => 0
  | (k, v) :: rest => if String.eqb key k then v else counter_get key rest
  end.

Fixpoint counter_set (key : string) (v : Z) (c : Counter) : Counter :=
  match c with
  | [] => [(key, v)]
  | (k, w) :: rest =>
      if String.eqb key k then (k, v) :: rest else (k, w) :: counter_set key v rest
  end.

(** A write of the key [MATCHED_TRANSACTION]. *)
Inductive claim_event : Type :=
| ClaimOrder (o : ref)
| ClaimRefund (r : ref).

Record Heap : Type := mkHeap {
  items : list Item.t;             (* the Item dicts, by address *)
  orders : list Order.t;           (* the Order dicts, by address *)
  refunds : list Refund.t;         (* the Refund dicts, by address *)
  stats : Counter;                 (* the [stats] argument *)
  claim_log : list claim_event     (* ghost: every claim written, latest first *)
}.

Definition M (A : Type) : Type := Heap -> Heap * outcome A.

Definition ret {A} (a : A) : M A := fun h => (h, Ok a).
Definition raise {A} (e : exn) : M A := fun h => (h, Raise e).
Definition diverge {A} : M A := fun h => (h, Diverge).

Definition bind {A B} (c : M A) (k : A -> M B) : M B :=
  fun h =>
    match c h with
    | (h', Ok a) => k a h'
    | (h', Raise e) => (h', Raise e)
    | (h', Diverge) => (h', Diverge)
    end.

Declare Scope monad_scope.
Delimit Scope monad_scope with monad.
Notation "x <- c1 ;; c2" := (bind c1 (fun x => c2))
  (at level 61, c1 at next level, right associativity) : monad_scope.
Notation "c1 ;; c2" := (bind c1 (fun _ => c2))
  (at level 61, right associativity) : monad_scope.
Local Open Scope monad_scope.

(** [assert b]. *)
Definition assert (b : bool) : M unit :=
  if b then ret tt else raise AssertionError.

Definition lift {A} (o : outcome A) : M A := fun h => (h, o).

Fixpoint mapM {A B} (f : A -> M B) (l : list A) : M (list B) :=
  match l with
  | [] => ret []
  | x :: rest => y <- f x ;; ys <- mapM f rest ;; ret (y :: ys)
  end.

(** Replace position [n] of a list (nothing out of range). *)
Fixpoint update {A} (n : nat) (v : A) (l : list A) : list A :=
  match l, n with
  | [], _ => []
  | _ :: rest, O => v :: rest
  | x :: rest, S n' => x :: update n' v rest
  end.

Definition deref {A} (l : list A) (r : ref) : outcome A :=
  match nth_error l r with
  | Some v => Ok v
  | None => Raise DanglingReference
  end.

Definition get_item (r : ref) : M Item.t := fun h => (h, deref (items h) r).
Definition get_order (r : ref) : M Order.t := fun h => (h, deref (orders h) r).
Definition get_refund (r : ref) : M Refund.t := fun h => (h, deref (refunds h) r).

Definition set_item (r : ref) (v : Item.t) : M unit :=
  fun h => (mkHeap (update r v (items h)) (orders h) (refunds h) (stats h) (claim_log h),
            Ok tt).

(** [copy.deepcopy(i)] of an Item: a fresh dict with the same fields. *)
Definition deepcopy_item (r : ref) : M ref :=
  i <- get_item r ;;
  fun h => (mkHeap (items h ++ [i])%list (orders h) (refunds h) (stats h) (claim_log h),
            Ok (List.length (items h))).

(** [order['MATCHED_TRANSACTION'] = t]. *)
Definition claim_order (r : ref) (t : Trans) : M unit :=
  o <- get_order r ;;
  fun h => (mkHeap (items h) (update r (Order.claim t o) (orders h)) (refunds h)
                   (stats h) (ClaimOrder r :: claim_log h),
            Ok tt).

(** [r['MATCHED_TRANSACTION'] = t]. *)
Definition claim_refund (r : ref) (t : Trans) : M unit :=
  rf <- get_refund r ;;
  fun h => (mkHeap (items h) (orders h) (update r (Refund.claim t rf) (refunds h))
                   (stats h) (ClaimRefund r :: claim_log h),
            Ok tt).

(** [stats[key] += 1] and [stats[key] = v]. *)
Definition stats_incr (key : string) : M unit :=
  fun h => (mkHeap (items h) (orders h) (refunds h)
                   (counter_set key (counter_get key (stats h) + 1) (stats h))
                   (claim_log h),
            Ok tt).

Definition stats_set (key : string) (v : Z) : M unit :=
  fun h => (mkHeap (items h) (orders h) (refunds h) (counter_set key v (stats h))
                   (claim_log h),
            Ok tt).

(** ** [adjust_amazon_item_quantity]: mutates the dict it is given *)

Definition adjust_amazon_item_quantity (item : ref) (new_quantity : Z) : M unit :=
  i <- get_item item ;;
  let original_quantity := Item.Quantity i in
  assert (0 <? new_quantity) ;;
  assert (new_quantity <=? original_quantity) ;;
  assert (Item.Purchase_Price_Per_Unit i * original_quantity =? Item.Item_Subtotal i) ;;
  let subtotal := Item.Purchase_Price_Per_Unit i * new_quantity in
  let subtotal_tax :=
    ((Item.Item_Subtotal_Tax i / inject_Z original_quantity) * inject_Z new_quantity)%Q in
  set_item item
    (Item.mk (Item.Order_ID i) (Item.Order_Date i) (Item.Carrier_Name_Tracking_Number i)
             (Item.Title i) (Item.Category i)
             new_quantity
             (Item.Purchase_Price_Per_Unit i)
             subtotal
             subtotal_tax
             (inject_Z subtotal + subtotal_tax)%Q
             (* Tag the item as being modified. *)
             (Some original_quantity)).

Definition item_index : Type := multimap string ref.

Section Tagger.

(** The module [category]: the Amazon-to-Mint table (as its [.get]) and
    the two default categories. *)
Variable AMAZON_TO_MINT_CATEGORY : string -> option string.
Variable DEFAULT_MINT_CATEGORY : string.
Variable DEFAULT_MINT_RETURN_CATEGORY : string.

(** [category.AMAZON_TO_MINT_CATEGORY.get(c, default)]. *)
Definition mint_category (c default : string) : string :=
  match AMAZON_TO_MINT_CATEGORY c with
  | Some m => m
  | None => default
  end.

(** ** [tag_as_order] *)

(** The candidate loop: the closest unclaimed order shipped fewer than 4
    days from the transaction, the first one among equally close ones. *)
Fixpoint closest_order_loop (hp : list Order.t) (t : Trans) (matched_orders : list ref)
    (closest_match : option ref) (closest_match_num_days : Z) : outcome (option ref) :=
  match matched_orders with
  | [] => Ok closest_match
  | o :: rest =>
      match nth_error hp o with
      | None => Raise DanglingReference
      | Some ord =>
          match Order.Shipment_Date ord with
          | None => Raise TypeError                  (* date - None *)
          | Some shipment_date =>
              let num_days := Date.days_between (odate t) shipment_date in
              if (Z.abs num_days <? 4)
                 && (Z.abs num_days <? closest_match_num_days)
                 && negb (Order.claimed ord)
              then closest_order_loop hp t rest (Some o) (Z.abs num_days)
              else closest_order_loop hp t rest closest_match closest_match_num_days
          end
      end
  end.

Definition closest_order_match (t : Trans) (matched_orders : list ref) : M (option ref) :=
  fun h => (h, closest_order_loop (orders h) t matched_orders None 365).

(** [diff = order['Total Charged'] - item['Item Total']] and its absorption
    into the tax of [item] when it is below one cent. *)
Definition absorb_cent_diff (order : Order.t) (item : ref) : M unit :=
  i <- get_item item ;;
  let diff := (inject_Z (Order.Total_Charged order) - Item.Item_Total i)%Q in
  if negb (Qeq_bool diff 0) && (if Qlt_le_dec (Qabs diff) (10000 # 1) then true else false)
  then set_item item (Item.add_tax_and_total diff i)
  else ret tt.

(** The loop over [order_id_to_items[order_id]] that looks for an item whose
    unit price is the order subtotal; it stops at the first one. *)
Fixpoint unit_price_loop (order : Order.t) (candidates : list ref) : M (option ref) :=
  match candidates with
  | [] => ret None
  | i :: rest =>
      it <- get_item i ;;
      if Item.Purchase_Price_Per_Unit it =? Order.Subtotal order then
        item <- deepcopy_item i ;;
        adjust_amazon_item_quantity item 1 ;;
        absorb_cent_diff order item ;;
        stats_incr "quanity_adjust" ;;
        ret (Some item)                                (* break *)
      else unit_price_loop order rest
  end.

(** [[i for i in l if i['Order ID'] == order_id]]. *)
Fixpoint items_of_order (order_id : string) (l : list ref) : M (list ref) :=
  match l with
  | [] => ret []
  | i :: rest =>
      it <- get_item i ;;
      others <- items_of_order order_id rest ;;
      ret (if String.eqb (Item.Order_ID it) order_id then i :: others else others)
  end.

(** The items of the shipment; [None] stands for [return None]. *)
Definition resolve_items (order : Order.t) (tracking_to_items order_id_to_items : item_index)
    : M (option (list ref)) :=
  let tracking := Order.Carrier_Name_Tracking_Number order in
  let order_id := Order.Order_ID order in
  match (if String.eqb tracking "" then None
         else mm_get String.eqb tracking tracking_to_items) with
  | None =>
      match mm_get String.eqb order_id order_id_to_items with
      | None => ret None
      | Some [] => ret None
      | Some its =>
          item <- unit_price_loop order its ;;
          match item with
          | None =>
              stats_incr "orders_need_combinatoric_adjustment" ;;
              ret None
          | Some item => ret (Some [item])
          end
      end
  | Some its =>
      (* Be sure to filter out other orders. *)
      its' <- items_of_order order_id its ;;
      ret (Some its')
  end.

(** [for i in items: assert i['Order ID'] == order_id]. *)
Fixpoint assert_order_id (order_id : string) (its : list ref) : M unit :=
  match its with
  | [] => ret tt
  | i :: rest =>
      it <- get_item i ;;
      assert (String.eqb (Item.Order_ID it) order_id) ;;
      assert_order_id order_id rest
  end.

(** Stable insertion into a list sorted by decreasing key: [x] stays in
    front of the elements of equal key that followed it. *)
Fixpoint insert_desc {A} (key : A -> Q) (x : A) (l : list A) : list A :=
  match l with
  | [] => [x]
  | y :: rest =>
      if Qlt_le_dec (key x) (key y) then y :: insert_desc key x rest
      else x :: l
  end.

(** [sorted(l, key=key, reverse=True)]. *)
Definition sorted_desc {A} (key : A -> Q) (l : list A) : list A :=
  fold_right (insert_desc key) [] l.

(** [sorted(items, key=lambda item: item['Item Total'], reverse=True)]. *)
Definition sort_by_total (its : list ref) : M (list ref) :=
  keyed <- mapM (fun i => it <- get_item i ;; ret (i, Item.Item_Total it)) its ;;
  ret (map fst (sorted_desc snd keyed)).

Definition sum_subtotals (its : list ref) : M Z :=
  vs <- mapM (fun i => it <- get_item i ;; ret (Item.Item_Subtotal it)) its ;;
  ret (Py.sumZ vs).

Definition sum_subtotal_taxes (its : list ref) : M Q :=
  vs <- mapM (fun i => it <- get_item i ;; ret (Item.Item_Subtotal_Tax it)) its ;;
  ret (Py.sumQ vs).

(** [for i in range(quantity)]: the first [i] with
    [per_unit * i == order['Subtotal']] becomes the quantity of [item]. *)
Fixpoint quantity_loop (order : Order.t) (item : ref) (per_unit : Z) (range : list Z)
    : M bool :=
  match range with
  | [] => ret false
  | i :: rest =>
      if per_unit * i =? Order.Subtotal order then
        adjust_amazon_item_quantity item i ;;
        absorb_cent_diff order item ;;
        ret true                                       (* found_quantity; break *)
      else quantity_loop order item per_unit rest
  end.

(** The check that the item sub-totals add up to the order sub-total, and
    the fix-up when they do not; [None] stands for [return None]. *)
Definition fix_subtotal_mismatch (order : Order.t) (its : list ref)
    : M (option (list ref)) :=
  items_sum <- sum_subtotals its ;;
  let order_total := Order.Subtotal order in
  if Qlt_le_dec DOLLAR_EPS (Qabs (inject_Z (items_sum - order_total))) then
    match its with
    | [i0] =>
        item <- deepcopy_item i0 ;;                  (* items[0] = item = deepcopy *)
        it <- get_item item ;;
        let quantity := Item.Quantity it in
        let per_unit := Item.Purchase_Price_Per_Unit it in
        found_quantity <- quantity_loop order item per_unit (Py.range quantity) ;;
        if found_quantity then ret (Some [item])
        else ret None                                  (* Unable to adjust: drop it *)
    | _ =>
        stats_incr "orders_need_combinatoric_adjustment" ;;
        ret None
    end
  else ret (Some its).

(** The line items, in the order of the source: one per item, the shipping
    cost if any, all promotions as one line. *)
Definition itemize_line_items (t : Trans) (order : Order.t) (its : list ref)
    : M (list Trans) :=
  mapM (fun i =>
          it <- get_item i ;;
          ret (line_item t
                 (get_item_title (Item.Quantity it) (Item.Title it) (88 # 1))
                 (mint_category (Item.Category it) DEFAULT_MINT_CATEGORY)
                 (Item.Item_Total it)
                 true
                 (get_notes_header order)))
       its.

Definition shipping_line (t : Trans) (order : Order.t) (its : list ref)
    : M (option Trans) :=
  if Order.Shipping_Charge order =? 0 then ret None
  else
    (* Shipping has tax; it is not broken out anywhere, so compute it. *)
    itemized_tax <- sum_subtotal_taxes its ;;
    let ship_tax := (inject_Z (Order.Tax_Charged order) - itemized_tax)%Q in
    ret (Some (line_item t "Shipping" "Shipping"
                 (inject_Z (Order.Shipping_Charge order) + ship_tax)%Q
                 true (get_notes_header order))).

Definition promotion_line (t : Trans) (order : Order.t) : option Trans :=
  if Order.Total_Promotions order =? 0 then None
  else Some (line_item t "Promotion(s)" DEFAULT_MINT_CATEGORY
               (- inject_Z (Order.Total_Promotions order))%Q
               false (get_notes_header order)).

(** A promotion that matches the shipping cost is categorized as shipping;
    otherwise the tax computed before promotions is attributed to it.  The
    source mutates the [promo] dict that already sits in the list. *)
Definition adjust_promotion (order : Order.t) (ship promo : option Trans)
    : option Trans :=
  let tax_diff := Order.Tax_Before_Promotions order - Order.Tax_Charged order in
  match promo with
  | None => None
  | Some p =>
      if match ship with
         | Some s => Qeq_bool (Qabs (amount p)) (amount s)
         | None => false
         end
      then Some (set_category "Shipping" p)
      else if negb (tax_diff =? 0)
      then Some (set_amount (amount p - inject_Z tax_diff)%Q p)
      else Some p
  end.

Definition opt_to_list {A} (o : option A) : list A :=
  match o with
  | Some a => [a]
  | None => []
  end.

Definition synthesize (t : Trans) (order : Order.t) (its : list ref) : M (list Trans) :=
  lines <- itemize_line_items t order its ;;
  ship <- shipping_line t order its ;;
  let promo := adjust_promotion order ship (promotion_line t order) in
  ret (lines ++ opt_to_list ship ++ opt_to_list promo)%list.

(** [round(x, 1)], on the float [x]. *)
Definition round1 (x : spec_float) : spec_float := F64.round 1 x.

(** [round(i['Item Subtotal Tax'] * 100.0 / i['Item Subtotal'], 1)]: the
    value of the float it gives. *)
Definition item_tax_rate (i : ref) : M Q :=
  it <- get_item i ;;
  if Item.Item_Subtotal it =? 0 then raise ZeroDivisionError
  else ret (F64.value
              (round1 (F64.div (F64.mul (F64.of_Q (Item.Item_Subtotal_Tax it))
                                        (F64.of_Z 100))
                               (F64.of_Z (Item.Item_Subtotal it))))).

(** The search for the lowest non-zero rate: the [for (idx, rate) in
    enumerate(tax_rate_per_item)] loop. *)
Fixpoint min_rate_loop (idx : nat) (rates : list Q) (min_idx : option nat)
    (min_rate : option Q) : option nat :=
  match rates with
  | [] => min_idx
  | rate :: rest =>
      if negb (Qeq_bool rate 0)
         && match min_rate with
            | None => true
            | Some m => Qeq_bool m 0 || (if Qlt_le_dec rate m then true else false)
            end
      then min_rate_loop (S idx) rest (Some idx) (Some rate)
      else min_rate_loop (S idx) rest min_idx min_rate
  end.

(** [max(enumerate(tax_rate_per_item), key=lambda x: x[1])]: the first
    index of the highest rate; [None] when the list is empty. *)
Fixpoint max_rate_loop (idx : nat) (rates : list Q) (best : option (nat * Q))
    : option nat :=
  match rates with
  | [] => option_map fst best
  | rate :: rest =>
      match best with
      | None => max_rate_loop (S idx) rest (Some (idx, rate))
      | Some (_, b) =>
          if Qlt_le_dec b rate then max_rate_loop (S idx) rest (Some (idx, rate))
          else max_rate_loop (S idx) rest best
      end
  end.

(** [new_transactions[idx]['amount'] += d]. *)
Definition bump_amount (idx : nat) (d : Q) (new_transactions : list Trans)
    : outcome (list Trans) :=
  match nth_error new_transactions idx with
  | Some tr => Ok (update idx (set_amount (amount tr + d)%Q tr) new_transactions)
  | None => Raise IndexError
  end.

(** One cent moved onto (or off) the item at [idx]: the item dict itself is
    updated, then the line item, then the rate of the item. *)
Definition move_cent (its : list ref) (idx : nat) (d : Q)
    (tax_rate_per_item : list Q) (new_transactions : list Trans)
    : M (list Q * list Trans) :=
  match nth_error its idx with
  | None => raise IndexError
  | Some i =>
      it <- get_item i ;;
      set_item i (Item.add_tax_and_total d it) ;;
      new_transactions <- lift (bump_amount idx d new_transactions) ;;
      rate <- item_tax_rate i ;;
      ret (update idx rate tax_rate_per_item, new_transactions)
  end.

(** The [while abs(tax_diff) > MICRO_USD_EPS] loop.  It need not stop (a
    [tax_diff] of half a cent oscillates), hence the fuel. *)
Fixpoint redistribute_tax (fuel : nat) (its : list ref) (tax_diff : Q)
    (tax_rate_per_item : list Q) (new_transactions : list Trans) : M (list Trans) :=
  if Qlt_le_dec MICRO_USD_EPS (Qabs tax_diff) then
    match fuel with
    | O => diverge
    | S fuel' =>
        if Qlt_le_dec 0 tax_diff then
          match min_rate_loop 0 tax_rate_per_item None None with
          | None => raise TypeError                    (* items[None] *)
          | Some min_idx =>
              st <- move_cent its min_idx CENT_MICRO_USD
                              tax_rate_per_item new_transactions ;;
              redistribute_tax fuel' its (tax_diff - CENT_MICRO_USD)%Q (fst st) (snd st)
          end
        else
          (* Find the highest taxed item (by rate) and discount it a penny. *)
          match max_rate_loop 0 tax_rate_per_item None with
          | None => raise ValueError                   (* max() of nothing *)
          | Some max_idx =>
              st <- move_cent its max_idx (- CENT_MICRO_USD)%Q
                              tax_rate_per_item new_transactions ;;
              redistribute_tax fuel' its (tax_diff + CENT_MICRO_USD)%Q (fst st) (snd st)
          end
    end
  else ret new_transactions.

Definition misc_charge_line (t : Trans) (order : Order.t) (itemized_diff : Q) : Trans :=
  line_item t "Misc Charge (Gift wrap, etc)" DEFAULT_MINT_CATEGORY itemized_diff
            true (get_notes_header order).

(** The check that the itemized transactions total the original one, and
    the two ways a difference is dealt with. *)
Definition reconcile (fuel : nat) (t : Trans) (order : Order.t) (its : list ref)
    (new_transactions : list Trans) : M (list Trans) :=
  let itemized_sum := sum_amounts new_transactions in
  let itemized_diff := (amount t - itemized_sum)%Q in
  if Qlt_le_dec MICRO_USD_EPS (Qabs itemized_diff) then
    itemized_tax <- sum_subtotal_taxes its ;;
    let tax_diff := (inject_Z (Order.Tax_Before_Promotions order) - itemized_tax)%Q in
    if Qlt_le_dec (itemized_diff - tax_diff) MICRO_USD_EPS then
      stats_incr "items_tax_adjust" ;;
      tax_rate_per_item <- mapM item_tax_rate its ;;
      redistribute_tax fuel its tax_diff tax_rate_per_item new_transactions
    else
      stats_incr "misc_charge" ;;
      ret (new_transactions ++ [misc_charge_line t order itemized_diff])%list
  else ret new_transactions.

(** [tag_as_order]; [None] stands for [return None]. *)
Definition tag_as_order (fuel : nat) (t : Trans) (matched_orders : list ref)
    (tracking_to_items order_id_to_items : item_index) : M (option (list Trans)) :=
  closest_match <- closest_order_match t matched_orders ;;
  match closest_match with
  | None => ret None
  | Some order_ref =>
      stats_incr "order_match" ;;
      (* Prevent future transactions matching up against this order. *)
      claim_order order_ref t ;;
      order <- get_order order_ref ;;
      resolved <- resolve_items order tracking_to_items order_id_to_items ;;
      match resolved with
      | None => ret None
      | Some its =>
          assert_order_id (Order.Order_ID order) its ;;
          its <- sort_by_total its ;;
          fixed <- fix_subtotal_mismatch order its ;;
          match fixed with
          | None => ret None
          | Some its =>
              new_transactions <- synthesize t order its ;;
              new_transactions <- reconcile fuel t order its new_transactions ;;
              ret (Some new_transactions)
          end
      end
  end.

(** ** [collapse_items_into_quantity] *)

(** The grouping key: ['{}-{}-{}-{}-{}-{}'.format(...)]. *)
Definition collapse_key (i : Refund.t) : string :=
  Date.format_opt (Refund.Refund_Date i) ++ "-" ++
  Refund.Refund_Reason i ++ "-" ++
  Refund.Title i ++ "-" ++
  Py.str_int (Refund.Total_Refund_Amount i) ++ "-" ++
  Refund.ASIN_ISBN i ++ "-" ++
  Py.str_int (Refund.Quantity i).

(** The row that stands for [qty] rows: a deep copy of the first one. *)
Definition collapsed_row (first : Refund.t) (qty : Z) : Refund.t :=
  Refund.mk (Refund.Order_ID first) (Refund.Order_Date first) (Refund.Refund_Date first)
            (Refund.Refund_Reason first) (Refund.Title first) (Refund.Category first)
            (Refund.ASIN_ISBN first)
            qty
            (Refund.Refund_Amount first * qty)
            (Refund.Refund_Tax_Amount first * qty)
            (Refund.Total_Refund_Amount first * qty)
            (Refund.MATCHED_TRANSACTION first).

Definition collapse_group (same_items : list Refund.t) : list Refund.t :=
  match same_items with
  | [] => []
  | [_] => same_items                                  (* qty == 1 *)
  | first :: _ => [collapsed_row first (Z.of_nat (List.length same_items))]
  end.

Definition collapse_items_into_quantity (items : list Refund.t) : list Refund.t :=
  if (List.length items <=? 1)%nat then items
  else
    let items_by_name :=
      mm_collect String.eqb collapse_key (fun i => i) items [] in
    flat_map collapse_group (mm_values items_by_name).

(** ** [tag_as_refund] *)

(** [next(d for d in r if d['Refund Date'])]. *)
Fixpoint first_dated_refund (hp : list Refund.t) (r : list ref) : outcome date :=
  match r with
  | [] => Raise StopIteration
  | d :: rest =>
      match nth_error hp d with
      | None => Raise DanglingReference
      | Some rf =>
          match Refund.Refund_Date rf with
          | Some rd => Ok rd
          | None => first_dated_refund hp rest
          end
      end
  end.

(** [any(['MATCHED_TRANSACTION' in rf for rf in r])]. *)
Definition any_claimed (hp : list Refund.t) (r : list ref) : bool :=
  existsb (fun rf => match nth_error hp rf with
                     | Some v => Refund.claimed v
                     | None => false
                     end) r.

Fixpoint closest_refund_loop (hp : list Refund.t) (t : Trans)
    (groups : list (list ref)) (closest_match : option (list ref))
    (closest_match_num_days : Z) : outcome (option (list ref)) :=
  match groups with
  | [] => Ok closest_match
  | r :: rest =>
      match first_dated_refund hp r with
      | Ok refund_date =>
          let num_days := Date.days_between (odate t) refund_date in
          if (Z.abs num_days <? 4)
             && (Z.abs num_days <? closest_match_num_days)
             && negb (any_claimed hp r)
          then closest_refund_loop hp t rest (Some r) (Z.abs num_days)
          else closest_refund_loop hp t rest closest_match closest_match_num_days
      | Raise e => Raise e
      | Diverge => Diverge
      end
  end.

Definition closest_refund_match (t : Trans) (groups : list (list ref))
    : M (option (list ref)) :=
  fun h => (h, closest_refund_loop (refunds h) t groups None 365).

(** [for r in refunds: r['MATCHED_TRANSACTION'] = t]. *)
Fixpoint claim_refunds (group : list ref) (t : Trans) : M unit :=
  match group with
  | [] => ret tt
  | r :: rest => claim_refund r t ;; claim_refunds rest t
  end.

Definition refund_line (t : Trans) (r : Refund.t) : Trans :=
  set_IS_REFUND
    (line_item t
       (get_item_title (Refund.Quantity r) (Refund.Title r) (88 # 1))
       (mint_category (Refund.Category r) DEFAULT_MINT_RETURN_CATEGORY)
       (- inject_Z (Refund.Total_Refund_Amount r))%Q
       false
       (get_refund_notes_header r)).

Definition tag_as_refund (t : Trans) (groups : list (list ref))
    : M (option (list Trans)) :=
  closest_match <- closest_refund_match t groups ;;
  match closest_match with
  | None | Some [] => ret None                       (* if not closest_match *)
  | Some group =>
      stats_incr "refund_match" ;;
      (* Prevent future transactions matching up against these refund(s). *)
      claim_refunds group t ;;
      rows <- mapM get_refund group ;;
      (* Group items by and use Quantity *)
      let rows := collapse_items_into_quantity rows in
      ret (Some (map (refund_line t) rows))
  end.

(** ** [unsplit_transactions] *)

(** [parent_id_to_trans[t['pid']].append(t)] for the children, the others
    kept in [result]. *)
Fixpoint split_children (trans : list Trans) (parent_id_to_trans : multimap Z Trans)
    (result : list Trans) : outcome (multimap Z Trans * list Trans) :=
  match trans with
  | [] => Ok (parent_id_to_trans, result)
  | t :: rest =>
      if isChild t then
        match pid t with
        | Some p => split_children rest (mm_append Z.eqb p t parent_id_to_trans) result
        | None => Raise KeyError
        end
      else split_children rest parent_id_to_trans (result ++ [t])%list
  end.

Definition make_parent (p_id : Z) (children : list Trans) : outcome Trans :=
  match children with
  | [] => Raise IndexError
  | first :: _ =>
      let total := sum_amounts children in
      Ok (mkTrans p_id None (date_ first) (odate first) total
                  (if Qlt_le_dec 0 total then true else false)
                  false (isPending first) (merchant first) (omerchant first)
                  (category first) (categoryId first) (note first)
                  (Some children) (IS_REFUND first))
  end.

Fixpoint make_parents (groups : multimap Z Trans) : outcome (list Trans) :=
  match groups with
  | [] => Ok []
  | (p_id, children) :: rest =>
      match make_parent p_id children, make_parents rest with
      | Ok p, Ok ps => Ok (p :: ps)
      | Raise e, _ => Raise e
      | _, Raise e => Raise e
      | _, _ => Diverge
      end
  end.

Definition unsplit_transactions (trans : list Trans) : outcome (list Trans) :=
  match split_children trans [] [] with
  | Ok (parent_id_to_trans, result) =>
      match make_parents parent_id_to_trans with
      | Ok parents => Ok (result ++ parents)%list
      | Raise e => Raise e
      | Diverge => Diverge
      end
  | Raise e => Raise e
  | Diverge => Diverge
  end.

(** ** The index builder of [tag_transactions] *)

(** [enumerate(l)]: every record with its address. *)
Definition enumerate {A} (l : list A) : list (ref * A) :=
  combine (seq 0 (List.length l)) l.

(** A multi-map from charged amount to orders. *)
Definition build_amount_to_orders (orders : list Order.t) : multimap Z ref :=
  mm_collect Z.eqb (fun o => Order.Total_Charged (snd o)) fst (enumerate orders) [].

(** A multi-map from tracking id to items. *)
Definition build_tracking_to_items (items : list Item.t) : item_index :=
  mm_collect String.eqb (fun i => Item.Carrier_Name_Tracking_Number (snd i)) fst
             (enumerate items) [].

(** A multi-map from order id to items. *)
Definition build_order_id_to_items (items : list Item.t) : item_index :=
  mm_collect String.eqb (fun i => Item.Order_ID (snd i)) fst (enumerate items) [].

Definition opt_date_eqb (a b : option date) : bool :=
  match a, b with
  | Some x, Some y => Date.eqb x y
  | None, None => true
  | _, _ => false
  end.

(** [len(set(l))] for a list of refund dates. *)
Fixpoint distinct_dates (l : list (option date)) : list (option date) :=
  match l with
  | [] => []
  | d :: rest =>
      if existsb (opt_date_eqb d) rest then distinct_dates rest
      else d :: distinct_dates rest
  end.

Definition refund_total (group : list (ref * Refund.t)) : Z :=
  Py.sumZ (map (fun r => Refund.Total_Refund_Amount (snd r)) group).

(** The second source: all the refunds of one order, when there are several
    and they do not all have the same refund date. *)
Definition add_order_groups (by_order : list (list (ref * Refund.t)))
    (amount_to_refunds : multimap Z (list ref)) : multimap Z (list ref) :=
  fold_left
    (fun acc refunds_for_order =>
       if (List.length refunds_for_order =? 1)%nat then acc
       else if (List.length
                  (distinct_dates
                     (map (fun r => Refund.Refund_Date (snd r)) refunds_for_order))
                <=? 1)%nat
       then acc                       (* Don't dupe with the other method *)
       else mm_append Z.eqb (refund_total refunds_for_order)
                      (map fst refunds_for_order) acc)
    by_order amount_to_refunds.

(** The third source: all the refunds of one order and one refund date,
    when there are several. *)
Definition add_same_day_groups (by_day : list (list (ref * Refund.t)))
    (amount_to_refunds : multimap Z (list ref)) : multimap Z (list ref) :=
  fold_left
    (fun acc refunds_for_order =>
       if (List.length refunds_for_order =? 1)%nat then acc
       else mm_append Z.eqb (refund_total refunds_for_order)
                      (map fst refunds_for_order) acc)
    by_day amount_to_refunds.

Definition same_day_key (r : Refund.t) : string :=
  Refund.Order_ID r ++ "_" ++ Date.format_opt (Refund.Refund_Date r).

(** A multi-map from refunded amount to refund(s). *)
Definition build_amount_to_refunds (refunds : list Refund.t) : multimap Z (list ref) :=
  let rs := enumerate refunds in
  let amount_to_refunds :=
    mm_collect Z.eqb (fun r => Refund.Total_Refund_Amount (snd r))
               (fun r => [fst r]) rs [] in
  (* Collapse all returns from the same order into one: *)
  let refund_order_id_to_refunds :=
    mm_collect String.eqb (fun r => Refund.Order_ID (snd r)) (fun r => r) rs [] in
  let amount_to_refunds :=
    add_order_groups (mm_values refund_order_id_to_refunds) amount_to_refunds in
  (* Collapse all returns from the same order and same return date into one: *)
  let same_day_to_refunds :=
    mm_collect String.eqb (fun r => same_day_key (snd r)) (fun r => r) rs [] in
  add_same_day_groups (mm_values same_day_to_refunds) amount_to_refunds.

(** ** The two output modes *)

(** [itemize_new_trans]: the prefix on every description, the list reversed. *)
Definition itemize_new_trans (new_trans : list Trans) (prefix : string) : list Trans :=
  rev (map (fun nt => set_merchant (prefix ++ merchant nt) nt) new_trans).

(** What a module-level name of [tagger.py] is bound to, as far as [len]
    and subscripting can tell. *)
Inductive global_value : Type :=
| GModule
| GFunction
| GClass
| GObject
| GNumber (q : Q)
| GString (s : string)
| GSet (n : nat)
| GNone.

(** Every name bound at the top level of the module: its imports,
    constants, functions and its class. *)
Definition module_globals : list (string * global_value) :=
  [ ("argparse", GModule); ("codecs", GModule); ("defaultdict", GClass);
    ("Counter", GClass); ("copy", GModule); ("csv", GModule);
    ("datetime", GModule); ("json", GModule); ("logging", GModule);
    ("pickle", GModule); ("random", GModule); ("string", GModule);
    ("time", GModule); ("sys", GModule); ("getpass", GModule);
    ("keyring", GModule); ("Chrome", GClass); ("category", GModule);
    ("logger", GObject);
    ("AMAZON_CURRENCY_FIELD_NAMES", GSet 13); ("AMAZON_DATE_FIELD_NAMES", GSet 3);
    ("MICRO_USD_EPS", GNumber (50 # 1)); ("CENT_MICRO_USD", GNumber (10000 # 1));
    ("DOLLAR_EPS", GNumber (1 # 10000));
    ("DEFAULT_MERCHANT_PREFIX", GString DEFAULT_MERCHANT_PREFIX);
    ("DEFAULT_MERCHANT_REFUND_PREFIX", GString DEFAULT_MERCHANT_REFUND_PREFIX);
    ("KEYRING_SERVICE_NAME", GString "mintapi");
    ("UPDATE_TRANS_ENDPOINT", GString "/updateTransaction.xevent");
    ("pythonify_amazon_dict", GFunction); ("pythonify_mint_dict", GFunction);
    ("parse_amazon_date", GFunction); ("parse_mint_date", GFunction);
    ("round_usd", GFunction); ("micro_usd_to_usd_float", GFunction);
    ("micro_usd_to_usd_string", GFunction); ("parse_usd_as_micro_usd", GFunction);
    ("parse_usd_as_float", GFunction); ("adjust_amazon_item_quantity", GFunction);
    ("printable", GSet 100); ("get_item_title", GFunction);
    ("truncate_title", GFunction); ("get_notes_header", GFunction);
    ("get_refund_notes_header", GFunction); ("sum_amounts", GFunction);
    ("log_amazon_stats", GFunction); ("log_processing_stats", GFunction);
    ("MintTransWrapper", GClass); ("tag_as_order", GFunction);
    ("tag_as_refund", GFunction); ("collapse_items_into_quantity", GFunction);
    ("unsplit_transactions", GFunction); ("tag_transactions", GFunction);
    ("itemize_new_trans", GFunction); ("summarize_new_trans", GFunction);
    ("print_dry_run", GFunction); ("write_tags_to_mint", GFunction);
    ("get_mint_driver", GFunction); ("token", GNone);
    ("get_mint_token", GFunction); ("log_out_mint_driver", GFunction);
    ("parse_amazon_csv", GFunction);
    ("MINT_TRANS_PICKLE_FMT", GString "Mint {} Transactions.pickle");
    ("MINT_CATS_PICKLE_FMT", GString "Mint {} Categories.pickle");
    ("get_trans_and_categories_from_pickle", GFunction);
    ("dump_trans_and_categories", GFunction);
    ("get_trans_and_categories_from_mint", GFunction);
    ("sanity_check_and_filter_tags", GFunction); ("define_args", GFunction);
    ("pprint", GModule); ("get_transactions_from_mint", GFunction);
    ("main", GFunction) ].

(** Reading a name that the function does not bind: the module globals are
    searched ([items] and [order] are no builtins either). *)
Fixpoint lookup_global (name : string) (globals : list (string * global_value))
    : option global_value :=
  match globals with
  | [] => None
  | (n, v) :: rest => if String.eqb name n then Some v else lookup_global name rest
  end.

Definition load_global (name : string) : M global_value :=
  match lookup_global name module_globals with
  | Some v => ret v
  | None => raise (NameError name)
  end.

(** [len(v)]. *)
Definition py_len (v : global_value) : M Z :=
  match v with
  | GString s => ret (Z.of_nat (String.length s))
  | GSet n => ret (Z.of_nat n)
  | _ => raise TypeError
  end.

(** [summarize_new_trans].  Its parameters are [t], [new_trans] and
    [prefix]; [items] and [order] are free in its body. *)
Definition summarize_new_trans (t : Trans) (new_trans : list Trans) (prefix : string)
    : M (list Trans) :=
  (* trun_len = (100 - len(prefix) - 2 * len(items)) / len(items) *)
  items <- load_global "items" ;;
  n_items <- py_len items ;;
  (if n_items =? 0 then raise ZeroDivisionError else ret tt) ;;
  let trun_len :=
    ((inject_Z 100 - len prefix - inject_Z (2 * n_items)) / inject_Z n_items)%Q in
  let title :=
    prefix ++ Py.join ", "
      (map (fun nt => truncate_title (merchant nt) trun_len None)
           (filter (fun nt =>
                      negb (String.eqb (merchant nt) "Promotion(s)"
                            || String.eqb (merchant nt) "Shipping"
                            || String.eqb (merchant nt) "Tax adjustment"))
                   new_trans)) in
  (* notes = get_notes_header(order) + ... : [order] is read, then subscripted *)
  order <- load_global "order" ;;
  header <- (raise TypeError : M string) ;;            (* order['Order ID'] *)
  let notes :=
    header ++ nl ++ "Item(s):" ++ nl ++
    Py.join nl (map (fun nt => " - " ++ merchant nt) new_trans) in
  let summary_trans := set_merchant title t in
  summary_trans <-
    (if n_items =? 1
     then raise TypeError                              (* new_trans['category'] *)
     else ret (set_category DEFAULT_MINT_CATEGORY summary_trans)) ;;
  ret [set_note notes summary_trans].

(** ** [tag_transactions] *)

(** One iteration of the loop over the transactions: [None] when the
    transaction is skipped ([continue]). *)
Definition tag_one (fuel : nat) (itemize : bool) (prefix : bool -> string)
    (amount_to_orders : multimap Z ref) (tracking_to_items order_id_to_items : item_index)
    (amount_to_refunds : multimap Z (list ref)) (t : Trans)
    : M (option (Trans * list Trans)) :=
  (* Find an exact match by amount. *)
  let amount := amount t in
  new_trans <-
    match (if isDebit t
           then mm_find (fun k => Qeq_bool amount (inject_Z k)) amount_to_orders
           else None) with
    | Some matched_orders =>
        tag_as_order fuel t matched_orders tracking_to_items order_id_to_items
    | None =>
        match (if negb (isDebit t)
               then mm_find (fun k => Qeq_bool (- amount) (inject_Z k)) amount_to_refunds
               else None) with
        | Some groups => tag_as_refund t groups
        | None => ret None                               (* continue *)
        end
    end ;;
  match new_trans with
  | None | Some [] => ret None                           (* if not new_trans *)
  | Some new_trans =>
      (* Use the original transaction to determine if this overall is a
         purchase or refund. *)
      let prefix_str := prefix (isDebit t) in
      tagged <- (if itemize then ret (itemize_new_trans new_trans prefix_str)
                 else summarize_new_trans t new_trans prefix_str) ;;
      ret (Some (t, tagged))
  end.

Fixpoint tag_loop (step : Trans -> M (option (Trans * list Trans))) (trans : list Trans)
    (result : list (Trans * list Trans)) : M (list (Trans * list Trans)) :=
  match trans with
  | [] => ret result
  | t :: rest =>
      r <- step t ;;
      tag_loop step rest (result ++ opt_to_list r)%list
  end.

(** The arguments [items], [orders], [refunds] and [stats] are the heap the
    computation starts from. *)
Definition tag_transactions (fuel : nat) (trans : list Trans) (itemize : bool)
    (prefix : bool -> string) : M (list (Trans * list Trans)) :=
  fun h =>
    let amount_to_orders := build_amount_to_orders (orders h) in
    let tracking_to_items := build_tracking_to_items (items h) in
    let order_id_to_items := build_order_id_to_items (items h) in
    let amount_to_refunds := build_amount_to_refunds (refunds h) in
    (* Skip t if the original description doesn't contain 'amazon' *)
    let trans := filter (fun t => Py.contains "amazon" (Py.lower (omerchant t))) trans in
    let amazon_in_desc := Z.of_nat (List.length trans) in
    (* Skip t if it's pending. *)
    let trans := filter (fun t => negb (isPending t)) trans in
    (stats_set "amazon_in_desc" amazon_in_desc ;;
     stats_set "pending" (amazon_in_desc - Z.of_nat (List.length trans)) ;;
     trans <- lift (unsplit_transactions trans) ;;
     tag_loop (tag_one fuel itemize prefix amount_to_orders tracking_to_items
                       order_id_to_items amount_to_refunds)
              trans []) h.

(** The call [tag_transactions(items, orders, refunds, trans, itemize,
    prefix, stats)]. *)
Definition run_tag_transactions (fuel : nat) (items : list Item.t)
    (orders : list Order.t) (refunds : list Refund.t) (trans : list Trans)
    (itemize : bool) (prefix : bool -> string) (stats : Counter)
    : Heap * outcome (list (Trans * list Trans)) :=
  tag_transactions fuel trans itemize prefix (mkHeap items orders refunds stats []).

(** ** [sanity_check_and_filter_tags] *)

(** The first loop: old trans amount == sum new trans amount. *)
Fixpoint assert_amounts (orig_trans_to_tagged : list (Trans * list Trans)) : M unit :=
  match orig_trans_to_tagged with
  | [] => ret tt
  | (orig_trans, new_trans) :: rest =>
      assert (if Qlt_le_dec (Qabs (sum_amounts [orig_trans] - sum_amounts new_trans))
                            MICRO_USD_EPS
              then true else false) ;;
      assert_amounts rest
  end.

(** The second loop: the categories are known and give the [categoryId]. *)
Fixpoint resolve_categories (mint_category_name_to_id : string -> option Z)
    (new_trans : list Trans) : M (list Trans) :=
  match new_trans with
  | [] => ret []
  | trans :: rest =>
      match mint_category_name_to_id (category trans) with
      | None => raise AssertionError
      | Some cid =>
          rest' <- resolve_categories mint_category_name_to_id rest ;;
          ret (set_categoryId cid trans :: rest')
      end
  end.

Fixpoint resolve_all_categories (mint_category_name_to_id : string -> option Z)
    (orig_trans_to_tagged : list (Trans * list Trans)) : M (list (Trans * list Trans)) :=
  match orig_trans_to_tagged with
  | [] => ret []
  | (orig_trans, new_trans) :: rest =>
      new_trans' <- resolve_categories mint_category_name_to_id new_trans ;;
      rest' <- resolve_all_categories mint_category_name_to_id rest ;;
      ret ((orig_trans, new_trans') :: rest')
  end.

(** [set(a) != set(b)] for two lists of [MintTransWrapper]. *)
Definition tuples_subset (a b : list (string * string * string)) : bool :=
  forallb (fun x => existsb (tuple_eqb x) b) a.

Definition original_and_new_are_diff (item : Trans * list Trans) : bool :=
  let '(orig_trans, new_trans) := item in
  let orig :=
    match CHILDREN orig_trans with
    | None => [get_tuple orig_trans]
    | Some children => map get_tuple children
    end in
  let new := map get_tuple new_trans in
  negb (tuples_subset orig new && tuples_subset new orig).

Definition orig_missing_prefix (get_prefix : bool -> string) (item : Trans * list Trans)
    : bool :=
  let '(orig_trans, _) := item in
  negb (Py.startswith (merchant orig_trans) (get_prefix (isDebit orig_trans))).

Definition sanity_check_and_filter_tags (orig_trans_to_tagged : list (Trans * list Trans))
    (mint_category_name_to_id : string -> option Z) (get_prefix : bool -> string)
    (retag_changed : bool) : M (list (Trans * list Trans)) :=
  (* Assert old trans amount == sum new trans amount. *)
  assert_amounts orig_trans_to_tagged ;;
  (* Assert new transactions have valid categories and update the categoryId. *)
  orig_trans_to_tagged <-
    resolve_all_categories mint_category_name_to_id orig_trans_to_tagged ;;
  (* Filter out unchanged entries to avoid duplicate work. *)
  let filtered := filter original_and_new_are_diff orig_trans_to_tagged in
  stats_set "no_change"
            (Z.of_nat (List.length orig_trans_to_tagged) - Z.of_nat (List.length filtered)) ;;
  filtered <-
    (if negb retag_changed then
       let num_before := Z.of_nat (List.length filtered) in
       let filtered := filter (orig_missing_prefix get_prefix) filtered in
       stats_set "already_has_prefix" (num_before - Z.of_nat (List.length filtered)) ;;
       ret filtered
     else ret filtered) ;;
  stats_set "to_be_updated" (Z.of_nat (List.length filtered)) ;;
  ret filtered.

End Tagger.

(* ================================================================= *)
(** * Around the tagger: the reports read and the updates sent *)

(** ** [parse_amazon_csv], from the rows that [pythonify_amazon_dict] returns *)

(** [a < b] on [datetime.date]: by year, month and day. *)
Definition date_ltb (a b : date) : bool :=
  (year a <? year b)
  || ((year a =? year b)
      && ((month a <? month b) || ((month a =? month b) && (day a <? day b)))).

(** Refunds are rad: AMZN doesn't total the tax + sub-total for you. *)
Definition total_refund (ar : Refund.t) : Refund.t :=
  Refund.mk (Refund.Order_ID ar) (Refund.Order_Date ar) (Refund.Refund_Date ar)
            (Refund.Refund_Reason ar) (Refund.Title ar) (Refund.Category ar)
            (Refund.ASIN_ISBN ar) (Refund.Quantity ar) (Refund.Refund_Amount ar)
            (Refund.Refund_Tax_Amount ar)
            (Refund.Refund_Amount ar + Refund.Refund_Tax_Amount ar)
            (Refund.MATCHED_TRANSACTION ar).

(** Stable insertion into a list sorted by increasing key: [x] stays in
    front of the elements of equal key that followed it. *)
Fixpoint insert_asc {A K} (ltb : K -> K -> bool) (key : A -> K) (x : A) (l : list A)
    : list A :=
  match l with
  | [] => [x]
  | y :: rest =>
      if ltb (key y) (key x) then y :: insert_asc ltb key x rest
      else x :: l
  end.

(** [sorted(l, key=key)]. *)
Definition sorted_asc {A K} (ltb : K -> K -> bool) (key : A -> K) (l : list A) : list A :=
  fold_right (insert_asc ltb key) [] l.

(** The keys [row['Order Date']] that the sort compares: a row without
    date cannot be compared ([None < date] is a [TypeError]). *)
Fixpoint order_date_keys {A} (order_date : A -> option date) (rows : list A)
    : outcome (list (date * A)) :=
  match rows with
  | [] => Ok []
  | row :: rest =>
      match order_date row, order_date_keys order_date rest with
      | Some d, Ok keyed => Ok ((d, row) :: keyed)
      | None, _ => Raise TypeError
      | _, Raise e => Raise e
      | _, Diverge => Diverge
      end
  end.

(** [sorted(rows, key=lambda row: row['Order Date'])]; fewer than two rows
    are returned without a comparison. *)
Definition sorted_by_order_date {A} (order_date : A -> option date) (rows : list A)
    : outcome (list A) :=
  if (List.length rows <=? 1)%nat then Ok rows
  else
    match order_date_keys order_date rows with
    | Ok keyed => Ok (map snd (sorted_asc date_ltb fst keyed))
    | Raise e => Raise e
    | Diverge => Diverge
    end.

Definition parse_amazon_csv (amazon_items : list Item.t) (amazon_orders : list Order.t)
    (amazon_refunds : list Refund.t)
    : outcome (list Item.t * list Order.t * list Refund.t) :=
  let amazon_refunds := map total_refund amazon_refunds in
  (* Sort everything for good measure/consistency/stable ordering. *)
  match sorted_by_order_date Item.Order_Date amazon_items with
  | Ok amazon_items =>
      match sorted_by_order_date Order.Order_Date amazon_orders with
      | Ok amazon_orders =>
          match sorted_by_order_date Refund.Order_Date amazon_refunds with
          | Ok amazon_refunds => Ok (amazon_items, amazon_orders, amazon_refunds)
          | Raise e => Raise e
          | Diverge => Diverge
          end
      | Raise e => Raise e
      | Diverge => Diverge
      end
  | Raise e => Raise e
  | Diverge => Diverge
  end.

(** ** [write_tags_to_mint] *)

(** A value of a form field; a request posted through the Mint client. *)
Inductive form_value : Type :=
| FString (s : string)
| FInt (z : Z)
| FFloat (q : Q).

Definition form : Type := list (string * form_value).

Record request : Type := mkRequest {
  request_url : string;
  request_data : form
}.

Definition UPDATE_TRANS_ENDPOINT : string := "/updateTransaction.xevent".

Section MintClient.

(** [mint_client.token]; [str(v)] of a module-level object; the two
    readings of [time.time()]. *)
Variable token : string.
Variable global_str : global_value -> string.
Variables start_time end_time : Q.

(** ['{}{}'.format(MINT_ROOT_URL, UPDATE_TRANS_ENDPOINT)]: both names are
    looked up among the module globals. *)
Definition update_trans_url : outcome string :=
  match lookup_global "MINT_ROOT_URL" module_globals with
  | None => Raise (NameError "MINT_ROOT_URL")
  | Some root =>
      match lookup_global "UPDATE_TRANS_ENDPOINT" module_globals with
      | None => Raise (NameError "UPDATE_TRANS_ENDPOINT")
      | Some endpoint => Ok (global_str root ++ global_str endpoint)
      end
  end.

(** Update the existing transaction. *)
Definition modify_trans (trans : Trans) : outcome form :=
  match categoryId trans with
  | None => Raise KeyError
  | Some cat_id =>
      Ok [("task", FString "txnedit");
          ("txnId", FString (Py.str_int (id_ trans) ++ ":0"));
          ("note", FString (note trans));
          ("merchant", FString (merchant trans));
          ("category", FString (category trans));
          ("catId", FInt cat_id);
          ("token", FString token)]
  end.

(** Split the existing transaction into many: the fields of the new
    transaction number [i] and of those after it. *)
Fixpoint split_fields (orig_trans : Trans) (i : Z) (new_trans : list Trans)
    (itemized_split : form) : outcome form :=
  match new_trans with
  | [] => Ok itemized_split
  | trans :: rest =>
      (* if the original transaction is a credit, flip the amount sign *)
      let amount := if isDebit orig_trans then amount trans
                    else (amount trans * (-1 # 1))%Q in
      let amount := micro_usd_to_usd_float amount in
      match categoryId trans with
      | None => Raise KeyError
      | Some cat_id =>
          let n := Py.str_int i in
          let fields :=
            [("amount" ++ n, FFloat amount);
             ("percentAmount" ++ n, FFloat amount);
             ("category" ++ n, FString (category trans));
             ("categoryId" ++ n, FInt cat_id);
             ("merchant" ++ n, FString (merchant trans));
             ("txnId" ++ n, FInt 0)] in
          split_fields orig_trans (i + 1) rest (itemized_split ++ fields)%list
      end
  end.

Definition itemized_split (orig_trans : Trans) (new_trans : list Trans) : outcome form :=
  split_fields orig_trans 0 new_trans
    [("txnId", FString (Py.str_int (id_ orig_trans) ++ ":0"));
     ("task", FString "split");
     ("data", FString "");
     ("token", FString token)].

(** The loop over the tagged transactions; [sent] are the requests posted
    so far. *)
Fixpoint send_updates (orig_trans_to_tagged : list (Trans * list Trans))
    (sent : list request) (num_requests : Z) : list request * outcome Z :=
  match orig_trans_to_tagged with
  | [] => (sent, Ok num_requests)
  | (orig_trans, new_trans) :: rest =>
      match (match new_trans with
             | [trans] => modify_trans trans
             | _ => itemized_split orig_trans new_trans
             end) with
      | Ok data =>
          match update_trans_url with
          | Ok url =>
              send_updates rest (sent ++ [mkRequest url data])%list (num_requests + 1)
          | Raise e => (sent, Raise e)
          | Diverge => (sent, Diverge)
          end
      | Raise e => (sent, Raise e)
      | Diverge => (sent, Diverge)
      end
  end.

(** [datetime.time(hour=dur_h, minute=dur_m, second=dur_s)] of the time
    taken. *)
Definition duration : outcome (Z * Z * Z) :=
  let elapsed := (end_time - start_time)%Q in
  let dur_total_s := if Qlt_le_dec elapsed 0 then Qceiling elapsed else Qfloor elapsed in
  let dur_s := dur_total_s mod 60 in
  let dur_m := (Z.quot dur_total_s 60) mod 60 in
  let dur_h := dur_total_s / 60 / 60 in
  if (0 <=? dur_h) && (dur_h <? 24) then Ok (dur_h, dur_m, dur_s)
  else Raise ValueError.

Definition write_tags_to_mint (orig_trans_to_tagged : list (Trans * list Trans))
    (sent : list request) : list request * outcome unit :=
  match send_updates orig_trans_to_tagged sent 0 with
  | (sent, Ok num_requests) =>
      match duration with
      | Ok _ => (sent, Ok tt)
      | Raise e => (sent, Raise e)
      | Diverge => (sent, Diverge)
      end
  | (sent, Raise e) => (sent, Raise e)
  | (sent, Diverge) => (sent, Diverge)
  end.

End MintClient.

(* ================================================================= *)
(** * Vocabulary of the properties *)

(** The test of the assertion of the first loop. *)
Definition amounts_close (p : Trans * list Trans) : bool :=
  if Qlt_le_dec (Qabs (sum_amounts [fst p] - sum_amounts (snd p))) MICRO_USD_EPS
  then true else false.

(** The absolute number of days between the transaction and the shipment of
    the order at address [o], when the order has a shipment date. *)
Definition order_days (hp : list Order.t) (t : Trans) (o : ref) : option Z :=
  match nth_error hp o with
  | Some ord =>
      match Order.Shipment_Date ord with
      | Some sd => Some (Z.abs (Date.days_between (odate t) sd))
      | None => None
      end
  | None => None
  end.

Definition order_unclaimed (hp : list Order.t) (o : ref) : Prop :=
  exists ord, nth_error hp o = Some ord /\ Order.MATCHED_TRANSACTION ord = None.

(** The order at [o] qualifies for [t] at distance [d]: shipped [d <= 3] days
    from the transaction and not claimed. *)
Definition order_qualifies (hp : list Order.t) (t : Trans) (o : ref) (d : Z) : Prop :=
  order_days hp t o = Some d /\ d <= 3 /\ order_unclaimed hp o.

(** What the candidate loop holds after the candidates [seen]. *)
Definition best_order (hp : list Order.t) (t : Trans) (seen : list ref)
    (closest_match : option ref) (closest_match_num_days : Z) : Prop :=
  match closest_match with
  | None =>
      4 <= closest_match_num_days /\
      forall o d, In o seen -> ~ order_qualifies hp t o d
  | Some o =>
      In o seen /\ order_qualifies hp t o closest_match_num_days /\
      forall o' d', In o' seen -> order_qualifies hp t o' d' ->
                    closest_match_num_days <= d'
  end.

(** The transaction recorded under [MATCHED_TRANSACTION] in the record a
    claim event names; [None] when the key is absent. *)
Definition flag_at (h : Heap) (e : claim_event) : option Trans :=
  match e with
  | ClaimOrder o =>
      match nth_error (orders h) o with
      | Some ord => Order.MATCHED_TRANSACTION ord
      | None => None
      end
  | ClaimRefund r =>
      match nth_error (refunds h) r with
      | Some rf => Refund.MATCHED_TRANSACTION rf
      | None => None
      end
  end.


(** From [h] to [h']: a flag that is set stays as it is, and a claim that is
    new in the log was made on a record without flag. *)
Definition advance (h h' : Heap) : Prop :=
  (forall e tr, flag_at h e = Some tr -> flag_at h' e = Some tr) /\
  (forall e, In e (claim_log h') -> In e (claim_log h) \/ flag_at h e = None).



(** A computation that leaves the Order and Refund records and the log of
    claims alone. *)
Definition frames {A : Type} (c : M A) : Prop :=
  forall h,
    orders (fst (c h)) = orders h /\
    refunds (fst (c h)) = refunds h /\
    claim_log (fst (c h)) = claim_log h.

(** Every value stored in a multi-map satisfies [P]. *)
Definition mm_all {K V : Type} (P : V -> Prop) (m : multimap K V) : Prop :=
  Forall (fun kv => Forall P (snd kv)) m.

(** Keys and values of a multi-map are related by [P]. *)
Definition mm_all2 {K V : Type} (P : K -> V -> Prop) (m : multimap K V) : Prop :=
  Forall (fun kv => Forall (P (fst kv)) (snd kv)) m.

(** While [done] has been collected into [m]: the keys of [m] are distinct,
    every element collected has its key in [m], and the group of a key holds
    the elements of that key, in their order. *)
Definition collected {K A : Type} (eqb : K -> K -> bool) (key : A -> K)
    (m : multimap K A) (done : list A) : Prop :=
  NoDup (map fst m) /\
  (forall y, In y done -> In (key y) (map fst m)) /\
  Forall (fun kv => snd kv = filter (fun y => eqb (key y) (fst kv)) done) m.

(** The three sources of the refund index: where a group [g] stored under
    [amount] comes from. *)
Definition refund_group_source (refunds : list Refund.t) (amount : Z) (g : list ref)
    : Prop :=
  let rs := enumerate refunds in
  (* each individual refund as its own group *)
  (exists r, In r rs /\ g = [fst r] /\ Refund.Total_Refund_Amount (snd r) = amount)
  \/
  (* all the refunds of an order, several of them and on several days *)
  (exists order_id,
      let of_order :=
        filter (fun r => String.eqb (Refund.Order_ID (snd r)) order_id) rs in
      g = map fst of_order /\
      List.length of_order <> 1%nat /\
      (1 < List.length (distinct_dates
                          (map (fun r => Refund.Refund_Date (snd r)) of_order)))%nat /\
      refund_total of_order = amount)
  \/
  (* all the refunds of an order and a day (as the day prints), several of
     them *)
  (exists order_id day,
      let same_day :=
        filter (fun r => String.eqb (Refund.Order_ID (snd r)) order_id
                         && String.eqb (Date.format_opt (Refund.Refund_Date (snd r))) day)
               rs in
      g = map fst same_day /\
      List.length same_day <> 1%nat /\
      refund_total same_day = amount).

(** From [h] to [h'] the Item records at the addresses below [n] are the
    same, and no address is lost. *)
Definition items_kept (n : nat) (h h' : Heap) : Prop :=
  (n <= List.length (items h'))%nat /\
  forall r, (r < n)%nat -> nth_error (items h') r = nth_error (items h) r.

Definition tax_adjust_count (h : Heap) : Z := counter_get "items_tax_adjust" (stats h).

(** Run from a heap with at least [n] items, the computation keeps the
    first [n] Item records and does not count a tax adjustment. *)
Definition tidy_at {A : Type} (n : nat) (c : M A) (h : Heap) : Prop :=
  (n <= List.length (items h))%nat ->
  items_kept n h (fst (c h)) /\ tax_adjust_count (fst (c h)) = tax_adjust_count h.

Definition tidy {A : Type} (n : nat) (c : M A) : Prop := forall h, tidy_at n c h.

(** The same, unless a tax adjustment is counted. *)
Definition tidy_unless_taxed_at {A : Type} (n : nat) (c : M A) (h : Heap) : Prop :=
  (n <= List.length (items h))%nat ->
  (items_kept n h (fst (c h)) /\ tax_adjust_count (fst (c h)) = tax_adjust_count h)
  \/ tax_adjust_count (fst (c h)) = tax_adjust_count h + 1.

(** A computation that leaves the counters alone. *)
Definition keeps_stats {A : Type} (c : M A) : Prop :=
  forall h, stats (fst (c h)) = stats h.

(* ================================================================= *)
(** * Sample data *)

Module Sample.

(** A category table and the two defaults, standing for the module
    [category]. *)
Definition table (c : string) : option string :=
  if String.eqb c "Book" then Some "Books"
  else if String.eqb c "Toy" then Some "Toys"
  else None.
Definition default_category : string := "Shopping".
Definition default_return_category : string := "Returned Purchase".

Definition prefix (is_debit : bool) : string :=
  if is_debit then DEFAULT_MERCHANT_PREFIX else DEFAULT_MERCHANT_REFUND_PREFIX.

Definition ids (name : string) : option Z :=
  if String.eqb name "Books" then Some 202
  else if String.eqb name "Toys" then Some 1311
  else if String.eqb name "Shopping" then Some 2
  else if String.eqb name "Shipping" then Some 1610
  else if String.eqb name "Returned Purchase" then Some 2001
  else None.

Definition march (d : Z) : date := mkDate 2020 3 d.

(** A posted Amazon debit of [a] micro-usd, ordered on [d] March. *)
Definition debit (i : Z) (a : Z) (d : Z) : Trans :=
  mkTrans i None (march d) (march d) (inject_Z a) true false false
          "Amazon" "AMAZON MKTPLACE PMTS" "Shopping" None "" None false.

(** A posted Amazon credit of [a] micro-usd (the amount is negative). *)
Definition credit (i : Z) (a : Z) (d : Z) : Trans :=
  mkTrans i None (march d) (march d) (inject_Z (- a)) false false false
          "Amazon" "AMAZON MKTPLACE PMTS" "Shopping" None "" None false.

Definition item (order_id tracking title : string) (quantity unit_price tax : Z)
    : Item.t :=
  Item.mk order_id (Some (march 1)) tracking title "Book" quantity unit_price
          (unit_price * quantity) (inject_Z tax)
          (inject_Z (unit_price * quantity + tax)) None.

(** An order without shipping charge or promotions, shipped on [d] March. *)
Definition order (order_id tracking : string) (d : Z) (subtotal tax total : Z)
    : Order.t :=
  Order.mk order_id (Some (march 1)) (Some (march d)) tracking subtotal 0 tax tax 0
           total None.

Definition refund (order_id reason title : string) (d : Z) (total : Z) : Refund.t :=
  Refund.mk order_id (Some (march 1)) (Some (march d)) reason title "Book"
            "B00EXAMPLE" 1 total 0 total None.

Definition heap (items : list Item.t) (orders : list Order.t) (refunds : list Refund.t)
    : Heap :=
  mkHeap items orders refunds [] [].

(** *** A tagged pair that conserves the amount, and one that is off by
    exactly 50 micro-usd *)

Definition book_line (a : Z) : Trans :=
  line_item (debit 1 5000000 1) "Amazon.com: Atlas" "Books" (inject_Z a) true "".

Definition tagged_exact : list (Trans * list Trans) :=
  [(debit 1 5000000 1, [book_line 5000000])].

Definition tagged_off_by_eps : list (Trans * list Trans) :=
  [(debit 1 5000000 1, [book_line 4999950])].

(** *** Three shipments charged 5,000,000: shipped 3 days, 4 days and 1 day
    from the transaction of 1 March, the last one already claimed *)

Definition shipments : list Order.t :=
  [ order "O1" "UPS(1)" 4 4500000 500000 5000000;
    order "O2" "UPS(2)" 5 4500000 500000 5000000;
    Order.claim (debit 7 5000000 1) (order "O3" "UPS(3)" 2 4500000 500000 5000000) ].

(** *** A shipment whose order subtotal is 0 (only shipping is charged)
    and whose tracking number leads to an item of quantity 2 *)

Definition zero_subtotal_items : list Item.t :=
  [ item "O3" "UPS(3)" "Widget" 2 10000000 0 ].

Definition zero_subtotal_orders : list Order.t :=
  [ Order.mk "O3" (Some (march 1)) (Some (march 2)) "UPS(3)"
             0 5990000 0 0 0 5990000 None ].

(** *** The quantity slice of the specification: 3 units ordered, the
    shipment charges 2 of them *)

Definition slice_items : list Item.t :=
  [ item "O3" "UPS(3)" "Widget" 3 1000000 300000 ].

Definition slice_orders : list Order.t :=
  [ order "O3" "UPS(3)" 2 2000000 200000 2200000 ].

(** *** An order charged 1,000,000 less than its item (a gift card paid
    the rest), the item tax being what the order reports *)

Definition undercharged_items : list Item.t :=
  [ item "O4" "UPS(4)" "Atlas" 1 5500000 500000 ].

Definition undercharged_orders : list Order.t :=
  [ order "O4" "UPS(4)" 2 5500000 500000 5000000 ].

(** *** An item whose tax is one cent short of the tax of its order *)

Definition cent_short_items : list Item.t :=
  [ item "O5" "UPS(5)" "Atlas" 1 10000000 790000 ].

Definition cent_short_orders : list Order.t :=
  [ order "O5" "UPS(5)" 2 10000000 800000 10800000 ].

(** *** Two refund rows of different reason and title whose formatted keys
    coincide *)

Definition colliding_refunds : list Refund.t :=
  [ refund "O7" "Damaged" "Box-Cutter" 2 1000000;
    refund "O7" "Damaged-Box" "Cutter" 2 1000000 ].

(** *** Two refund rows of one order, refunded on different days *)

Definition two_day_refunds : list Refund.t :=
  [ refund "O9" "Customer Return" "Atlas" 2 1000000;
    refund "O9" "Customer Return" "Globe" 6 2000000 ].

(** What a run leaves to compare: the lines of every tagged transaction as
    (description, amount as a string, category). *)
Definition lines (r : Heap * outcome (list (Trans * list Trans)))
    : outcome (list (list (string * string * string))) :=
  match snd r with
  | Ok l => Ok (map (fun p => map get_tuple (snd p)) l)
  | Raise e => Raise e
  | Diverge => Diverge
  end.

Definition run (items : list Item.t) (orders : list Order.t) (refunds : list Refund.t)
    (trans : list Trans) (itemize : bool) : Heap * outcome (list (Trans * list Trans)) :=
  run_tag_transactions table default_category default_return_category 10
                       items orders refunds trans itemize prefix [].

End Sample.

(* ================================================================= *)
(** * Vocabulary of the further properties *)

(** The sum of the amounts of all the transactions held in a multi-map. *)
Definition mm_sum {K : Type} (m : multimap K Trans) : Q :=
  Py.sumQ (map (fun kv => sum_amounts (snd kv)) m).

(** A child transaction that names no parent. *)
Definition orphan (t : Trans) : bool :=
  isChild t && match pid t with Some _ => false | None => true end.

(** What [tag_transactions] requires of a transaction before it looks at it:
    'amazon' in the original description, and not pending. *)
Definition taggable (t : Trans) : Prop :=
  Py.contains "amazon" (Py.lower (omerchant t)) = true /\ isPending t = false.

(** The ['Item Total'] of the Item at address [r]. *)
Definition item_total_at (h : Heap) (r : ref) : Q :=
  match nth_error (items h) r with
  | Some it => Item.Item_Total it
  | None => 0
  end.

(** The total refunded by a list of refund rows. *)
Definition refunded (rows : list Refund.t) : Z :=
  Py.sumZ (map Refund.Total_Refund_Amount rows).

(** What [parse_amazon_csv] establishes for a refund row. *)
Definition refund_totalled (r : Refund.t) : Prop :=
  Refund.Total_Refund_Amount r = Refund.Refund_Amount r + Refund.Refund_Tax_Amount r.

(** A refund row whose refund date did not parse. *)
Definition undated_refund : Refund.t :=
  Refund.mk "O8" (Some (Sample.march 1)) None "Damaged" "Atlas" "Book"
            "B00EXAMPLE" 1 1000000 0 1000000 None.

(** What a look-up in a [defaultdict(list)] filled by appending gives for
    the values [l] of a key: nothing when the key was never used. *)
Definition found {A : Type} (l : list A) : option (list A) :=
  match l with
  | [] => None
  | _ => Some l
  end.

(** The addresses of the records that satisfy [p], in the order of the
    report. *)
Definition addresses_of {A : Type} (p : A -> bool) (l : list A) : list ref :=
  map fst (filter (fun r => p (snd r)) (enumerate l)).

(** An order row that has not shipped: no shipment date. *)
Definition unshipped_order : Order.t :=
  Order.mk "O2" (Some (Sample.march 1)) None "" 5000000 0 0 0 0 5000000 None.

(** The category of a line is one of Mint's; and the line with the id of its
    category. *)
Definition category_known (ids : string -> option Z) (tr : Trans) : bool :=
  match ids (category tr) with
  | Some _ => true
  | None => false
  end.

Definition with_category_id (ids : string -> option Z) (tr : Trans) : Trans :=
  match ids (category tr) with
  | Some cid => set_categoryId cid tr
  | None => tr
  end.

(** Two rows in the order of their order dates: the second is not ordered
    before the first. *)
Definition not_after {A : Type} (order_date : A -> option date) (a b : A) : Prop :=
  match order_date a, order_date b with
  | Some x, Some y => date_ltb y x = false
  | _, _ => False
  end.

(** The rows ordered on the day [d]. *)
Definition ordered_on {A : Type} (order_date : A -> option date) (d : date)
    (rows : list A) : list A :=
  filter (fun r => opt_date_eqb (order_date r) (Some d)) rows.

(** Two amounts of micro-usd and their counterparts in a sample refund row
    of the report, where the total is not given. *)
Definition untotalled_refund (order_id : string) (d : Z) (amount tax : Z) : Refund.t :=
  Refund.mk order_id (Some (Sample.march d)) (Some (Sample.march (d + 7))) "Damaged"
            "Atlas" "Book" "B00EXAMPLE" 1 amount tax 0 None.

(** An index by order id that agrees with the heap: every address stored
    under an order id holds an item of that order. *)
Definition indexes_order_ids (h : Heap) (order_id_to_items : item_index) : Prop :=
  mm_all2 (fun k r => exists it, nth_error (items h) r = Some it /\ Item.Order_ID it = k)
          order_id_to_items.

(** The item at address [i] belongs to the order [order_id]. *)
Definition of_order (h : Heap) (order_id : string) (i : ref) : Prop :=
  exists it, nth_error (items h) i = Some it /\ Item.Order_ID it = order_id.

(** The absolute number of days between the transaction and the first dated
    refund of the group [g], when the group has one. *)
Definition refund_days (hp : list Refund.t) (t : Trans) (g : list ref) : option Z :=
  match first_dated_refund hp g with
  | Ok rd => Some (Z.abs (Date.days_between (odate t) rd))
  | _ => None
  end.

(** The group [g] qualifies for [t] at distance [d]: refunded [d <= 3] days
    from the transaction and none of its refunds claimed. *)
Definition refund_group_qualifies (hp : list Refund.t) (t : Trans) (g : list ref)
    (d : Z) : Prop :=
  refund_days hp t g = Some d /\ d <= 3 /\ any_claimed hp g = false.

(** What the refund loop holds after the groups [seen]: the group it holds
    qualifies, the qualifying groups before it are strictly farther and
    those after it are not closer. *)
Definition best_refund_group (hp : list Refund.t) (t : Trans) (seen : list (list ref))
    (closest_match : option (list ref)) (closest_match_num_days : Z) : Prop :=
  match closest_match with
  | None =>
      4 <= closest_match_num_days /\
      forall g d, In g seen -> ~ refund_group_qualifies hp t g d
  | Some g =>
      refund_group_qualifies hp t g closest_match_num_days /\
      exists before after,
        seen = (before ++ g :: after)%list /\
        (forall g' d', In g' before -> refund_group_qualifies hp t g' d' ->
                       closest_match_num_days < d') /\
        (forall g' d', In g' after -> refund_group_qualifies hp t g' d' ->
                       closest_match_num_days <= d')
  end.

(** Two versions of a refund row that the tagger cannot tell apart when it
    groups and totals: same collapse key, same total. *)
Definition same_refund (a b : Refund.t) : Prop :=
  collapse_key b = collapse_key a /\
  Refund.Total_Refund_Amount b = Refund.Total_Refund_Amount a.

(** The refunds of the heap are the rows [rows], up to the claims made. *)
Definition same_refunds (rows : list Refund.t) (h : Heap) : Prop :=
  Forall2 same_refund rows (refunds h).

(** A computation that keeps the refunds so, whatever its outcome. *)
Definition keeps_refund_rows {A : Type} (c : M A) : Prop :=
  forall rows h, same_refunds rows h -> same_refunds rows (fst (c h)).

(** Rows of equal collapse key have the same total. *)
Definition key_fixes_total (rows : list Refund.t) : Prop :=
  forall a b, In a rows -> In b rows ->
              collapse_key a = collapse_key b ->
              Refund.Total_Refund_Amount a = Refund.Total_Refund_Amount b.

(** From [h] to [h'] exactly one claim was written: the order at [o], which
    had no flag, now carries the transaction [t]. *)
Definition claims_order (h h' : Heap) (t : Trans) (o : ref) : Prop :=
  flag_at h (ClaimOrder o) = None /\
  flag_at h' (ClaimOrder o) = Some t /\
  claim_log h' = ClaimOrder o :: claim_log h.

(* ================================================================= *)
(** * Properties *)

Unset Implicit Arguments.
Local Open Scope monad_scope.

(** ** The built-ins behave as in Python *)

Example toordinal_2020_03_01 : Date.toordinal (mkDate 2020 3 1) = 737485.
Proof. reflexivity. Qed.

Example isoformat_2020_03_01 : Date.isoformat (mkDate 2020 3 1) = "2020-03-01".
Proof. reflexivity. Qed.

Example split_space_keeps_empty_pieces : Py.split_space "a  b " = ["a"; ""; "b"; ""].
Proof. reflexivity. Qed.

Example round_half_even_ties :
  Py.round_half_even (5 # 2) = 2 /\ Py.round_half_even (7 # 2) = 4.
Proof. split; reflexivity. Qed.

Example get_item_title_strips_trailing_symbols :
  get_item_title 3 "USB-C Cable (2 pack), black --" (88 # 1)
  = "3x USB-C Cable (2 pack), black".
Proof. vm_compute. reflexivity. Qed.

(** The roundings follow the float, not the decimal it was written as:
    0.0149 + 0.0001 is a float below 0.015, 2.01 * 1000000 is a float below
    2010000, and the floats 0.05 and 8.35 lie above and below their
    decimals. *)
Example roundings_follow_the_float :
  micro_usd_to_usd_string (14900 # 1) = "$0.01" /\
  micro_usd_to_usd_string (15100 # 1) = "$0.02" /\
  parse_usd_as_micro_usd (fun _ => Some (Finite (201 # 100))) (Some "$2.01") = Ok 2009999 /\
  round1 (F64.of_Q (5 # 100)) = F64.of_Q (1 # 10) /\
  round1 (F64.of_Q (835 # 100)) = F64.of_Q (83 # 10) /\
  Date.isoformat (mkDate 20 3 1) = "0020-03-01".
Proof. vm_compute. repeat split; reflexivity. Qed.

Example micro_usd_to_usd_string_signs :
  micro_usd_to_usd_string (5000000 # 1) = "$5.00" /\
  micro_usd_to_usd_string (- (1234567 # 1)) = "-$1.23" /\
  micro_usd_to_usd_string 0 = "-$0.00".
Proof. vm_compute. repeat split; reflexivity. Qed.

(** The example of the specification: a debit of 5,000,000 against an order
    charged 5,000,000 with one item of subtotal 4,500,000 and tax 500,000
    gives a single line of $5.00 in the mapped category of the item. *)
Example single_item_example :
  Sample.lines
    (Sample.run [Sample.item "O1" "UPS(1)" "Atlas" 1 4500000 500000]
                [Sample.order "O1" "UPS(1)" 2 4500000 500000 5000000] []
                [Sample.debit 1 5000000 1] true)
  = Ok [[("Amazon.com: Atlas", "$5.00", "Books")]].
Proof. vm_compute. reflexivity. Qed.

(** ** Reasoning about computations *)

Lemma bind_ok_inv {A B} (c : M A) (k : A -> M B) (h h' : Heap) (b : B) :
  bind c k h = (h', Ok b) ->
  exists h1 a, c h = (h1, Ok a) /\ k a h1 = (h', Ok b).
Proof.
  unfold bind. destruct (c h) as [h1 [a | e |]]; intros H.
  - exists h1, a. split; [reflexivity | exact H].
  - discriminate H.
  - discriminate H.
Qed.

Lemma bind_ok {A B} (c : M A) (k : A -> M B) (h h1 : Heap) (a : A) :
  c h = (h1, Ok a) -> bind c k h = k a h1.
Proof. intros H. unfold bind. rewrite H. reflexivity. Qed.

Lemma bind_raise {A B} (c : M A) (k : A -> M B) (h h1 : Heap) (e : exn) :
  c h = (h1, Raise e) -> bind c k h = (h1, Raise e).
Proof. intros H. unfold bind. rewrite H. reflexivity. Qed.

(** ** Amount conservation in the validator *)

Lemma sum_amounts_singleton (t : Trans) : (sum_amounts [t] == amount t)%Q.
Proof. unfold sum_amounts, Py.sumQ. simpl. apply Qplus_0_l. Qed.

Lemma amounts_close_true (p : Trans * list Trans) :
  amounts_close p = true <->
  (Qabs (amount (fst p) - sum_amounts (snd p)) < MICRO_USD_EPS)%Q.
Proof.
  unfold amounts_close.
  assert (E : (Qabs (sum_amounts [fst p] - sum_amounts (snd p))
               == Qabs (amount (fst p) - sum_amounts (snd p)))%Q).
  { apply Qabs_wd. rewrite sum_amounts_singleton. reflexivity. }
  destruct (Qlt_le_dec _ _) as [Hlt | Hle]; split; intros H.
  - rewrite <- E. exact Hlt.
  - reflexivity.
  - discriminate H.
  - rewrite <- E in H. exfalso. apply (Qlt_not_le _ _ H Hle).
Qed.

Lemma assert_amounts_spec (pairs : list (Trans * list Trans)) (h : Heap) :
  assert_amounts pairs h =
  (h, if forallb amounts_close pairs then Ok tt else Raise AssertionError).
Proof.
  induction pairs as [| [orig new] rest IH].
  - reflexivity.
  - change (assert_amounts ((orig, new) :: rest))
      with (assert (amounts_close (orig, new)) ;; assert_amounts rest).
    cbn [forallb]. unfold bind, assert.
    destruct (amounts_close (orig, new)); cbn.
    + exact IH.
    + reflexivity.
Qed.

Lemma resolve_categories_amounts (ids : string -> option Z) (new : list Trans) :
  forall h h' new',
    resolve_categories ids new h = (h', Ok new') ->
    h' = h /\ map amount new' = map amount new.
Proof.
  induction new as [| tr rest IH]; simpl; intros h h' new' H.
  - inversion H; subst. split; reflexivity.
  - destruct (ids (category tr)) as [cid |]; [| discriminate H].
    apply bind_ok_inv in H. destruct H as (h1 & rest' & H1 & H2).
    apply IH in H1. destruct H1 as [-> E].
    inversion H2; subst. split; [reflexivity |].
    simpl. rewrite E. reflexivity.
Qed.

Lemma resolve_all_categories_amounts (ids : string -> option Z)
    (pairs : list (Trans * list Trans)) :
  forall h h' pairs',
    resolve_all_categories ids pairs h = (h', Ok pairs') ->
    h' = h /\
    forall orig new', In (orig, new') pairs' ->
      exists new, In (orig, new) pairs /\ map amount new' = map amount new.
Proof.
  induction pairs as [| [orig0 new0] rest IH]; simpl; intros h h' pairs' H.
  - inversion H; subst. split; [reflexivity |]. intros ? ? [].
  - apply bind_ok_inv in H. destruct H as (h1 & new0' & H1 & H).
    apply resolve_categories_amounts in H1. destruct H1 as [-> E0].
    apply bind_ok_inv in H. destruct H as (h2 & rest' & H2 & H).
    apply IH in H2. destruct H2 as [-> Hrest].
    inversion H; subst. split; [reflexivity |].
    intros orig new' [Hin | Hin].
    + inversion Hin; subst. exists new0. split; [left; reflexivity | exact E0].
    + destruct (Hrest _ _ Hin) as (new & Hnew & E).
      exists new. split; [right; exact Hnew | exact E].
Qed.

Lemma sanity_check_unfold (pairs : list (Trans * list Trans))
    (ids : string -> option Z) (get_prefix : bool -> string) (retag : bool) (h : Heap) :
  forallb amounts_close pairs = false ->
  sanity_check_and_filter_tags pairs ids get_prefix retag h = (h, Raise AssertionError).
Proof.
  intros H. unfold sanity_check_and_filter_tags.
  apply bind_raise. rewrite assert_amounts_spec, H. reflexivity.
Qed.

Lemma sanity_check_accepts (pairs : list (Trans * list Trans))
    (ids : string -> option Z) (get_prefix : bool -> string) (retag : bool)
    (h h' : Heap) (filtered : list (Trans * list Trans)) :
  sanity_check_and_filter_tags pairs ids get_prefix retag h = (h', Ok filtered) ->
  forallb amounts_close pairs = true /\
  forall orig new', In (orig, new') filtered ->
    exists new, In (orig, new) pairs /\ map amount new' = map amount new.
Proof.
  unfold sanity_check_and_filter_tags. intros H.
  apply bind_ok_inv in H. destruct H as (h1 & [] & H1 & H).
  rewrite assert_amounts_spec in H1.
  destruct (forallb amounts_close pairs) eqn:Hall; [| inversion H1].
  split; [reflexivity |].
  apply bind_ok_inv in H. destruct H as (h2 & resolved & H2 & H).
  apply resolve_all_categories_amounts in H2. destruct H2 as [-> Hres].
  apply bind_ok_inv in H. destruct H as (h3 & [] & _ & H).
  apply bind_ok_inv in H. destruct H as (h4 & filtered' & H4 & H).
  apply bind_ok_inv in H. destruct H as (h5 & [] & _ & H).
  inversion H; subst filtered'. clear H.
  intros orig new' Hin. apply Hres.
  destruct (negb retag).
  - apply bind_ok_inv in H4. destruct H4 as (h6 & [] & _ & H4).
    inversion H4; subst filtered. clear H4.
    apply filter_In in Hin. destruct Hin as [Hin _].
    apply filter_In in Hin. destruct Hin as [Hin _]. exact Hin.
  - inversion H4; subst filtered.
    apply filter_In in Hin. destruct Hin as [Hin _]. exact Hin.
Qed.

(** C1.  Every pair that [sanity_check_and_filter_tags] returns conserves
    the amount: the amounts of the replacements sum to the amount of the
    original transaction to within 50 micro-usd, and so does every pair of
    the input of an accepted run.  If the absolute difference of any input
    pair is 50 micro-usd or more, the call raises [AssertionError] and
    returns nothing. *)
Theorem sanity_check_conserves_amounts :
  forall (pairs : list (Trans * list Trans)) (ids : string -> option Z)
         (get_prefix : bool -> string) (retag_changed : bool) (h : Heap),
    (forall h' filtered,
        sanity_check_and_filter_tags pairs ids get_prefix retag_changed h
          = (h', Ok filtered) ->
        (forall orig new, In (orig, new) filtered ->
           (Qabs (amount orig - sum_amounts new) < MICRO_USD_EPS)%Q) /\
        (forall orig new, In (orig, new) pairs ->
           (Qabs (amount orig - sum_amounts new) < MICRO_USD_EPS)%Q))
    /\
    (forall orig new,
        In (orig, new) pairs ->
        (MICRO_USD_EPS <= Qabs (amount orig - sum_amounts new))%Q ->
        sanity_check_and_filter_tags pairs ids get_prefix retag_changed h
          = (h, Raise AssertionError)).
Proof.
  intros pairs ids get_prefix retag h. split.
  - intros h' filtered H.
    apply sanity_check_accepts in H. destruct H as [Hall Hsub].
    rewrite forallb_forall in Hall.
    assert (Hpairs : forall orig new, In (orig, new) pairs ->
              (Qabs (amount orig - sum_amounts new) < MICRO_USD_EPS)%Q).
    { intros orig new Hin.
      apply (proj1 (amounts_close_true (orig, new))). apply Hall. exact Hin. }
    split; [| exact Hpairs].
    intros orig new' Hin.
    destruct (Hsub _ _ Hin) as (new & Hnew & E).
    unfold sum_amounts. rewrite E. apply Hpairs. exact Hnew.
  - intros orig new Hin Hfar.
    apply sanity_check_unfold.
    destruct (forallb amounts_close pairs) eqn:Hall; [| reflexivity].
    rewrite forallb_forall in Hall. specialize (Hall _ Hin).
    apply amounts_close_true in Hall. simpl in Hall.
    exfalso. apply (Qlt_not_le _ _ Hall Hfar).
Qed.

(** ** The candidate loop of [tag_as_order] *)

Lemma claimed_false_iff (ord : Order.t) :
  Order.claimed ord = false <-> Order.MATCHED_TRANSACTION ord = None.
Proof.
  unfold Order.claimed. destruct (Order.MATCHED_TRANSACTION ord); split; congruence.
Qed.

Lemma order_days_dated (hp : list Order.t) (t : Trans) (o : ref) (ord : Order.t)
    (sd : date) :
  nth_error hp o = Some ord -> Order.Shipment_Date ord = Some sd ->
  order_days hp t o = Some (Z.abs (Date.days_between (odate t) sd)).
Proof. intros H1 H2. unfold order_days. rewrite H1, H2. reflexivity. Qed.

Lemma closest_order_loop_spec (hp : list Order.t) (t : Trans) :
  forall (rest seen : list ref) (closest : option ref) (cd : Z),
    Forall (fun o => exists d, order_days hp t o = Some d) rest ->
    best_order hp t seen closest cd ->
    exists r cd',
      closest_order_loop hp t rest closest cd = Ok r /\
      best_order hp t (seen ++ rest) r cd'.
Proof.
  induction rest as [| o rest IH]; intros seen closest cd Hdated Hbest.
  - exists closest, cd. rewrite app_nil_r. split; [reflexivity | exact Hbest].
  - inversion Hdated as [| ? ? [d Hd] Hdated']; subst.
    cbn [closest_order_loop].
    unfold order_days in Hd.
    destruct (nth_error hp o) as [ord |] eqn:Hnth; [| discriminate Hd].
    destruct (Order.Shipment_Date ord) as [sd |] eqn:Hsd; [| discriminate Hd].
    injection Hd as Hd.
    pose proof (order_days_dated hp t o ord sd Hnth Hsd) as Hdays. rewrite Hd in Hdays.
    rewrite Hd.
    replace (seen ++ o :: rest)%list with ((seen ++ [o]) ++ rest)%list
      by (rewrite <- app_assoc; reflexivity).
    destruct ((d <? 4) && (d <? cd) && negb (Order.claimed ord)) eqn:Hc.
    + apply andb_prop in Hc. destruct Hc as [Hc Hun].
      apply andb_prop in Hc. destruct Hc as [H4 Hcd].
      apply Z.ltb_lt in H4. apply Z.ltb_lt in Hcd.
      apply negb_true_iff, claimed_false_iff in Hun.
      apply IH; [exact Hdated' |].
      cbn [best_order]. split; [apply in_or_app; right; left; reflexivity |].
      split.
      * split; [exact Hdays |]. split; [lia |]. exists ord. split; assumption.
      * intros o' d' Hin Hq. apply in_app_or in Hin. destruct Hin as [Hin | [-> | []]].
        -- destruct closest as [o0 |]; cbn [best_order] in Hbest.
           ++ destruct Hbest as (_ & _ & Hmin). specialize (Hmin _ _ Hin Hq). lia.
           ++ destruct Hbest as (_ & Hnone). exfalso. exact (Hnone _ _ Hin Hq).
        -- destruct Hq as (Hq & _). rewrite Hdays in Hq. injection Hq as <-. lia.
    + apply IH; [exact Hdated' |].
      assert (Hrej : forall d', order_qualifies hp t o d' -> d' = d /\ cd <= d).
      { intros d' (Hq & H3 & (ord' & Hnth' & Hun)).
        rewrite Hdays in Hq. injection Hq as <-.
        rewrite Hnth in Hnth'. injection Hnth' as <-.
        apply claimed_false_iff in Hun. rewrite Hun in Hc.
        split; [reflexivity |].
        destruct (d <? 4) eqn:H4; [| apply Z.ltb_ge in H4; lia].
        destruct (d <? cd) eqn:Hcd; [discriminate Hc | apply Z.ltb_ge in Hcd; lia]. }
      destruct closest as [o0 |]; cbn [best_order] in *.
      * destruct Hbest as (Hin0 & Hq0 & Hmin).
        split; [apply in_or_app; left; exact Hin0 |].
        split; [exact Hq0 |].
        intros o' d' Hin Hq. apply in_app_or in Hin. destruct Hin as [Hin | [-> | []]].
        -- exact (Hmin _ _ Hin Hq).
        -- destruct (Hrej _ Hq) as [-> Hle]. exact Hle.
      * destruct Hbest as (H4 & Hnone). split; [exact H4 |].
        intros o' d' Hin Hq. apply in_app_or in Hin. destruct Hin as [Hin | [-> | []]].
        -- exact (Hnone _ _ Hin Hq).
        -- destruct (Hrej _ Hq) as [-> Hle]. destruct Hq as (_ & H3 & _). lia.
Qed.

Lemma closest_order_loop_single (hp : list Order.t) (t : Trans) (o : ref)
    (ord : Order.t) (sd : date) :
  nth_error hp o = Some ord ->
  Order.Shipment_Date ord = Some sd ->
  closest_order_loop hp t [o] None 365 =
  Ok (if (Z.abs (Date.days_between (odate t) sd) <? 4) && negb (Order.claimed ord)
      then Some o else None).
Proof.
  intros Hnth Hsd. cbn [closest_order_loop]. rewrite Hnth, Hsd.
  destruct (Z.abs (Date.days_between (odate t) sd) <? 4) eqn:H4; cbn [andb].
  - apply Z.ltb_lt in H4.
    assert (H365 : (Z.abs (Date.days_between (odate t) sd) <? 365) = true)
      by (apply Z.ltb_lt; lia).
    rewrite H365. cbn [andb]. destruct (negb (Order.claimed ord)); reflexivity.
  - reflexivity.
Qed.

Lemma sanity_check_conserves_amounts_witness :
  (Qabs (amount (Sample.debit 1 5000000 1) - sum_amounts [Sample.book_line 5000000])
   < MICRO_USD_EPS)%Q /\
  sanity_check_and_filter_tags Sample.tagged_off_by_eps Sample.ids Sample.prefix false
                               (Sample.heap [] [] [])
  = (Sample.heap [] [] [], Raise AssertionError).
Proof.
  split.
  - destruct (sanity_check_conserves_amounts Sample.tagged_exact Sample.ids
                Sample.prefix false (Sample.heap [] [] [])) as [Haccepted _].
    refine (proj2 (Haccepted _ _ _) _ _ _).
    + vm_compute. reflexivity.
    + left. reflexivity.
  - destruct (sanity_check_conserves_amounts Sample.tagged_off_by_eps Sample.ids
                Sample.prefix false (Sample.heap [] [] [])) as [_ Hrejected].
    apply (Hrejected (Sample.debit 1 5000000 1) [Sample.book_line 4999950]).
    + left. reflexivity.
    + vm_compute. intros H. discriminate H.
Defined.

(** ** The quantity slice *)

Lemma range_spec (n i : Z) : In i (Py.range n) <-> 0 <= i < n.
Proof.
  unfold Py.range. rewrite in_map_iff. split.
  - intros (k & <- & Hk). apply in_seq in Hk. lia.
  - intros Hi. exists (Z.to_nat i). split; [lia |]. apply in_seq. lia.
Qed.

(** The example of the specification: the item of quantity 3 and unit price
    1,000,000 is copied, and the copy gets quantity 2 and subtotal 2,000,000;
    the record of the index keeps quantity 3. *)
Example quantity_slice_example :
  let r := Sample.run Sample.slice_items Sample.slice_orders []
                      [Sample.debit 1 2200000 1] true in
  map (fun i => (Item.Quantity i, Item.Item_Subtotal i, Item.ORIGINAL_QUANTITY_IN_ORDER i))
      (items (fst r))
  = [(3, 3000000, None); (2, 2000000, Some 3)] /\
  Sample.lines r = Ok [[("Amazon.com: 2x Widget", "$2.20", "Books")]].
Proof. vm_compute. split; reflexivity. Qed.

(** C3 (the code departs from it).  The loop of the single-item fix-up runs
    over [range(quantity)], that is 0 .. quantity - 1, not 1 .. quantity.  On
    a shipment whose order subtotal is 0 and whose item has quantity 2 and
    unit price 10,000,000, the candidate 0 satisfies [per_unit * 0 ==
    order['Subtotal']]; [adjust_amazon_item_quantity(item, 0)] then fails
    its own [assert new_quantity > 0], and the run ends with
    [AssertionError] instead of abandoning the match. *)
Theorem quantity_loop_starts_at_zero :
  Py.range 2 = [0; 1] /\
  snd (Sample.run Sample.zero_subtotal_items Sample.zero_subtotal_orders []
                  [Sample.debit 1 5990000 1] true)
  = Raise AssertionError.
Proof. split; vm_compute; reflexivity. Qed.

(** ** The two ways a difference is closed *)

(** C4 (the code departs from it).  The order is charged 5,000,000 for an
    item of total 6,000,000 whose tax equals the tax of the order: the
    difference is -1,000,000 and [tax_before_promotions] minus the item taxes
    is 0, so the difference matches no tax miscalculation.  The one-sided
    test [itemized_diff - tax_diff < MICRO_USD_EPS] still takes the
    tax-redistribution branch ([items_tax_adjust] is counted), no 'Misc
    Charge' line is appended, and the single line of 6,000,000 that comes
    out is rejected by the validator. *)
Theorem reconcile_tax_test_is_one_sided :
  let r := Sample.run Sample.undercharged_items Sample.undercharged_orders []
                      [Sample.debit 1 5000000 1] true in
  Sample.lines r = Ok [[("Amazon.com: Atlas", "$6.00", "Books")]] /\
  counter_get "items_tax_adjust" (stats (fst r)) = 1 /\
  counter_get "misc_charge" (stats (fst r)) = 0 /\
  match snd r with
  | Ok tagged =>
      snd (sanity_check_and_filter_tags tagged Sample.ids Sample.prefix false (fst r))
      = Raise AssertionError
  | _ => False
  end.
Proof. vm_compute. repeat split; reflexivity. Qed.

(** C5 (the code departs from it).  The item found through the tracking
    index has tax 790,000 and its order tax 800,000.  No quantity is adjusted,
    so no copy is made (the heap still holds one Item), and the cent of the
    redistribution is added to the record of the index itself: after
    [tag_as_order] its tax is 800,000 and its total 10,800,000. *)
Theorem tax_redistribution_mutates_indexed_item :
  let r := Sample.run Sample.cent_short_items Sample.cent_short_orders []
                      [Sample.debit 1 10800000 1] true in
  build_tracking_to_items Sample.cent_short_items = [("UPS(5)", [0%nat])] /\
  map (fun i => (Item.Item_Subtotal_Tax i, Item.Item_Total i)) Sample.cent_short_items
  = [(790000 # 1, 10790000 # 1)]%Q /\
  map (fun i => (Item.Item_Subtotal_Tax i, Item.Item_Total i)) (items (fst r))
  = [(800000 # 1, 10800000 # 1)]%Q /\
  Sample.lines r = Ok [[("Amazon.com: Atlas", "$10.80", "Books")]].
Proof. vm_compute. repeat split; reflexivity. Qed.

(** ** Summarize mode *)

(** C6 (the code departs from it).  [summarize_new_trans] reads the names
    [items] and [order], which are neither parameters nor module globals: for
    every transaction, every list of line items and every prefix the call
    raises [NameError] at its first statement and returns no record. *)
Theorem summarize_new_trans_raises_NameError :
  forall (default : string) (t : Trans) (new_trans : list Trans) (prefix : string)
         (h : Heap),
    summarize_new_trans default t new_trans prefix h = (h, Raise (NameError "items")).
Proof. intros. reflexivity. Qed.

(** A matched transaction in summarize mode ends the run. *)
Example summarize_mode_run :
  snd (Sample.run Sample.slice_items Sample.slice_orders []
                  [Sample.debit 1 2200000 1] false)
  = Raise (NameError "items").
Proof. vm_compute. reflexivity. Qed.

(** ** Refund collapsing *)

(** C7 (the code departs from it).  The rows are grouped by the string
    ['{}-{}-{}-{}-{}-{}'.format(...)], not by the six fields.  Two rows that
    differ in reason and title ("Damaged" / "Box-Cutter" and "Damaged-Box" /
    "Cutter") have the same key, and although neither has a duplicate they
    are replaced by one row: the first one with quantity 2 and doubled
    amounts. *)
Theorem collapse_merges_rows_with_equal_keys :
  map (fun r => (Refund.Refund_Reason r, Refund.Title r)) Sample.colliding_refunds
  = [("Damaged", "Box-Cutter"); ("Damaged-Box", "Cutter")] /\
  map collapse_key Sample.colliding_refunds
  = ["2020-03-02-Damaged-Box-Cutter-1000000-B00EXAMPLE-1";
     "2020-03-02-Damaged-Box-Cutter-1000000-B00EXAMPLE-1"] /\
  collapse_items_into_quantity Sample.colliding_refunds
  = [collapsed_row (Sample.refund "O7" "Damaged" "Box-Cutter" 2 1000000) 2] /\
  map (fun r => (Refund.Title r, Refund.Quantity r, Refund.Total_Refund_Amount r))
      (collapse_items_into_quantity Sample.colliding_refunds)
  = [("Box-Cutter", 2, 2000000)].
Proof. vm_compute. repeat split; reflexivity. Qed.

(** ** Currency parsing *)

(** C10 (the code departs from it).  The amount [","] is not empty, so the
    guard [if not amount] lets it pass; removing the commas leaves the empty
    string and [amount[0]] raises [IndexError], whatever [float] does. *)
Theorem parse_usd_raises_on_lone_comma :
  forall float : string -> option pyfloat,
    parse_usd_as_float float (Some ",") = Raise IndexError /\
    parse_usd_as_micro_usd float (Some ",") = Raise IndexError.
Proof. intros float. split; reflexivity. Qed.

(** So does [int] on the special values that [float] accepts. *)
Lemma parse_usd_raises_on_nan (float : string -> option pyfloat) :
  float "nan" = Some Nan ->
  parse_usd_as_micro_usd float (Some "nan") = Raise ValueError.
Proof.
  intros Hnan. unfold parse_usd_as_micro_usd, parse_usd_as_float. cbn.
  rewrite Hnan. reflexivity.
Qed.

(** The guarded inputs do yield 0: a missing or empty amount, and a string
    that [float] rejects. *)
Lemma parse_usd_zero_cases (float : string -> option pyfloat) :
  parse_usd_as_micro_usd float None = Ok 0 /\
  parse_usd_as_micro_usd float (Some "") = Ok 0 /\
  (forall c rest c' rest',
      Py.remove_commas (String c rest) = String c' rest' ->
      float (if Ascii.eqb "$"%char c' then rest' else String c' rest') = None ->
      parse_usd_as_micro_usd float (Some (String c rest)) = Ok 0).
Proof.
  split; [reflexivity |]. split; [reflexivity |].
  intros c rest c' rest' Hstrip Hfloat.
  unfold parse_usd_as_micro_usd, parse_usd_as_float.
  rewrite Hstrip, Hfloat. reflexivity.
Qed.

(** ** The claims of a run *)

Lemma advance_refl (h : Heap) : advance h h.
Proof. split; [intros e tr H; exact H | intros e H; left; exact H]. Qed.






Lemma frames_ret {A} (a : A) : frames (ret a).
Proof. intros h. repeat split. Qed.

Lemma frames_raise {A} (e : exn) : frames (@raise A e).
Proof. intros h. repeat split. Qed.

Lemma frames_diverge {A} : frames (@diverge A).
Proof. intros h. repeat split. Qed.

Lemma frames_lift {A} (o : outcome A) : frames (lift o).
Proof. intros h. repeat split. Qed.

Lemma frames_assert (b : bool) : frames (assert b).
Proof. destruct b; [apply frames_ret | apply frames_raise]. Qed.

Lemma frames_get_item (r : ref) : frames (get_item r).
Proof. intros h. repeat split. Qed.

Lemma frames_get_order (r : ref) : frames (get_order r).
Proof. intros h. repeat split. Qed.

Lemma frames_get_refund (r : ref) : frames (get_refund r).
Proof. intros h. repeat split. Qed.

Lemma frames_set_item (r : ref) (v : Item.t) : frames (set_item r v).
Proof. intros h. repeat split. Qed.

Lemma frames_stats_incr (key : string) : frames (stats_incr key).
Proof. intros h. repeat split. Qed.

Lemma frames_stats_set (key : string) (v : Z) : frames (stats_set key v).
Proof. intros h. repeat split. Qed.

Lemma frames_bind {A B} (c : M A) (k : A -> M B) :
  frames c -> (forall a, frames (k a)) -> frames (bind c k).
Proof.
  intros Hc Hk h. unfold bind. specialize (Hc h).
  destruct (c h) as [h1 [a | e |]]; cbn [fst] in *; try exact Hc.
  destruct Hc as (Ho & Hr & Hl). destruct (Hk a h1) as (Ho' & Hr' & Hl').
  repeat split; congruence.
Qed.

Lemma frames_deepcopy_item (r : ref) : frames (deepcopy_item r).
Proof.
  unfold deepcopy_item. apply frames_bind; [apply frames_get_item |].
  intros i h. repeat split.
Qed.

Lemma frames_mapM {A B} (f : A -> M B) (l : list A) :
  (forall a, frames (f a)) -> frames (mapM f l).
Proof.
  intros Hf. induction l as [| x rest IH]; cbn [mapM].
  - apply frames_ret.
  - apply frames_bind; [apply Hf |]. intros y.
    apply frames_bind; [exact IH |]. intros ys. apply frames_ret.
Qed.

Create HintDb frames.

#[local] Hint Resolve frames_ret frames_raise frames_diverge frames_lift frames_assert
  frames_get_item frames_get_order frames_get_refund frames_set_item
  frames_stats_incr frames_stats_set frames_deepcopy_item : frames.

(** Decompose a computation along its binds and case analyses. *)
Ltac frames_step :=
  match goal with
  | |- frames (bind _ _) => apply frames_bind; [| intros ?]
  | |- frames (mapM _ _) => apply frames_mapM; intros ?
  | |- frames (match ?x with _ => _ end) => destruct x
  | |- frames (if ?b then _ else _) => destruct b
  | |- frames _ => solve [auto with frames]
  end.

Ltac frames_tac := repeat frames_step.

Lemma frames_adjust_amazon_item_quantity (item : ref) (new_quantity : Z) :
  frames (adjust_amazon_item_quantity item new_quantity).
Proof. unfold adjust_amazon_item_quantity. frames_tac. Qed.

Lemma frames_absorb_cent_diff (order : Order.t) (item : ref) :
  frames (absorb_cent_diff order item).
Proof. unfold absorb_cent_diff. frames_tac. Qed.

#[local] Hint Resolve frames_adjust_amazon_item_quantity frames_absorb_cent_diff : frames.

Lemma frames_unit_price_loop (order : Order.t) (candidates : list ref) :
  frames (unit_price_loop order candidates).
Proof.
  induction candidates as [| i rest IH]; cbn [unit_price_loop]; frames_tac.
Qed.

Lemma frames_items_of_order (order_id : string) (l : list ref) :
  frames (items_of_order order_id l).
Proof. induction l as [| i rest IH]; cbn [items_of_order]; frames_tac. Qed.

Lemma frames_assert_order_id (order_id : string) (its : list ref) :
  frames (assert_order_id order_id its).
Proof. induction its as [| i rest IH]; cbn [assert_order_id]; frames_tac. Qed.

Lemma frames_quantity_loop (order : Order.t) (item : ref) (per_unit : Z)
    (range : list Z) :
  frames (quantity_loop order item per_unit range).
Proof. induction range as [| i rest IH]; cbn [quantity_loop]; frames_tac. Qed.

#[local] Hint Resolve frames_unit_price_loop frames_items_of_order
  frames_assert_order_id frames_quantity_loop : frames.

Lemma frames_resolve_items (order : Order.t) (tti oti : item_index) :
  frames (resolve_items order tti oti).
Proof. unfold resolve_items. frames_tac. Qed.

Lemma frames_sort_by_total (its : list ref) : frames (sort_by_total its).
Proof. unfold sort_by_total. frames_tac. Qed.

Lemma frames_sum_subtotals (its : list ref) : frames (sum_subtotals its).
Proof. unfold sum_subtotals. frames_tac. Qed.

Lemma frames_sum_subtotal_taxes (its : list ref) : frames (sum_subtotal_taxes its).
Proof. unfold sum_subtotal_taxes. frames_tac. Qed.

#[local] Hint Resolve frames_resolve_items frames_sort_by_total frames_sum_subtotals
  frames_sum_subtotal_taxes : frames.

Lemma frames_fix_subtotal_mismatch (order : Order.t) (its : list ref) :
  frames (fix_subtotal_mismatch order its).
Proof. unfold fix_subtotal_mismatch. frames_tac. Qed.

Lemma frames_synthesize (table : string -> option string) (default : string)
    (t : Trans) (order : Order.t) (its : list ref) :
  frames (synthesize table default t order its).
Proof.
  unfold synthesize, itemize_line_items, shipping_line. frames_tac.
Qed.

Lemma frames_item_tax_rate (i : ref) : frames (item_tax_rate i).
Proof. unfold item_tax_rate. frames_tac. Qed.

#[local] Hint Resolve frames_fix_subtotal_mismatch frames_synthesize
  frames_item_tax_rate : frames.

Lemma frames_move_cent (its : list ref) (idx : nat) (d : Q) (rates : list Q)
    (new_transactions : list Trans) :
  frames (move_cent its idx d rates new_transactions).
Proof. unfold move_cent. frames_tac. Qed.

#[local] Hint Resolve frames_move_cent : frames.

Lemma frames_redistribute_tax (fuel : nat) :
  forall (its : list ref) (tax_diff : Q) (rates : list Q) (new_transactions : list Trans),
    frames (redistribute_tax fuel its tax_diff rates new_transactions).
Proof.
  induction fuel as [| fuel IH]; intros its tax_diff rates nts;
    cbn [redistribute_tax]; frames_tac; apply IH.
Qed.

#[local] Hint Resolve frames_redistribute_tax : frames.

Lemma frames_reconcile (default : string) (fuel : nat) (t : Trans) (order : Order.t)
    (its : list ref) (new_transactions : list Trans) :
  frames (reconcile default fuel t order its new_transactions).
Proof. unfold reconcile. frames_tac. Qed.

#[local] Hint Resolve frames_reconcile : frames.

Lemma nth_error_update_eq {A} (l : list A) (n : nat) (v w : A) :
  nth_error l n = Some w -> nth_error (update n v l) n = Some v.
Proof.
  revert n. induction l as [| x rest IH]; intros [| n] H; cbn in *;
    try discriminate; [reflexivity | apply IH; exact H].
Qed.

Lemma nth_error_update_neq {A} (l : list A) (n m : nat) (v : A) :
  n <> m -> nth_error (update n v l) m = nth_error l m.
Proof.
  revert n m. induction l as [| x rest IH]; intros [| n] [| m] H; cbn;
    try reflexivity; [congruence | apply IH; congruence].
Qed.




(** The candidate loop only ever selects an order without flag. *)
Lemma closest_order_loop_unclaimed (hp : list Order.t) (t : Trans) :
  forall (cands : list ref) (closest : option ref) (cd : Z) (o : ref),
    closest_order_loop hp t cands closest cd = Ok (Some o) ->
    closest = Some o \/
    exists ord, nth_error hp o = Some ord /\ Order.MATCHED_TRANSACTION ord = None.
Proof.
  induction cands as [| c rest IH]; intros closest cd o H; cbn [closest_order_loop] in H.
  - left. congruence.
  - destruct (nth_error hp c) as [ord |] eqn:Hnth; [| discriminate H].
    destruct (Order.Shipment_Date ord) as [sd |]; [| discriminate H].
    destruct (_ && _ && negb (Order.claimed ord)) eqn:Hc.
    + apply IH in H. destruct H as [H | H]; [| right; exact H].
      injection H as <-. right. exists ord. split; [exact Hnth |].
      apply andb_prop in Hc. destruct Hc as [_ Hun].
      apply negb_true_iff in Hun. apply claimed_false_iff. exact Hun.
    + apply IH in H. exact H.
Qed.

Lemma closest_order_match_unclaimed (t : Trans) (cands : list ref) (h h' : Heap)
    (o : ref) :
  closest_order_match t cands h = (h', Ok (Some o)) ->
  h' = h /\ flag_at h (ClaimOrder o) = None.
Proof.
  unfold closest_order_match. intros H. injection H as <- H. split; [reflexivity |].
  apply closest_order_loop_unclaimed in H.
  destruct H as [H | (ord & Hnth & Hun)]; [discriminate H |].
  cbn. rewrite Hnth. exact Hun.
Qed.


(** ** The order that [tag_as_order] selects *)

(** Once the loop has selected the order at [o], the call claims it and
    nothing else, however it ends. *)
Lemma tag_as_order_claims_selected (table : string -> option string) (default : string)
    (fuel : nat) (t : Trans) (cands : list ref) (tti oti : item_index) (h : Heap)
    (o : ref) :
  closest_order_match t cands h = (h, Ok (Some o)) ->
  claims_order h (fst (tag_as_order table default fuel t cands tti oti h)) t o.
Proof.
  intros Hmatch.
  destruct (closest_order_match_unclaimed t cands h h o Hmatch) as [_ Hnone].
  assert (Hord : exists ord, nth_error (orders h) o = Some ord).
  { unfold closest_order_match in Hmatch. injection Hmatch as Hloop.
    apply closest_order_loop_unclaimed in Hloop.
    destruct Hloop as [Hloop | (ord & Hnth & _)]; [discriminate Hloop |].
    exists ord. exact Hnth. }
  destruct Hord as (ord & Hnth).
  unfold tag_as_order.
  rewrite (bind_ok _ _ h h (Some o) Hmatch).
  rewrite (bind_ok _ _ h (fst (stats_incr "order_match" h)) tt eq_refl).
  match goal with
  | |- context [bind (claim_order o t) ?k] => set (rest := k)
  end.
  assert (Hclaim : claim_order o t (fst (stats_incr "order_match" h))
                   = (mkHeap (items h) (update o (Order.claim t ord) (orders h))
                             (refunds h)
                             (counter_set "order_match"
                                (counter_get "order_match" (stats h) + 1) (stats h))
                             (ClaimOrder o :: claim_log h), Ok tt)).
  { unfold claim_order, bind, get_order, deref. cbn [stats_incr fst orders].
    rewrite Hnth. reflexivity. }
  rewrite (bind_ok _ _ _ _ tt Hclaim).
  assert (Hframes : frames (rest tt)) by (subst rest; cbv beta; frames_tac).
  destruct (Hframes (mkHeap (items h) (update o (Order.claim t ord) (orders h))
                            (refunds h)
                            (counter_set "order_match"
                               (counter_get "order_match" (stats h) + 1) (stats h))
                            (ClaimOrder o :: claim_log h))) as (Ho & _ & Hl).
  cbn [orders claim_log] in Ho, Hl.
  split; [exact Hnone |]. split; [| exact Hl].
  cbn [flag_at]. rewrite Ho, (nth_error_update_eq _ _ _ ord Hnth). reflexivity.
Qed.

Lemma tag_as_order_no_match (table : string -> option string) (default : string)
    (fuel : nat) (t : Trans) (cands : list ref) (tti oti : item_index) (h : Heap) :
  closest_order_match t cands h = (h, Ok None) ->
  tag_as_order table default fuel t cands tti oti h = (h, Ok None).
Proof. intros H. unfold tag_as_order. rewrite (bind_ok _ _ h h None H). reflexivity. Qed.

(** C2 (the code departs from it).  A candidate order without shipment date
    does not qualify, and the claim has [tag_as_order] return [None] when no
    candidate qualifies; the code subtracts the missing date from the date
    of the transaction and raises [TypeError] (the refund loop, its sibling,
    looks for a dated refund first).  That is the only departure: a lone
    candidate shipped exactly 3 days from the transaction and not yet
    claimed is the order [tag_as_order] claims, one shipped exactly 4 days
    from it or already carrying [MATCHED_TRANSACTION] makes it return [None]
    with everything as it was; and among candidates that all have a shipment
    date, [tag_as_order] returns [None] without a trace when none qualifies
    (shipped within 3 days and unclaimed) and otherwise claims a qualifying
    candidate whose absolute day difference is the least among the
    qualifying ones, and no other order. *)
Theorem tag_as_order_selects_closest :
  forall (table : string -> option string) (default : string) (fuel : nat)
         (h : Heap) (t : Trans) (matched_orders : list ref)
         (tracking_to_items order_id_to_items : item_index),
    let tag := fun candidates =>
                 tag_as_order table default fuel t candidates
                              tracking_to_items order_id_to_items h in
    (* the departure: a candidate without shipment date *)
    (forall (o : ref) (ord : Order.t),
        nth_error (orders h) o = Some ord ->
        Order.Shipment_Date ord = None ->
        (forall d, ~ order_qualifies (orders h) t o d) /\
        tag [o] = (h, Raise TypeError))
    /\
    (* the boundary, on a lone candidate *)
    (forall (o : ref) (ord : Order.t) (sd : date),
        nth_error (orders h) o = Some ord ->
        Order.Shipment_Date ord = Some sd ->
        let d := Z.abs (Date.days_between (odate t) sd) in
        (d = 3 -> Order.MATCHED_TRANSACTION ord = None ->
         claims_order h (fst (tag [o])) t o) /\
        (d = 4 -> tag [o] = (h, Ok None)) /\
        (Order.MATCHED_TRANSACTION ord <> None -> tag [o] = (h, Ok None)))
    /\
    (* candidates that all have a shipment date *)
    (Forall (fun o => exists d, order_days (orders h) t o = Some d) matched_orders ->
     (* no candidate qualifies: no match *)
     ((forall o d, In o matched_orders -> ~ order_qualifies (orders h) t o d) ->
      tag matched_orders = (h, Ok None)) /\
     (* some candidate qualifies: the closest one is claimed *)
     (forall o d, In o matched_orders -> order_qualifies (orders h) t o d ->
      exists o1 d1,
        In o1 matched_orders /\
        order_qualifies (orders h) t o1 d1 /\
        (forall o' d', In o' matched_orders ->
                       order_qualifies (orders h) t o' d' -> d1 <= d') /\
        closest_order_match t matched_orders h = (h, Ok (Some o1)) /\
        claims_order h (fst (tag matched_orders)) t o1)).
Proof.
  intros table default fuel h t cands tti oti tag. subst tag. cbv beta.
  split; [| split].
  - intros o ord Hnth Hdate. split.
    + intros d (Hd & _). unfold order_days in Hd. rewrite Hnth, Hdate in Hd.
      discriminate Hd.
    + unfold tag_as_order, bind, closest_order_match. cbn [closest_order_loop].
      rewrite Hnth, Hdate. reflexivity.
  - intros o ord sd Hnth Hsd d.
    assert (Hloop : closest_order_match t [o] h
                    = (h, Ok (if (d <? 4) && negb (Order.claimed ord)
                              then Some o else None))).
    { unfold closest_order_match.
      rewrite (closest_order_loop_single (orders h) t o ord sd Hnth Hsd).
      reflexivity. }
    split; [| split].
    + intros H3 Hun. apply tag_as_order_claims_selected.
      apply claimed_false_iff in Hun. rewrite Hun, H3 in Hloop. exact Hloop.
    + intros H4. apply tag_as_order_no_match. rewrite H4 in Hloop. exact Hloop.
    + intros Hcl. apply tag_as_order_no_match.
      assert (E : Order.claimed ord = true).
      { unfold Order.claimed. destruct (Order.MATCHED_TRANSACTION ord); congruence. }
      rewrite E, andb_false_r in Hloop. exact Hloop.
  - intros Hdated.
    destruct (closest_order_loop_spec (orders h) t cands [] None 365 Hdated)
      as (r & cd & Hloop & Hbest).
    { cbn [best_order]. split; [lia |]. intros o d []. }
    cbn [app] in Hbest.
    assert (Hmatch : closest_order_match t cands h = (h, Ok r))
      by (unfold closest_order_match; rewrite Hloop; reflexivity).
    split.
    + intros Hnone. apply tag_as_order_no_match.
      destruct r as [o1 |]; [| exact Hmatch].
      cbn [best_order] in Hbest. destruct Hbest as (Hin & Hq & _).
      exfalso. exact (Hnone _ _ Hin Hq).
    + intros o d Hin Hq.
      destruct r as [o1 |]; cbn [best_order] in Hbest.
      * destruct Hbest as (Hin1 & Hq1 & Hmin).
        exists o1, cd. split; [exact Hin1 |]. split; [exact Hq1 |].
        split; [exact Hmin |]. split; [exact Hmatch |].
        apply tag_as_order_claims_selected. exact Hmatch.
      * destruct Hbest as (_ & Hnone). exfalso. exact (Hnone _ _ Hin Hq).
Qed.

Lemma tag_as_order_selects_closest_witness :
  let h := Sample.heap [] (Sample.shipments ++ [unshipped_order]) [] in
  let t := Sample.debit 1 5000000 1 in
  let tag := fun candidates =>
               tag_as_order Sample.table Sample.default_category 10 t candidates [] [] h in
  tag [3%nat] = (h, Raise TypeError) /\
  claims_order h (fst (tag [0%nat])) t 0%nat /\
  tag [1%nat] = (h, Ok None) /\
  tag [2%nat] = (h, Ok None) /\
  tag [1%nat; 2%nat] = (h, Ok None) /\
  claims_order h (fst (tag [1%nat; 0%nat; 2%nat])) t 0%nat /\
  snd (Sample.run [] [unshipped_order] [] [t] true) = Raise TypeError.
Proof.
  intros h t tag.
  assert (Hdated : forall l, incl l [0%nat; 1%nat; 2%nat] ->
            Forall (fun o => exists d, order_days (orders h) t o = Some d) l).
  { intros l Hl. apply Forall_forall. intros o Ho. apply Hl in Ho.
    destruct Ho as [<- | [<- | [<- | []]]]; eexists; reflexivity. }
  assert (Hq0 : order_qualifies (orders h) t 0%nat 3).
  { split; [reflexivity |]. split; [lia |]. eexists. split; reflexivity. }
  assert (Hq1 : forall d, ~ order_qualifies (orders h) t 1%nat d).
  { intros d (Hd & H3 & _). vm_compute in Hd. injection Hd as <-. lia. }
  assert (Hq2 : forall d, ~ order_qualifies (orders h) t 2%nat d).
  { intros d (_ & _ & (ord & Hnth & Hun)). vm_compute in Hnth.
    injection Hnth as <-. discriminate Hun. }
  destruct (tag_as_order_selects_closest Sample.table Sample.default_category 10
              h t [1%nat; 2%nat] [] []) as (Hundated & Hboundary & Hgeneral).
  destruct (tag_as_order_selects_closest Sample.table Sample.default_category 10
              h t [1%nat; 0%nat; 2%nat] [] []) as (_ & _ & Hgeneral').
  split; [| split; [| split; [| split; [| split; [| split]]]]].
  - apply (Hundated 3%nat unshipped_order); reflexivity.
  - destruct (Hboundary 0%nat _ _ eq_refl eq_refl) as (H3 & _ & _).
    apply H3; reflexivity.
  - destruct (Hboundary 1%nat _ _ eq_refl eq_refl) as (_ & H4 & _).
    apply H4; reflexivity.
  - destruct (Hboundary 2%nat _ _ eq_refl eq_refl) as (_ & _ & Hclaimed).
    apply Hclaimed. discriminate.
  - apply Hgeneral.
    + apply Hdated. intros o [<- | [<- | []]]; simpl; auto.
    + intros o d [<- | [<- | []]]; [apply Hq1 | apply Hq2].
  - destruct Hgeneral' as (_ & Hsome).
    { apply Hdated. intros o [<- | [<- | [<- | []]]]; simpl; auto. }
    destruct (Hsome 0%nat 3 (or_intror (or_introl eq_refl)) Hq0)
      as (o1 & d1 & Hin1 & Hqual & _ & _ & Hclaims).
    destruct Hin1 as [<- | [<- | [<- | []]]].
    + exfalso. exact (Hq1 _ Hqual).
    + exact Hclaims.
    + exfalso. exact (Hq2 _ Hqual).
  - vm_compute. reflexivity.
Defined.





(** ** The groups of the refund index have no repeated member *)

Lemma mm_all_append {K V} (eqb : K -> K -> bool) (P : V -> Prop) (k : K) (v : V)
    (m : multimap K V) :
  P v -> mm_all P m -> mm_all P (mm_append eqb k v m).
Proof.
  intros Hv. unfold mm_all. induction m as [| [k' vs] rest IH]; intros Hm; cbn.
  - constructor; [| constructor]. cbn. constructor; [exact Hv | constructor].
  - inversion Hm as [| ? ? Hvs Hrest]; subst. cbn in Hvs.
    destruct (eqb k k').
    + constructor; [| exact Hrest]. cbn. apply Forall_app. split; [exact Hvs |].
      constructor; [exact Hv | constructor].
    + constructor; [exact Hvs | apply IH; exact Hrest].
Qed.









(** ** Every step of [tag_transactions] respects the claims *)






(** ** What [mm_collect] builds *)

Section Collect.

Variables (K A : Type) (eqb : K -> K -> bool) (key : A -> K).
Hypothesis eqb_eq : forall a b, eqb a b = true <-> a = b.

Lemma eqb_refl_true (a : K) : eqb a a = true.
Proof. apply eqb_eq. reflexivity. Qed.

Lemma mm_append_keys (k : K) (v : A) (m : multimap K A) :
  map fst (mm_append eqb k v m) =
  if existsb (eqb k) (map fst m) then map fst m else (map fst m ++ [k])%list.
Proof.
  induction m as [| [k' vs] rest IH]; cbn; [reflexivity |].
  destruct (eqb k k') eqn:E; cbn; [reflexivity |].
  rewrite IH. destruct (existsb (eqb k) (map fst rest)); reflexivity.
Qed.

(** An entry of [mm_append k v m]: an entry of [m] of another key, the entry
    of [m] of key [k] with [v] appended, or the new entry of [k]. *)
Lemma mm_append_entries (k : K) (v : A) (m : multimap K A) :
  NoDup (map fst m) ->
  forall k' vs',
    In (k', vs') (mm_append eqb k v m) ->
    (In (k', vs') m /\ eqb k k' = false)
    \/ (exists vs, In (k', vs) m /\ k' = k /\ vs' = (vs ++ [v])%list)
    \/ (k' = k /\ vs' = [v] /\ ~ In k (map fst m)).
Proof.
  induction m as [| [k0 vs0] rest IH]; intros Hnd k' vs' Hin; cbn in Hin.
  - destruct Hin as [Hin | []]. injection Hin as <- <-.
    right. right. repeat split. intros [].
  - inversion Hnd as [| ? ? Hk0 Hnd']; subst.
    destruct (eqb k k0) eqn:E.
    + apply eqb_eq in E. subst k0.
      destruct Hin as [Hin | Hin].
      * injection Hin as <- <-. right. left. exists vs0.
        repeat split. left. reflexivity.
      * left. split; [right; exact Hin |].
        destruct (eqb k k') eqn:E'; [| reflexivity].
        apply eqb_eq in E'. subst k'. exfalso. apply Hk0.
        apply in_map_iff. exists (k, vs'). split; [reflexivity | exact Hin].
    + destruct Hin as [Hin | Hin].
      * injection Hin as <- <-. left. split; [left; reflexivity | exact E].
      * destruct (IH Hnd' _ _ Hin) as [[H1 H2] | [(vs & H1 & H2 & H3) | (H1 & H2 & H3)]].
        -- left. split; [right; exact H1 | exact H2].
        -- right. left. exists vs. repeat split; try assumption. right. exact H1.
        -- right. right. repeat split; try assumption.
           intros [Hk | Hk]; [| exact (H3 Hk)].
           cbn in Hk. subst k0. rewrite eqb_refl_true in E. discriminate E.
Qed.

Lemma filter_none {B} (p : B -> bool) (l : list B) :
  (forall y, In y l -> p y = false) -> filter p l = [].
Proof.
  induction l as [| y rest IH]; intros H; cbn; [reflexivity |].
  rewrite (H y (or_introl eq_refl)). apply IH. intros z Hz. apply H. right. exact Hz.
Qed.

Lemma collected_append (x : A) (m : multimap K A) (done : list A) :
  collected eqb key m done ->
  collected eqb key (mm_append eqb (key x) x m) (done ++ [x]).
Proof.
  intros (Hnd & Hcover & Hgroups).
  assert (Hkeys := mm_append_keys (key x) x m).
  assert (Hex : existsb (eqb (key x)) (map fst m) = true <-> In (key x) (map fst m)).
  { rewrite existsb_exists. split.
    - intros (k & Hk & E). apply eqb_eq in E. subst k. exact Hk.
    - intros H. exists (key x). split; [exact H | apply eqb_refl_true]. }
  split; [| split].
  - rewrite Hkeys. destruct (existsb (eqb (key x)) (map fst m)) eqn:E; [exact Hnd |].
    apply NoDup_app_remove_l with (l := []). cbn.
    apply NoDup_Add with (a := key x) (l := map fst m).
    + rewrite <- (app_nil_r (map fst m)) at 1. apply Add_app.
    + split; [exact Hnd |]. intros Hin. apply Hex in Hin. congruence.
  - intros y Hy. rewrite Hkeys. apply in_app_or in Hy.
    destruct (existsb (eqb (key x)) (map fst m)) eqn:E.
    + destruct Hy as [Hy | [<- | []]]; [exact (Hcover y Hy) | apply Hex; reflexivity].
    + apply in_or_app. destruct Hy as [Hy | [<- | []]].
      * left. exact (Hcover y Hy).
      * right. left. reflexivity.
  - apply Forall_forall. intros [k' vs'] Hin. cbn [fst snd].
    rewrite filter_app. cbn [filter].
    rewrite Forall_forall in Hgroups.
    destruct (mm_append_entries (key x) x m Hnd k' vs' Hin)
      as [[H1 H2] | [(vs & H1 & H2 & H3) | (H1 & H2 & H3)]].
    + rewrite H2, app_nil_r. exact (Hgroups _ H1).
    + subst k' vs'. rewrite eqb_refl_true. f_equal. exact (Hgroups _ H1).
    + subst k' vs'. rewrite eqb_refl_true.
      rewrite filter_none; [reflexivity |].
      intros y Hy. destruct (eqb (key y) (key x)) eqn:E; [| reflexivity].
      apply eqb_eq in E. exfalso. apply H3. rewrite <- E. exact (Hcover y Hy).
Qed.

Lemma collected_collect (l : list A) :
  forall (m : multimap K A) (done : list A),
    collected eqb key m done ->
    collected eqb key (mm_collect eqb key (fun x => x) l m) (done ++ l).
Proof.
  unfold mm_collect. induction l as [| x rest IH]; intros m done H; cbn.
  - rewrite app_nil_r. exact H.
  - replace (done ++ x :: rest)%list with ((done ++ [x]) ++ rest)%list
      by (rewrite <- app_assoc; reflexivity).
    apply IH. apply collected_append. exact H.
Qed.

(** Every group of [mm_collect] from the empty map is the list of the
    elements of one key: the key of its first element. *)
Lemma mm_collect_groups (l : list A) :
  Forall (fun g => exists x0, g = filter (fun y => eqb (key y) (key x0)) l)
         (mm_values (mm_collect eqb key (fun x => x) l [])).
Proof.
  destruct (collected_collect l [] []) as (Hnd & Hcover & Hgroups).
  { split; [constructor |]. split; [intros y [] | constructor]. }
  cbn [app] in *. unfold mm_values. apply Forall_map.
  assert (Hkeys : forall kv, In kv (mm_collect eqb key (fun x => x) l []) ->
                             exists x0, In x0 l /\ key x0 = fst kv).
  { clear Hnd Hcover Hgroups.
    assert (G : forall l' m,
               (forall kv, In kv m -> exists x0, In x0 l /\ key x0 = fst kv) ->
               incl l' l ->
               forall kv, In kv (mm_collect eqb key (fun x => x) l' m) ->
                          exists x0, In x0 l /\ key x0 = fst kv).
    { unfold mm_collect. induction l' as [| x rest IH]; intros m Hm Hincl kv Hkv; cbn in Hkv.
      - exact (Hm kv Hkv).
      - apply (IH (mm_append eqb (key x) x m)); [| | exact Hkv].
        + intros kv' Hkv'.
          assert (Hfst : In (fst kv') (map fst (mm_append eqb (key x) x m)))
            by (apply in_map; exact Hkv').
          rewrite mm_append_keys in Hfst.
          destruct (existsb (eqb (key x)) (map fst m)).
          * apply in_map_iff in Hfst. destruct Hfst as (kv0 & E & H0).
            destruct (Hm kv0 H0) as (x0 & Hx0 & Ek). exists x0. split; congruence.
          * apply in_app_or in Hfst. destruct Hfst as [Hfst | [E | []]].
            -- apply in_map_iff in Hfst. destruct Hfst as (kv0 & E & H0).
               destruct (Hm kv0 H0) as (x0 & Hx0 & Ek). exists x0. split; congruence.
            -- exists x. split; [apply Hincl; left; reflexivity | exact E].
        + intros y Hy. apply Hincl. right. exact Hy. }
    apply (G l []); [intros kv [] | apply incl_refl]. }
  apply Forall_forall. intros kv Hkv.
  rewrite Forall_forall in Hgroups. specialize (Hgroups kv Hkv).
  destruct (Hkeys kv Hkv) as (x0 & _ & E).
  exists x0. rewrite E. exact Hgroups.
Qed.

End Collect.

(** ** The same-day key tells order id and day apart *)

Lemma char_in_app (c : ascii) (a b : string) :
  Py.char_in c (a ++ b) = Py.char_in c a || Py.char_in c b.
Proof.
  induction a as [| d a IH]; cbn; [reflexivity |].
  rewrite IH. apply orb_assoc.
Qed.

Lemma string_of_uint_no_underscore (d : Decimal.uint) :
  Py.char_in "_"%char (NilEmpty.string_of_uint d) = false.
Proof. induction d; cbn; try reflexivity; exact IHd. Qed.

Lemma str_int_no_underscore (n : Z) : Py.char_in "_"%char (Py.str_int n) = false.
Proof.
  unfold Py.str_int, NilZero.string_of_int, NilZero.string_of_uint.
  destruct (Z.to_int n) as [d | d]; destruct d; cbn; try reflexivity;
    apply string_of_uint_no_underscore.
Qed.

Lemma zero_pad_no_underscore (w : nat) :
  forall s, Py.char_in "_"%char s = false -> Py.char_in "_"%char (Py.zero_pad w s) = false.
Proof.
  intros s Hs. unfold Py.zero_pad. rewrite char_in_app, Hs.
  induction (w - String.length s)%nat as [| n IH]; [reflexivity | exact IH].
Qed.

Lemma format_opt_no_underscore (d : option date) :
  Py.char_in "_"%char (Date.format_opt d) = false.
Proof.
  destruct d as [d |]; [| reflexivity].
  unfold Date.format_opt, Date.isoformat.
  rewrite !char_in_app.
  rewrite !zero_pad_no_underscore by apply str_int_no_underscore.
  reflexivity.
Qed.

Lemma underscore_split (a a' b b' : string) :
  Py.char_in "_"%char b = false ->
  Py.char_in "_"%char b' = false ->
  (a ++ "_" ++ b)%string = (a' ++ "_" ++ b')%string ->
  a = a' /\ b = b'.
Proof.
  intros Hb Hb'. revert a'.
  induction a as [| c a IH]; intros [| c' a'] H; cbn in H.
  - injection H as H. split; [reflexivity | exact H].
  - injection H as Hc H. subst c'. rewrite H, char_in_app in Hb. cbn in Hb.
    rewrite orb_true_r in Hb. discriminate Hb.
  - injection H as Hc H. subst c. rewrite <- H, char_in_app in Hb'. cbn in Hb'.
    rewrite orb_true_r in Hb'. discriminate Hb'.
  - injection H as Hc H. subst c'. destruct (IH a' H) as [-> ->].
    split; reflexivity.
Qed.

Lemma same_day_key_eqb (r1 r2 : Refund.t) :
  String.eqb (same_day_key r1) (same_day_key r2) =
  String.eqb (Refund.Order_ID r1) (Refund.Order_ID r2)
  && String.eqb (Date.format_opt (Refund.Refund_Date r1))
                (Date.format_opt (Refund.Refund_Date r2)).
Proof.
  unfold same_day_key.
  destruct (String.eqb (Refund.Order_ID r1 ++ "_" ++ _) _) eqn:E.
  - apply String.eqb_eq in E.
    apply underscore_split in E; try apply format_opt_no_underscore.
    destruct E as [-> ->]. rewrite !String.eqb_refl. reflexivity.
  - symmetry. apply andb_false_iff.
    destruct (String.eqb (Refund.Order_ID r1) (Refund.Order_ID r2)) eqn:E1;
      [| left; reflexivity].
    destruct (String.eqb (Date.format_opt (Refund.Refund_Date r1)) _) eqn:E2;
      [| right; reflexivity].
    apply String.eqb_eq in E1, E2. rewrite E1, E2, String.eqb_refl in E.
    discriminate E.
Qed.

(** ** The three sources of the refund index *)

Lemma mm_all2_append {K V} (eqb : K -> K -> bool) (P : K -> V -> Prop) (k : K) (v : V)
    (m : multimap K V) :
  (forall a b, eqb a b = true -> a = b) ->
  P k v -> mm_all2 P m -> mm_all2 P (mm_append eqb k v m).
Proof.
  intros Heqb Hv. unfold mm_all2.
  induction m as [| [k' vs] rest IH]; intros Hm; cbn.
  - constructor; [| constructor]. cbn. constructor; [exact Hv | constructor].
  - inversion Hm as [| ? ? Hvs Hrest]; subst. cbn in Hvs.
    destruct (eqb k k') eqn:E.
    + apply Heqb in E. subst k'.
      constructor; [| exact Hrest]. cbn. apply Forall_app. split; [exact Hvs |].
      constructor; [exact Hv | constructor].
    + constructor; [exact Hvs | apply IH; exact Hrest].
Qed.

Lemma mm_all2_In {K V} (P : K -> V -> Prop) (m : multimap K V) (k : K) (vs : list V)
    (v : V) :
  mm_all2 P m -> In (k, vs) m -> In v vs -> P k v.
Proof.
  unfold mm_all2. rewrite Forall_forall. intros Hm Hkv Hv.
  specialize (Hm _ Hkv). rewrite Forall_forall in Hm. exact (Hm v Hv).
Qed.

Lemma Z_eqb_true (a b : Z) : (a =? b) = true -> a = b.
Proof. apply Z.eqb_eq. Qed.

Lemma build_amount_to_refunds_sources (refunds : list Refund.t) :
  mm_all2 (refund_group_source refunds) (build_amount_to_refunds refunds).
Proof.
  unfold build_amount_to_refunds.
  set (rs := enumerate refunds).
  (* the same-day groups *)
  assert (Hday := mm_collect_groups string (ref * Refund.t) String.eqb
                    (fun r : ref * Refund.t => same_day_key (snd r))
                    String.eqb_eq rs).
  revert Hday. generalize (mm_values (mm_collect String.eqb
                 (fun r : ref * Refund.t => same_day_key (snd r)) (fun r => r) rs [])).
  intros by_day Hday.
  (* the groups of an order *)
  assert (Horder := mm_collect_groups string (ref * Refund.t) String.eqb
                      (fun r : ref * Refund.t => Refund.Order_ID (snd r))
                      String.eqb_eq rs).
  revert Horder. generalize (mm_values (mm_collect String.eqb
                   (fun r : ref * Refund.t => Refund.Order_ID (snd r)) (fun r => r) rs [])).
  intros by_order Horder.
  (* the singletons *)
  assert (Hsingle : mm_all2 (refund_group_source refunds)
            (mm_collect Z.eqb (fun r : ref * Refund.t => Refund.Total_Refund_Amount (snd r))
                        (fun r => [fst r]) rs [])).
  { assert (G : forall l m, incl l rs ->
                  mm_all2 (refund_group_source refunds) m ->
                  mm_all2 (refund_group_source refunds)
                    (mm_collect Z.eqb
                       (fun r : ref * Refund.t => Refund.Total_Refund_Amount (snd r))
                       (fun r => [fst r]) l m)).
    { unfold mm_collect. induction l as [| x rest IH]; intros m Hincl Hm; cbn.
      - exact Hm.
      - apply IH; [intros y Hy; apply Hincl; right; exact Hy |].
        apply mm_all2_append; [exact Z_eqb_true | | exact Hm].
        left. exists x. split; [apply Hincl; left; reflexivity |].
        split; reflexivity. }
    apply G; [apply incl_refl | constructor]. }
  revert Hsingle. generalize (mm_collect Z.eqb
                    (fun r : ref * Refund.t => Refund.Total_Refund_Amount (snd r))
                    (fun r => [fst r]) rs []).
  intros m Hm.
  assert (Hwith_orders : mm_all2 (refund_group_source refunds)
                                 (add_order_groups by_order m)).
  { clear Hday. revert m Hm. unfold add_order_groups.
    induction by_order as [| g rest IH]; intros m Hm; cbn; [exact Hm |].
    inversion Horder as [| ? ? (x0 & Hg) Hrest]; subst.
    apply IH; [exact Hrest |].
    destruct (_ =? 1)%nat eqn:E1; [exact Hm |].
    destruct (_ <=? 1)%nat eqn:E2; [exact Hm |].
    apply mm_all2_append; [exact Z_eqb_true | | exact Hm].
    right. left. exists (Refund.Order_ID (snd x0)). fold rs. cbn zeta.
    apply Nat.eqb_neq in E1. apply Nat.leb_gt in E2.
    repeat split; assumption. }
  revert Hwith_orders. generalize (add_order_groups by_order m). clear m Hm.
  intros m Hm. unfold add_same_day_groups.
  revert m Hm. induction by_day as [| g rest IH]; intros m Hm; cbn; [exact Hm |].
  inversion Hday as [| ? ? (x0 & Hg) Hrest]; subst.
  apply IH; [exact Hrest |].
  destruct (_ =? 1)%nat eqn:E1; [exact Hm |].
  apply mm_all2_append; [exact Z_eqb_true | | exact Hm].
  right. right.
  exists (Refund.Order_ID (snd x0)), (Date.format_opt (Refund.Refund_Date (snd x0))).
  fold rs. cbn zeta.
  rewrite <- (filter_ext _ _ (fun r => same_day_key_eqb (snd r) (snd x0)) rs).
  apply Nat.eqb_neq in E1. repeat split; assumption.
Qed.






(** ** What [collapse_items_into_quantity] does on rows that agree *)

Lemma collect_one_key {K A} (eqb : K -> K -> bool) (key : A -> K) (k : K) :
  eqb k k = true ->
  forall (l vs : list A),
    (forall x, In x l -> key x = k) ->
    mm_collect eqb key (fun x => x) l [(k, vs)] = [(k, (vs ++ l)%list)].
Proof.
  intros Hrefl. unfold mm_collect.
  induction l as [| x rest IH]; intros vs Hl; cbn.
  - rewrite app_nil_r. reflexivity.
  - rewrite (Hl x (or_introl eq_refl)), Hrefl.
    rewrite IH; [| intros y Hy; apply Hl; right; exact Hy].
    rewrite <- app_assoc. reflexivity.
Qed.

(** N > 1 rows that agree on refund date, reason, title, total refund
    amount, item id and quantity are replaced by one row: the first one with
    quantity N and each amount multiplied by N. *)
Lemma collapse_agreeing_rows (first : Refund.t) (rest : list Refund.t) :
  rest <> [] ->
  (forall r, In r rest ->
     Refund.Refund_Date r = Refund.Refund_Date first /\
     Refund.Refund_Reason r = Refund.Refund_Reason first /\
     Refund.Title r = Refund.Title first /\
     Refund.Total_Refund_Amount r = Refund.Total_Refund_Amount first /\
     Refund.ASIN_ISBN r = Refund.ASIN_ISBN first /\
     Refund.Quantity r = Refund.Quantity first) ->
  let n := Z.of_nat (List.length (first :: rest)) in
  exists row,
    collapse_items_into_quantity (first :: rest) = [row] /\
    Refund.Quantity row = n /\
    Refund.Total_Refund_Amount row = Refund.Total_Refund_Amount first * n /\
    Refund.Refund_Amount row = Refund.Refund_Amount first * n /\
    Refund.Refund_Tax_Amount row = Refund.Refund_Tax_Amount first * n /\
    Refund.Title row = Refund.Title first.
Proof.
  intros Hne Hagree n. exists (collapsed_row first n).
  split; [| repeat split].
  unfold collapse_items_into_quantity.
  destruct rest as [| r1 rest']; [congruence |].
  cbn [List.length Nat.leb].
  change (mm_collect String.eqb collapse_key (fun i => i) (first :: r1 :: rest') [])
    with (mm_collect String.eqb collapse_key (fun i => i) (r1 :: rest')
                     [(collapse_key first, [first])]).
  rewrite (collect_one_key String.eqb collapse_key (collapse_key first)
             (String.eqb_refl _)).
  - reflexivity.
  - intros r Hr. destruct (Hagree r Hr) as (E1 & E2 & E3 & E4 & E5 & E6).
    unfold collapse_key. rewrite E1, E2, E3, E4, E5, E6. reflexivity.
Qed.

(** A row whose key no other row has is returned as it is; so is a list of
    at most one row. *)
Lemma collapse_keeps_row_of_unique_key (rows : list Refund.t) (r : Refund.t) :
  In r rows ->
  filter (fun y => String.eqb (collapse_key y) (collapse_key r)) rows = [r] ->
  In r (collapse_items_into_quantity rows).
Proof.
  intros Hin Hunique. unfold collapse_items_into_quantity.
  destruct (List.length rows <=? 1)%nat; [exact Hin |].
  destruct (collected_collect string Refund.t String.eqb collapse_key String.eqb_eq
              rows [] []) as (_ & Hcover & Hgroups).
  { split; [constructor |]. split; [intros y [] | constructor]. }
  cbn [app] in *.
  specialize (Hcover r Hin). apply in_map_iff in Hcover.
  destruct Hcover as ([k vs] & Hk & Hkv). cbn in Hk. subst k.
  rewrite Forall_forall in Hgroups. specialize (Hgroups _ Hkv). cbn in Hgroups.
  rewrite Hunique in Hgroups. subst vs.
  apply in_flat_map. exists [r]. split.
  - unfold mm_values. apply in_map_iff. exists (collapse_key r, [r]).
    split; [reflexivity | exact Hkv].
  - left. reflexivity.
Qed.

Lemma collapse_short_list (rows : list Refund.t) :
  (List.length rows <= 1)%nat -> collapse_items_into_quantity rows = rows.
Proof.
  intros H. unfold collapse_items_into_quantity.
  apply Nat.leb_le in H. rewrite H. reflexivity.
Qed.

(** ** Which way [reconcile] goes *)

Lemma mapM_get_item_heap {B} (f : Item.t -> B) (its : list ref) (h : Heap) :
  fst (mapM (fun i => it <- get_item i ;; ret (f it)) its h) = h.
Proof.
  induction its as [| i rest IH]; cbn [mapM]; [reflexivity |].
  unfold bind at 1. unfold bind at 1. unfold get_item at 1.
  destruct (deref (items h) i) as [it | e |]; cbn [fst ret]; try reflexivity.
  unfold bind. destruct (mapM _ rest h) as [h1 [ys | e |]] eqn:E;
    cbn [fst] in *; subst; reflexivity.
Qed.

Lemma sum_subtotal_taxes_heap (its : list ref) (h : Heap) :
  fst (sum_subtotal_taxes its h) = h.
Proof.
  unfold sum_subtotal_taxes, bind.
  pose proof (mapM_get_item_heap Item.Item_Subtotal_Tax its h) as H.
  destruct (mapM _ its h) as [h1 [vs | e |]]; cbn [fst] in *; subst; reflexivity.
Qed.

(** The three cases of [reconcile], for items whose taxes sum to
    [itemized_tax]: nothing to do within the tolerance; one 'Misc Charge'
    line of the whole difference when the difference is above the tax
    difference by the tolerance or more; the tax redistribution in every
    other case, however far below the tax difference the difference is. *)
Lemma reconcile_cases (default : string) (fuel : nat) (t : Trans) (order : Order.t)
    (its : list ref) (new_transactions : list Trans) (h : Heap) (itemized_tax : Q) :
  snd (sum_subtotal_taxes its h) = Ok itemized_tax ->
  let itemized_diff := (amount t - sum_amounts new_transactions)%Q in
  let tax_diff := (inject_Z (Order.Tax_Before_Promotions order) - itemized_tax)%Q in
  ((Qabs itemized_diff <= MICRO_USD_EPS)%Q ->
   reconcile default fuel t order its new_transactions h = (h, Ok new_transactions))
  /\
  ((MICRO_USD_EPS < Qabs itemized_diff)%Q ->
   (MICRO_USD_EPS <= itemized_diff - tax_diff)%Q ->
   reconcile default fuel t order its new_transactions h =
   (fst (stats_incr "misc_charge" h),
    Ok (new_transactions ++ [misc_charge_line default t order itemized_diff])%list))
  /\
  ((MICRO_USD_EPS < Qabs itemized_diff)%Q ->
   (itemized_diff - tax_diff < MICRO_USD_EPS)%Q ->
   reconcile default fuel t order its new_transactions h =
   (stats_incr "items_tax_adjust" ;;
    tax_rate_per_item <- mapM item_tax_rate its ;;
    redistribute_tax fuel its tax_diff tax_rate_per_item new_transactions) h).
Proof.
  intros Htax itemized_diff tax_diff.
  assert (Hsum : sum_subtotal_taxes its h = (h, Ok itemized_tax)).
  { pose proof (sum_subtotal_taxes_heap its h) as Hh.
    destruct (sum_subtotal_taxes its h) as [h1 o]. cbn in *. congruence. }
  unfold reconcile. fold itemized_diff.
  split; [| split].
  - intros Hle. destruct (Qlt_le_dec MICRO_USD_EPS (Qabs itemized_diff)) as [Hlt | _].
    + exfalso. exact (Qlt_not_le _ _ Hlt Hle).
    + reflexivity.
  - intros Hlt Hge.
    destruct (Qlt_le_dec MICRO_USD_EPS (Qabs itemized_diff)) as [_ | Hle];
      [| exfalso; exact (Qlt_not_le _ _ Hlt Hle)].
    rewrite (bind_ok _ _ h h itemized_tax Hsum). fold tax_diff.
    destruct (Qlt_le_dec (itemized_diff - tax_diff) MICRO_USD_EPS) as [Hlt' | _].
    + exfalso. exact (Qlt_not_le _ _ Hlt' Hge).
    + reflexivity.
  - intros Hlt Hbelow.
    destruct (Qlt_le_dec MICRO_USD_EPS (Qabs itemized_diff)) as [_ | Hle];
      [| exfalso; exact (Qlt_not_le _ _ Hlt Hle)].
    rewrite (bind_ok _ _ h h itemized_tax Hsum). fold tax_diff.
    destruct (Qlt_le_dec (itemized_diff - tax_diff) MICRO_USD_EPS) as [_ | Hge].
    + reflexivity.
    + exfalso. exact (Qlt_not_le _ _ Hbelow Hge).
Qed.

(** ** Which Item records a match leaves alone *)

Lemma counter_get_set_same (key : string) (v : Z) (c : Counter) :
  counter_get key (counter_set key v c) = v.
Proof.
  induction c as [| [k w] rest IH]; cbn.
  - rewrite String.eqb_refl. reflexivity.
  - destruct (String.eqb key k) eqn:E; cbn; rewrite E; [reflexivity | exact IH].
Qed.

Lemma counter_get_set_other (key key' : string) (v : Z) (c : Counter) :
  String.eqb key key' = false ->
  counter_get key (counter_set key' v c) = counter_get key c.
Proof.
  intros Hne. induction c as [| [k w] rest IH]; cbn.
  - rewrite Hne. reflexivity.
  - destruct (String.eqb key' k) eqn:E; cbn.
    + apply String.eqb_eq in E. subst k. rewrite Hne. reflexivity.
    + destruct (String.eqb key k); [reflexivity | exact IH].
Qed.

Lemma length_update {A} (n : nat) (v : A) (l : list A) :
  List.length (update n v l) = List.length l.
Proof.
  revert n. induction l as [| x rest IH]; intros [| n]; cbn; try reflexivity.
  rewrite IH. reflexivity.
Qed.

Lemma items_kept_refl (n : nat) (h : Heap) :
  (n <= List.length (items h))%nat -> items_kept n h h.
Proof. intros H. split; [exact H | reflexivity]. Qed.

Lemma items_kept_trans (n : nat) (h1 h2 h3 : Heap) :
  items_kept n h1 h2 -> items_kept n h2 h3 -> items_kept n h1 h3.
Proof.
  intros [L12 K12] [L23 K23]. split; [exact L23 |].
  intros r Hr. rewrite K23, K12 by exact Hr. reflexivity.
Qed.

Lemma tidy_same (n : nat) (h h' : Heap) :
  items h' = items h -> tax_adjust_count h' = tax_adjust_count h ->
  (n <= List.length (items h))%nat ->
  items_kept n h h' /\ tax_adjust_count h' = tax_adjust_count h.
Proof.
  intros Hi Hc Hn. split; [| exact Hc]. split; rewrite Hi; [exact Hn | reflexivity].
Qed.

Lemma tidy_at_bind {A B} (n : nat) (c : M A) (k : A -> M B) (h : Heap) :
  tidy_at n c h ->
  (forall h1 a, (n <= List.length (items h))%nat -> c h = (h1, Ok a) ->
                tidy_at n (k a) h1) ->
  tidy_at n (bind c k) h.
Proof.
  unfold tidy_at, bind. intros Hc Hk Hn. specialize (Hc Hn).
  destruct (c h) as [h1 [a | e |]]; cbn [fst] in *; try exact Hc.
  destruct Hc as [Hkept Hcount].
  destruct (Hk h1 a Hn eq_refl (proj1 Hkept)) as [Hkept' Hcount'].
  split; [exact (items_kept_trans _ _ _ _ Hkept Hkept') | congruence].
Qed.

Lemma tidy_bind {A B} (n : nat) (c : M A) (k : A -> M B) :
  tidy n c -> (forall a, tidy n (k a)) -> tidy n (bind c k).
Proof.
  intros Hc Hk h. apply tidy_at_bind; [apply Hc |]. intros h1 a _ _. apply Hk.
Qed.

Lemma tidy_unless_taxed_at_bind {A B} (n : nat) (c : M A) (k : A -> M B) (h : Heap) :
  tidy_at n c h ->
  (forall h1 a, (n <= List.length (items h))%nat -> c h = (h1, Ok a) ->
                tidy_unless_taxed_at n (k a) h1) ->
  tidy_unless_taxed_at n (bind c k) h.
Proof.
  unfold tidy_at, tidy_unless_taxed_at, bind. intros Hc Hk Hn. specialize (Hc Hn).
  destruct (c h) as [h1 [a | e |]]; cbn [fst] in *; try (left; exact Hc).
  destruct Hc as [Hkept Hcount].
  destruct (Hk h1 a Hn eq_refl (proj1 Hkept)) as [[Hkept' Hcount'] | Htaxed].
  - left. split; [exact (items_kept_trans _ _ _ _ Hkept Hkept') | congruence].
  - right. congruence.
Qed.

Lemma tidy_ret {A} (n : nat) (a : A) : tidy n (ret a).
Proof. intros h Hn. apply tidy_same; [reflexivity | reflexivity | exact Hn]. Qed.

Lemma tidy_raise {A} (n : nat) (e : exn) : tidy n (@raise A e).
Proof. intros h Hn. apply tidy_same; [reflexivity | reflexivity | exact Hn]. Qed.

Lemma tidy_lift {A} (n : nat) (o : outcome A) : tidy n (lift o).
Proof. intros h Hn. apply tidy_same; [reflexivity | reflexivity | exact Hn]. Qed.

Lemma tidy_assert (n : nat) (b : bool) : tidy n (assert b).
Proof. destruct b; [apply tidy_ret | apply tidy_raise]. Qed.

Lemma tidy_get_item (n : nat) (r : ref) : tidy n (get_item r).
Proof. intros h Hn. apply tidy_same; [reflexivity | reflexivity | exact Hn]. Qed.

Lemma tidy_get_order (n : nat) (r : ref) : tidy n (get_order r).
Proof. intros h Hn. apply tidy_same; [reflexivity | reflexivity | exact Hn]. Qed.

Lemma tidy_stats_incr (n : nat) (key : string) :
  String.eqb "items_tax_adjust" key = false -> tidy n (stats_incr key).
Proof.
  intros Hkey h Hn. apply tidy_same; [reflexivity | | exact Hn].
  unfold tax_adjust_count. cbn. apply counter_get_set_other. exact Hkey.
Qed.

Lemma tidy_set_item (n : nat) (r : ref) (v : Item.t) :
  (n <= r)%nat -> tidy n (set_item r v).
Proof.
  intros Hr h Hn. split; [| reflexivity]. unfold items_kept. cbn. split.
  - rewrite length_update. exact Hn.
  - intros r' Hr'. apply nth_error_update_neq. lia.
Qed.

Lemma tidy_mapM {A B} (n : nat) (f : A -> M B) (l : list A) :
  (forall a, tidy n (f a)) -> tidy n (mapM f l).
Proof.
  intros Hf. induction l as [| x rest IH]; cbn [mapM].
  - apply tidy_ret.
  - apply tidy_bind; [apply Hf |]. intros y.
    apply tidy_bind; [exact IH |]. intros ys. apply tidy_ret.
Qed.

Create HintDb tidy.

#[local] Hint Resolve tidy_ret tidy_raise tidy_lift tidy_assert tidy_get_item
  tidy_get_order tidy_set_item : tidy.

Ltac tidy_step :=
  match goal with
  | |- tidy _ (bind _ _) => apply tidy_bind; [| intros ?]
  | |- tidy _ (mapM _ _) => apply tidy_mapM; intros ?
  | |- tidy _ (stats_incr _) => apply tidy_stats_incr; reflexivity
  | |- tidy _ (match ?x with _ => _ end) => destruct x
  | |- tidy _ (if ?b then _ else _) => destruct b
  | |- tidy _ _ => solve [auto with tidy]
  end.

Ltac tidy_tac := repeat tidy_step.

(** [copy.deepcopy] of an Item leaves every record in place and returns a
    new address. *)
Lemma deepcopy_item_fresh (n : nat) (r : ref) (h h1 : Heap) (r' : ref) :
  (n <= List.length (items h))%nat ->
  deepcopy_item r h = (h1, Ok r') ->
  (n <= r')%nat.
Proof.
  unfold deepcopy_item, bind, get_item. intros Hn H.
  destruct (deref (items h) r); try discriminate H.
  injection H as _ <-. exact Hn.
Qed.

Lemma tidy_deepcopy_item (n : nat) (r : ref) : tidy n (deepcopy_item r).
Proof.
  intros h Hn. unfold deepcopy_item, bind, get_item.
  destruct (deref (items h) r) as [i | e |]; cbn [fst];
    try (apply tidy_same; [reflexivity | reflexivity | exact Hn]).
  split; [| reflexivity]. unfold items_kept. cbn. split.
  - rewrite length_app. lia.
  - intros r' Hr'. apply nth_error_app1. lia.
Qed.

#[local] Hint Resolve tidy_deepcopy_item : tidy.

Lemma tidy_adjust_amazon_item_quantity (n : nat) (item : ref) (new_quantity : Z) :
  (n <= item)%nat -> tidy n (adjust_amazon_item_quantity item new_quantity).
Proof. intros Hitem. unfold adjust_amazon_item_quantity. tidy_tac. Qed.

Lemma tidy_absorb_cent_diff (n : nat) (order : Order.t) (item : ref) :
  (n <= item)%nat -> tidy n (absorb_cent_diff order item).
Proof. intros Hitem. unfold absorb_cent_diff. tidy_tac. Qed.

#[local] Hint Resolve tidy_adjust_amazon_item_quantity tidy_absorb_cent_diff : tidy.

Lemma tidy_unit_price_loop (n : nat) (order : Order.t) (candidates : list ref) :
  tidy n (unit_price_loop order candidates).
Proof.
  induction candidates as [| i rest IH]; cbn [unit_price_loop]; [apply tidy_ret |].
  apply tidy_bind; [apply tidy_get_item |]. intros it.
  destruct (_ =? _); [| exact IH].
  intros h. apply tidy_at_bind; [apply tidy_deepcopy_item |].
  intros h1 item Hn Hcopy.
  pose proof (deepcopy_item_fresh n i h h1 item Hn Hcopy) as Hfresh.
  revert h1 Hcopy. intros h1 _. revert h1.
  change (tidy n (adjust_amazon_item_quantity item 1 ;;
                  absorb_cent_diff order item ;;
                  stats_incr "quanity_adjust" ;;
                  ret (Some item))).
  tidy_tac.
Qed.

Lemma tidy_items_of_order (n : nat) (order_id : string) (l : list ref) :
  tidy n (items_of_order order_id l).
Proof. induction l as [| i rest IH]; cbn [items_of_order]; tidy_tac. Qed.

Lemma tidy_assert_order_id (n : nat) (order_id : string) (its : list ref) :
  tidy n (assert_order_id order_id its).
Proof. induction its as [| i rest IH]; cbn [assert_order_id]; tidy_tac. Qed.

Lemma tidy_quantity_loop (n : nat) (order : Order.t) (item : ref) (per_unit : Z)
    (range : list Z) :
  (n <= item)%nat -> tidy n (quantity_loop order item per_unit range).
Proof.
  intros Hitem. induction range as [| i rest IH]; cbn [quantity_loop]; tidy_tac.
Qed.

#[local] Hint Resolve tidy_unit_price_loop tidy_items_of_order tidy_assert_order_id
  tidy_quantity_loop : tidy.

Lemma tidy_resolve_items (n : nat) (order : Order.t) (tti oti : item_index) :
  tidy n (resolve_items order tti oti).
Proof. unfold resolve_items. tidy_tac. Qed.

Lemma tidy_sort_by_total (n : nat) (its : list ref) : tidy n (sort_by_total its).
Proof. unfold sort_by_total. tidy_tac. Qed.

Lemma tidy_sum_subtotals (n : nat) (its : list ref) : tidy n (sum_subtotals its).
Proof. unfold sum_subtotals. tidy_tac. Qed.

Lemma tidy_sum_subtotal_taxes (n : nat) (its : list ref) :
  tidy n (sum_subtotal_taxes its).
Proof. unfold sum_subtotal_taxes. tidy_tac. Qed.

#[local] Hint Resolve tidy_resolve_items tidy_sort_by_total tidy_sum_subtotals
  tidy_sum_subtotal_taxes : tidy.

Lemma tidy_fix_subtotal_mismatch (n : nat) (order : Order.t) (its : list ref) :
  tidy n (fix_subtotal_mismatch order its).
Proof.
  unfold fix_subtotal_mismatch.
  apply tidy_bind; [apply tidy_sum_subtotals |]. intros items_sum.
  destruct (Qlt_le_dec _ _); [| apply tidy_ret].
  destruct its as [| i0 [| i1 rest]]; try solve [tidy_tac].
  intros h. apply tidy_at_bind; [apply tidy_deepcopy_item |].
  intros h1 item Hn Hcopy.
  pose proof (deepcopy_item_fresh n i0 h h1 item Hn Hcopy) as Hfresh.
  revert h1 Hcopy. intros h1 _. revert h1.
  change (tidy n (it <- get_item item ;;
                  found_quantity <-
                    quantity_loop order item (Item.Purchase_Price_Per_Unit it)
                                  (Py.range (Item.Quantity it)) ;;
                  if found_quantity then ret (Some [item]) else ret None)).
  tidy_tac.
Qed.

Lemma tidy_synthesize (n : nat) (table : string -> option string) (default : string)
    (t : Trans) (order : Order.t) (its : list ref) :
  tidy n (synthesize table default t order its).
Proof. unfold synthesize, itemize_line_items, shipping_line. tidy_tac. Qed.

#[local] Hint Resolve tidy_fix_subtotal_mismatch tidy_synthesize : tidy.

Lemma tidy_claim_order (n : nat) (o : ref) (t : Trans) : tidy n (claim_order o t).
Proof.
  intros h Hn. unfold claim_order, bind, get_order.
  destruct (deref (orders h) o); cbn [fst];
    apply tidy_same; try reflexivity; exact Hn.
Qed.

Lemma tidy_closest_order_match (n : nat) (t : Trans) (cands : list ref) :
  tidy n (closest_order_match t cands).
Proof. intros h Hn. apply tidy_same; [reflexivity | reflexivity | exact Hn]. Qed.

#[local] Hint Resolve tidy_claim_order tidy_closest_order_match : tidy.

Lemma keeps_stats_bind {A B} (c : M A) (k : A -> M B) :
  keeps_stats c -> (forall a, keeps_stats (k a)) -> keeps_stats (bind c k).
Proof.
  intros Hc Hk h. unfold bind. specialize (Hc h).
  destruct (c h) as [h1 [a | e |]]; cbn [fst] in *; try exact Hc.
  rewrite (Hk a h1). exact Hc.
Qed.

Lemma keeps_stats_mapM {A B} (f : A -> M B) (l : list A) :
  (forall a, keeps_stats (f a)) -> keeps_stats (mapM f l).
Proof.
  intros Hf. induction l as [| x rest IH]; cbn [mapM]; [intros h; reflexivity |].
  apply keeps_stats_bind; [apply Hf |]. intros y.
  apply keeps_stats_bind; [exact IH |]. intros ys h. reflexivity.
Qed.

Lemma keeps_stats_item_tax_rate (i : ref) : keeps_stats (item_tax_rate i).
Proof.
  unfold item_tax_rate. apply keeps_stats_bind; [intros h; reflexivity |].
  intros it. destruct (_ =? _); intros h; reflexivity.
Qed.

Lemma keeps_stats_move_cent (its : list ref) (idx : nat) (d : Q) (rates : list Q)
    (new_transactions : list Trans) :
  keeps_stats (move_cent its idx d rates new_transactions).
Proof.
  unfold move_cent. destruct (nth_error its idx) as [i |]; [| intros h; reflexivity].
  apply keeps_stats_bind; [intros h; reflexivity |]. intros it.
  apply keeps_stats_bind; [intros h; reflexivity |]. intros [].
  apply keeps_stats_bind; [intros h; reflexivity |]. intros nts.
  apply keeps_stats_bind; [apply keeps_stats_item_tax_rate |]. intros rate h.
  reflexivity.
Qed.

Lemma keeps_stats_redistribute_tax (fuel : nat) :
  forall (its : list ref) (tax_diff : Q) (rates : list Q) (new_transactions : list Trans),
    keeps_stats (redistribute_tax fuel its tax_diff rates new_transactions).
Proof.
  induction fuel as [| fuel IH]; intros its tax_diff rates nts;
    cbn [redistribute_tax];
    destruct (Qlt_le_dec MICRO_USD_EPS (Qabs tax_diff)); try (intros h; reflexivity).
  destruct (Qlt_le_dec 0 tax_diff).
  - destruct (min_rate_loop _ _ _ _); [| intros h; reflexivity].
    apply keeps_stats_bind; [apply keeps_stats_move_cent |]. intros st. apply IH.
  - destruct (max_rate_loop _ _ _); [| intros h; reflexivity].
    apply keeps_stats_bind; [apply keeps_stats_move_cent |]. intros st. apply IH.
Qed.

Lemma tidy_unless_taxed_reconcile (n : nat) (default : string) (fuel : nat) (t : Trans)
    (order : Order.t) (its : list ref) (new_transactions : list Trans) (h : Heap) :
  tidy_unless_taxed_at n (reconcile default fuel t order its new_transactions) h.
Proof.
  unfold reconcile.
  destruct (Qlt_le_dec MICRO_USD_EPS _); [| intros Hn; left; apply tidy_ret; exact Hn].
  apply tidy_unless_taxed_at_bind; [apply tidy_sum_subtotal_taxes |].
  intros h1 itemized_tax _ _.
  destruct (Qlt_le_dec _ MICRO_USD_EPS).
  - intros _. right. unfold bind at 1. cbn [stats_incr].
    match goal with
    | |- tax_adjust_count (fst (?c ?h2)) = _ =>
        assert (Hstats : stats (fst (c h2)) = stats h2)
    end.
    { apply (keeps_stats_bind (mapM item_tax_rate its)).
      - apply keeps_stats_mapM. apply keeps_stats_item_tax_rate.
      - intros rates. apply keeps_stats_redistribute_tax. }
    unfold tax_adjust_count. rewrite Hstats. cbn [stats].
    apply counter_get_set_same.
  - intros Hn. left. revert Hn.
    change (tidy_at n (stats_incr "misc_charge" ;;
                       ret (new_transactions
                            ++ [misc_charge_line default t order
                                  (amount t - sum_amounts new_transactions)%Q])%list) h1).
    revert h1. change (tidy n (stats_incr "misc_charge" ;;
                       ret (new_transactions
                            ++ [misc_charge_line default t order
                                  (amount t - sum_amounts new_transactions)%Q])%list)).
    tidy_tac.
Qed.

Lemma bind_ret_heap {A B} (c : M A) (f : A -> B) (h : Heap) :
  fst ((x <- c ;; ret (f x)) h) = fst (c h).
Proof. unfold bind. destruct (c h) as [h1 [a | e |]]; reflexivity. Qed.

(** Unless the tax redistribution is entered (which [items_tax_adjust]
    counts), [tag_as_order] leaves every Item record that existed before the
    call as it was: the quantity adjustments of both paths, and the
    absorption of a difference below one cent that follows them, operate on
    the deep copies. *)
Theorem tag_as_order_keeps_items_unless_taxed :
  forall (table : string -> option string) (default : string) (fuel : nat)
         (t : Trans) (matched_orders : list ref)
         (tracking_to_items order_id_to_items : item_index) (h : Heap),
    let h' := fst (tag_as_order table default fuel t matched_orders
                                tracking_to_items order_id_to_items h) in
    tax_adjust_count h' = tax_adjust_count h ->
    forall r, (r < List.length (items h))%nat ->
              nth_error (items h') r = nth_error (items h) r.
Proof.
  intros table default fuel t cands tti oti h h' Hcount r Hr.
  assert (H : tidy_unless_taxed_at (List.length (items h))
                (tag_as_order table default fuel t cands tti oti) h).
  { unfold tag_as_order. generalize (List.length (items h)). intros n. clear.
    apply tidy_unless_taxed_at_bind; [apply tidy_closest_order_match |].
    intros h1 [o |] _ _; [| intros Hn; left; apply tidy_ret; exact Hn].
    apply tidy_unless_taxed_at_bind; [apply tidy_stats_incr; reflexivity |].
    intros h2 [] _ _.
    apply tidy_unless_taxed_at_bind; [apply tidy_claim_order |]. intros h3 [] _ _.
    apply tidy_unless_taxed_at_bind; [apply tidy_get_order |]. intros h4 order _ _.
    apply tidy_unless_taxed_at_bind; [apply tidy_resolve_items |].
    intros h5 [its |] _ _; [| intros Hn; left; apply tidy_ret; exact Hn].
    apply tidy_unless_taxed_at_bind; [apply tidy_assert_order_id |]. intros h6 [] _ _.
    apply tidy_unless_taxed_at_bind; [apply tidy_sort_by_total |]. intros h7 its7 _ _.
    apply tidy_unless_taxed_at_bind; [apply tidy_fix_subtotal_mismatch |].
    intros h8 [its8 |] _ _; [| intros Hn; left; apply tidy_ret; exact Hn].
    apply tidy_unless_taxed_at_bind; [apply tidy_synthesize |]. intros h9 nts _ _.
    unfold tidy_unless_taxed_at. rewrite bind_ret_heap.
    apply tidy_unless_taxed_reconcile. }
  destruct (H (Nat.le_refl _)) as [[[_ Hkept] _] | Htaxed].
  - apply Hkept. exact Hr.
  - fold h' in Htaxed. lia.
Qed.

Lemma tag_as_order_keeps_items_unless_taxed_witness :
  let h := Sample.heap Sample.slice_items Sample.slice_orders [] in
  let h' := fst (tag_as_order Sample.table Sample.default_category 10
                              (Sample.debit 1 2200000 1) [0%nat]
                              (build_tracking_to_items Sample.slice_items)
                              (build_order_id_to_items Sample.slice_items) h) in
  nth_error (items h') 0 = nth_error Sample.slice_items 0.
Proof.
  intros h h'.
  apply (tag_as_order_keeps_items_unless_taxed Sample.table Sample.default_category 10
           (Sample.debit 1 2200000 1) [0%nat]
           (build_tracking_to_items Sample.slice_items)
           (build_order_id_to_items Sample.slice_items) h).
  - reflexivity.
  - cbn. lia.
Defined.

(* ================================================================= *)
(** * Further properties of the code *)

(** ** Sums of amounts *)

Lemma fold_left_Qplus (l : list Q) (a : Q) : (fold_left Qplus l a == a + Py.sumQ l)%Q.
Proof.
  unfold Py.sumQ. revert a. induction l as [| x rest IH]; intros a; cbn.
  - ring.
  - rewrite (IH (a + x)%Q), (IH (0 + x)%Q). ring.
Qed.

Lemma sumQ_cons (x : Q) (l : list Q) : (Py.sumQ (x :: l) == x + Py.sumQ l)%Q.
Proof.
  unfold Py.sumQ at 1. cbn. rewrite fold_left_Qplus. ring.
Qed.

Lemma sumQ_app (a b : list Q) : (Py.sumQ (a ++ b) == Py.sumQ a + Py.sumQ b)%Q.
Proof.
  induction a as [| x rest IH]; cbn [app].
  - unfold Py.sumQ at 2. cbn. ring.
  - rewrite !sumQ_cons, IH. ring.
Qed.

Lemma sumQ_rev (l : list Q) : (Py.sumQ (rev l) == Py.sumQ l)%Q.
Proof.
  induction l as [| x rest IH]; cbn [rev]; [reflexivity |].
  rewrite sumQ_app, !sumQ_cons, IH. unfold Py.sumQ at 2. cbn. ring.
Qed.

Lemma sum_amounts_cons (t : Trans) (l : list Trans) :
  (sum_amounts (t :: l) == amount t + sum_amounts l)%Q.
Proof. unfold sum_amounts. cbn [map]. apply sumQ_cons. Qed.

Lemma sum_amounts_app (a b : list Trans) :
  (sum_amounts (a ++ b) == sum_amounts a + sum_amounts b)%Q.
Proof. unfold sum_amounts. rewrite map_app. apply sumQ_app. Qed.

Lemma sum_amounts_nil : (sum_amounts [] == 0)%Q.
Proof. reflexivity. Qed.

(** ** [unsplit_transactions] *)

Lemma mm_sum_append {K} (eqb : K -> K -> bool) (k : K) (v : Trans)
    (m : multimap K Trans) :
  (mm_sum (mm_append eqb k v m) == amount v + mm_sum m)%Q.
Proof.
  unfold mm_sum. induction m as [| [k' vs] rest IH]; cbn [mm_append map snd].
  - rewrite !sumQ_cons, sum_amounts_cons, sum_amounts_nil. ring.
  - destruct (eqb k k'); cbn [map snd].
    + rewrite !sumQ_cons, sum_amounts_app, sum_amounts_cons, sum_amounts_nil. ring.
    + rewrite !sumQ_cons, IH. ring.
Qed.

Lemma mm_append_nonempty {K V} (eqb : K -> K -> bool) (k : K) (v : V)
    (m : multimap K V) :
  Forall (fun kv => snd kv <> []) m ->
  Forall (fun kv => snd kv <> []) (mm_append eqb k v m).
Proof.
  induction m as [| [k' vs] rest IH]; intros Hm; cbn.
  - constructor; [discriminate | constructor].
  - inversion Hm as [| ? ? Hvs Hrest]; subst.
    destruct (eqb k k'); constructor; try assumption.
    + cbn. intros H. apply app_eq_nil in H. destruct H as [_ H]. discriminate H.
    + apply IH. exact Hrest.
Qed.

Lemma split_children_spec (trans : list Trans) :
  forall (m : multimap Z Trans) (result : list Trans),
    Forall (fun kv => snd kv <> []) m ->
    Forall (fun t => isChild t = false) result ->
    if existsb orphan trans
    then split_children trans m result = Raise KeyError
    else exists m' result',
        split_children trans m result = Ok (m', result') /\
        Forall (fun kv => snd kv <> []) m' /\
        Forall (fun t => isChild t = false) result' /\
        (sum_amounts result' + mm_sum m'
         == sum_amounts result + mm_sum m + sum_amounts trans)%Q.
Proof.
  induction trans as [| t rest IH]; intros m result Hm Hres; cbn [existsb split_children].
  - exists m, result. repeat split; try assumption. rewrite sum_amounts_nil. ring.
  - unfold orphan at 1. destruct (isChild t) eqn:Hchild; cbn [andb].
    + destruct (pid t) as [p |]; cbn [orb]; [| reflexivity].
      specialize (IH (mm_append Z.eqb p t m) result
                     (mm_append_nonempty Z.eqb p t m Hm) Hres).
      destruct (existsb orphan rest); [exact IH |].
      destruct IH as (m' & result' & Hsplit & Hm' & Hres' & Hsum).
      exists m', result'. repeat split; try assumption.
      rewrite Hsum, mm_sum_append, sum_amounts_cons. ring.
    + cbn [orb].
      assert (Hres1 : Forall (fun t => isChild t = false) (result ++ [t])).
      { apply Forall_app. split; [exact Hres |]. constructor; [exact Hchild | constructor]. }
      specialize (IH m (result ++ [t])%list Hm Hres1).
      destruct (existsb orphan rest); [exact IH |].
      destruct IH as (m' & result' & Hsplit & Hm' & Hres' & Hsum).
      exists m', result'. repeat split; try assumption.
      rewrite Hsum, sum_amounts_app, !sum_amounts_cons, sum_amounts_nil. ring.
Qed.

Lemma make_parents_spec (groups : multimap Z Trans) :
  Forall (fun kv => snd kv <> []) groups ->
  exists parents,
    make_parents groups = Ok parents /\
    Forall (fun t => isChild t = false) parents /\
    (sum_amounts parents == mm_sum groups)%Q.
Proof.
  induction groups as [| [p_id children] rest IH]; intros Hne.
  - exists []. repeat split. constructor.
  - inversion Hne as [| ? ? Hch Hrest]; subst. cbn in Hch.
    destruct (IH Hrest) as (ps & Hps & Hno & Hsum).
    destruct children as [| first others]; [congruence |].
    cbn [make_parents make_parent]. rewrite Hps.
    eexists. split; [reflexivity |]. split.
    + constructor; [reflexivity | exact Hno].
    + rewrite sum_amounts_cons. unfold mm_sum. cbn [map snd amount].
      rewrite sumQ_cons. fold (mm_sum rest). rewrite Hsum. reflexivity.
Qed.

(** X1.  [unsplit_transactions] fails only with [KeyError], and exactly when
    some child transaction has no [pid]; otherwise it returns transactions
    none of which is a child and whose amounts sum to the sum of the amounts
    it was given: the children are replaced by parents of the same total. *)
Theorem unsplit_transactions_conserves_amounts :
  forall trans : list Trans,
    if existsb orphan trans
    then unsplit_transactions trans = Raise KeyError
    else exists result,
        unsplit_transactions trans = Ok result /\
        Forall (fun t => isChild t = false) result /\
        (sum_amounts result == sum_amounts trans)%Q.
Proof.
  intros trans. unfold unsplit_transactions.
  pose proof (split_children_spec trans [] [] (Forall_nil _) (Forall_nil _)) as H.
  destruct (existsb orphan trans); [rewrite H; reflexivity |].
  destruct H as (m & result & Hsplit & Hm & Hres & Hsum).
  rewrite Hsplit.
  destruct (make_parents_spec m Hm) as (parents & Hparents & Hno & Hpsum).
  rewrite Hparents. exists (result ++ parents)%list.
  split; [reflexivity |]. split.
  - apply Forall_app. split; assumption.
  - rewrite sum_amounts_app, Hpsum.
    rewrite Hsum. unfold mm_sum. cbn. rewrite sum_amounts_nil. ring.
Qed.

(** ** Which transactions [tag_transactions] tags *)

Lemma split_children_taggable (trans : list Trans) :
  forall (m m' : multimap Z Trans) (result result' : list Trans),
    Forall taggable trans ->
    mm_all taggable m -> Forall taggable result ->
    split_children trans m result = Ok (m', result') ->
    mm_all taggable m' /\ Forall taggable result'.
Proof.
  induction trans as [| t rest IH]; intros m m' result result' Htrans Hm Hres H;
    cbn [split_children] in H.
  - injection H as <- <-. split; assumption.
  - inversion Htrans as [| ? ? Ht Hrest]; subst.
    destruct (isChild t).
    + destruct (pid t) as [p |]; [| discriminate H].
      apply (IH _ _ _ _ Hrest) in H; [exact H | | exact Hres].
      apply mm_all_append; assumption.
    + apply (IH _ _ _ _ Hrest) in H; [exact H | exact Hm |].
      apply Forall_app. split; [exact Hres |]. constructor; [exact Ht | constructor].
Qed.

Lemma make_parents_taggable (groups : multimap Z Trans) :
  forall parents,
    mm_all taggable groups ->
    make_parents groups = Ok parents ->
    Forall taggable parents.
Proof.
  induction groups as [| [p_id children] rest IH]; intros parents Hg H;
    cbn [make_parents] in H.
  - injection H as <-. constructor.
  - inversion Hg as [| ? ? Hch Hrest]; subst. cbn [snd] in Hch.
    destruct children as [| first others]; [discriminate H |].
    cbn [make_parent] in H.
    destruct (make_parents rest) as [ps | e |] eqn:Hps; try discriminate H.
    injection H as <-. inversion Hch as [| ? ? Hfirst _]; subst.
    constructor; [exact Hfirst | exact (IH ps Hrest eq_refl)].
Qed.

Lemma unsplit_transactions_taggable (trans result : list Trans) :
  Forall taggable trans ->
  unsplit_transactions trans = Ok result ->
  Forall taggable result.
Proof.
  unfold unsplit_transactions. intros Htrans H.
  destruct (split_children trans [] []) as [[m res] | e |] eqn:Hsplit; try discriminate H.
  destruct (split_children_taggable trans [] m [] res Htrans (Forall_nil _)
              (Forall_nil _) Hsplit) as [Hm Hres].
  destruct (make_parents m) as [ps | e |] eqn:Hps; try discriminate H.
  injection H as <-. apply Forall_app. split; [exact Hres |].
  exact (make_parents_taggable m ps Hm Hps).
Qed.

Lemma tag_one_original (table : string -> option string)
    (default default_return : string) (fuel : nat) (itemize : bool)
    (prefix : bool -> string) (amount_to_orders : multimap Z ref)
    (tti oti : item_index) (amount_to_refunds : multimap Z (list ref))
    (t : Trans) (h h' : Heap) (p : Trans * list Trans) :
  tag_one table default default_return fuel itemize prefix amount_to_orders
          tti oti amount_to_refunds t h = (h', Ok (Some p)) ->
  fst p = t.
Proof.
  unfold tag_one. intros H.
  apply bind_ok_inv in H. destruct H as (h1 & new_trans & _ & H).
  destruct new_trans as [[| nt rest] |]; try discriminate H.
  apply bind_ok_inv in H. destruct H as (h2 & tagged & _ & H).
  injection H as _ <-. reflexivity.
Qed.

Lemma tag_loop_originals (step : Trans -> M (option (Trans * list Trans))) :
  (forall t h h' p, step t h = (h', Ok (Some p)) -> fst p = t) ->
  forall (trans : list Trans) (acc result : list (Trans * list Trans)) (h h' : Heap),
    tag_loop step trans acc h = (h', Ok result) ->
    forall p, In p result -> In p acc \/ In (fst p) trans.
Proof.
  intros Hstep. induction trans as [| t rest IH]; intros acc result h h' H p Hp;
    cbn [tag_loop] in H.
  - injection H as _ <-. left. exact Hp.
  - apply bind_ok_inv in H. destruct H as (h1 & r & Hr & H).
    destruct (IH _ _ _ _ H p Hp) as [Hin | Hin].
    + apply in_app_or in Hin. destruct Hin as [Hin | Hin]; [left; exact Hin |].
      destruct r as [q |]; [| destruct Hin].
      destruct Hin as [<- | []]. right. left. symmetry. exact (Hstep _ _ _ _ Hr).
    + right. right. exact Hin.
Qed.

(** X2.  [tag_transactions] only tags transactions that have 'amazon' in
    their original description and are not pending: every original
    transaction of its result (a transaction of the input, or the parent
    reconstituted from children of the input) is such a transaction. *)
Theorem tag_transactions_skips_pending_and_foreign :
  forall (table : string -> option string) (default default_return : string)
         (fuel : nat) (trans : list Trans) (itemize : bool)
         (prefix : bool -> string) (h h' : Heap)
         (result : list (Trans * list Trans)),
    tag_transactions table default default_return fuel trans itemize prefix h
    = (h', Ok result) ->
    forall t new_trans, In (t, new_trans) result -> taggable t.
Proof.
  intros table default default_return fuel trans itemize prefix h h' result H t nt Hin.
  unfold tag_transactions in H.
  apply bind_ok_inv in H. destruct H as (h1 & [] & _ & H).
  apply bind_ok_inv in H. destruct H as (h2 & [] & _ & H).
  apply bind_ok_inv in H. destruct H as (h3 & unsplit & Hunsplit & H).
  unfold lift in Hunsplit. injection Hunsplit as _ Hunsplit.
  apply unsplit_transactions_taggable in Hunsplit.
  - pose proof (tag_loop_originals _
                  (fun t h h' p => tag_one_original table default default_return fuel
                                     itemize prefix _ _ _ _ t h h' p)
                  _ _ _ _ _ H (t, nt) Hin) as [[] | Hsrc].
    rewrite Forall_forall in Hunsplit. exact (Hunsplit t Hsrc).
  - apply Forall_forall. intros x Hx.
    apply filter_In in Hx. destruct Hx as [Hx Hpend].
    apply filter_In in Hx. destruct Hx as [_ Hama].
    split; [exact Hama |]. apply negb_true_iff. exact Hpend.
Qed.

Lemma tag_transactions_skips_pending_and_foreign_witness :
  taggable (Sample.debit 1 5000000 1).
Proof.
  refine (tag_transactions_skips_pending_and_foreign Sample.table
            Sample.default_category Sample.default_return_category 10
            [Sample.debit 1 5000000 1] true Sample.prefix
            (Sample.heap [Sample.item "O1" "UPS(1)" "Atlas" 1 4500000 500000]
                         [Sample.order "O1" "UPS(1)" 2 4500000 500000 5000000] [])
            _ _ _ (Sample.debit 1 5000000 1) _ _).
  - vm_compute. reflexivity.
  - left. reflexivity.
Defined.

(** ** [itemize_new_trans] *)




(** ** The order of the items: [sorted(..., reverse=True)] *)

Section SortedDesc.

Variables (A : Type) (key : A -> Q).

Lemma insert_desc_perm (x : A) (l : list A) : Permutation (x :: l) (insert_desc key x l).
Proof.
  induction l as [| y rest IH]; cbn; [reflexivity |].
  destruct (Qlt_le_dec (key x) (key y)); [| reflexivity].
  rewrite perm_swap. apply perm_skip. exact IH.
Qed.

Lemma sorted_desc_perm (l : list A) : Permutation l (sorted_desc key l).
Proof.
  unfold sorted_desc. induction l as [| x rest IH]; cbn; [reflexivity |].
  rewrite <- insert_desc_perm. apply perm_skip. exact IH.
Qed.

Lemma insert_desc_sorted (x : A) (l : list A) :
  StronglySorted (fun a b => (key b <= key a)%Q) l ->
  StronglySorted (fun a b => (key b <= key a)%Q) (insert_desc key x l).
Proof.
  induction l as [| y rest IH]; intros Hs; cbn.
  - constructor; constructor.
  - inversion Hs as [| ? ? Hrest Hy]; subst.
    destruct (Qlt_le_dec (key x) (key y)) as [Hlt | Hle].
    + constructor; [apply IH; exact Hrest |].
      apply Forall_forall. intros z Hz.
      apply (Permutation_in _ (Permutation_sym (insert_desc_perm x rest))) in Hz.
      destruct Hz as [<- | Hz]; [apply Qlt_le_weak; exact Hlt |].
      rewrite Forall_forall in Hy. exact (Hy z Hz).
    + constructor; [exact Hs |].
      constructor; [exact Hle |].
      apply Forall_forall. intros z Hz. rewrite Forall_forall in Hy.
      apply Qle_trans with (y := key y); [exact (Hy z Hz) | exact Hle].
Qed.

Lemma sorted_desc_sorted (l : list A) :
  StronglySorted (fun a b => (key b <= key a)%Q) (sorted_desc key l).
Proof.
  unfold sorted_desc. induction l as [| x rest IH]; cbn; [constructor |].
  apply insert_desc_sorted. exact IH.
Qed.

(** Stability: the elements of one key keep their order. *)
Lemma insert_desc_stable (k : Q) (x : A) (l : list A) :
  filter (fun a => Qeq_bool (key a) k) (insert_desc key x l)
  = filter (fun a => Qeq_bool (key a) k) (x :: l).
Proof.
  induction l as [| y rest IH]; cbn [insert_desc]; [reflexivity |].
  destruct (Qlt_le_dec (key x) (key y)) as [Hlt | Hle]; [| reflexivity].
  cbn [filter] in *. rewrite IH.
  destruct (Qeq_bool (key x) k) eqn:Ex; [| reflexivity].
  destruct (Qeq_bool (key y) k) eqn:Ey; [| reflexivity].
  apply Qeq_bool_iff in Ex, Ey. exfalso.
  rewrite Ex, Ey in Hlt. exact (Qlt_irrefl _ Hlt).
Qed.

Lemma sorted_desc_stable (k : Q) (l : list A) :
  filter (fun a => Qeq_bool (key a) k) (sorted_desc key l)
  = filter (fun a => Qeq_bool (key a) k) l.
Proof.
  unfold sorted_desc. induction l as [| x rest IH]; cbn [fold_right]; [reflexivity |].
  rewrite insert_desc_stable. cbn [filter]. rewrite IH. reflexivity.
Qed.

End SortedDesc.

(** Reading every item of a list of addresses: the heap is left alone and
    each value comes from the record at its address. *)
Lemma mapM_get_item_ok {B} (g : ref -> Item.t -> B) (its : list ref) :
  forall (h h' : Heap) (l : list B),
    mapM (fun i => it <- get_item i ;; ret (g i it)) its h = (h', Ok l) ->
    h' = h /\
    Forall2 (fun i y => exists it, nth_error (items h) i = Some it /\ y = g i it) its l.
Proof.
  induction its as [| i rest IH]; intros h h' l H; cbn [mapM] in H.
  - injection H as <- <-. split; [reflexivity | constructor].
  - apply bind_ok_inv in H. destruct H as (h1 & y & Hy & H).
    apply bind_ok_inv in Hy. destruct Hy as (h0 & it & Hit & Hy).
    unfold get_item, deref in Hit.
    destruct (nth_error (items h) i) as [it0 |] eqn:Hnth; [| discriminate Hit].
    injection Hit as <- <-. injection Hy as <- <-.
    apply bind_ok_inv in H. destruct H as (h2 & ys & Hys & H).
    apply IH in Hys. destruct Hys as [-> Hall]. injection H as <- <-.
    split; [reflexivity |]. constructor; [| exact Hall].
    exists it0. split; [exact Hnth | reflexivity].
Qed.

(** X4.  The sort of [tag_as_order] only reads: when it succeeds the heap is
    as before, the items are the same ones in another order, of decreasing
    ['Item Total'], and items of equal total keep the order they had (the
    sort is stable, as [sorted(..., reverse=True)] is). *)
Theorem sort_by_total_sorts :
  forall (its sorted : list ref) (h h' : Heap),
    sort_by_total its h = (h', Ok sorted) ->
    h' = h /\
    Permutation its sorted /\
    StronglySorted (fun a b => (item_total_at h b <= item_total_at h a)%Q) sorted /\
    forall k : Q,
      filter (fun r => Qeq_bool (item_total_at h r) k) sorted
      = filter (fun r => Qeq_bool (item_total_at h r) k) its.
Proof.
  intros its sorted h h' H. unfold sort_by_total in H.
  apply bind_ok_inv in H. destruct H as (h1 & keyed & Hkeyed & H).
  apply (mapM_get_item_ok (fun i it => (i, Item.Item_Total it))) in Hkeyed.
  destruct Hkeyed as [-> Hall]. injection H as <- <-.
  assert (Hk : keyed = map (fun r => (r, item_total_at h r)) its).
  { clear - Hall. induction Hall as [| i y its' l (it & Hnth & ->) _ IH]; cbn.
    - reflexivity.
    - unfold item_total_at at 1. rewrite Hnth, <- IH. reflexivity. }
  assert (Hsnd : forall p, In p keyed -> snd p = item_total_at h (fst p)).
  { intros p Hp. rewrite Hk in Hp. apply in_map_iff in Hp.
    destruct Hp as (r & <- & _). reflexivity. }
  assert (Hits : its = map fst keyed).
  { rewrite Hk, map_map. cbn. symmetry. apply map_id. }
  assert (Hperm := sorted_desc_perm _ snd keyed).
  assert (Hsnd' : forall p, In p (sorted_desc snd keyed) ->
                            snd p = item_total_at h (fst p)).
  { intros p Hp. apply Hsnd.
    exact (Permutation_in _ (Permutation_sym Hperm) Hp). }
  split; [reflexivity |]. split; [| split].
  - rewrite Hits. apply Permutation_map. exact Hperm.
  - pose proof (sorted_desc_sorted _ snd keyed) as Hs.
    revert Hs Hsnd'. generalize (sorted_desc snd keyed). intros l Hs Hl.
    induction Hs as [| p l' Hs IH Hp]; cbn; [constructor |].
    constructor.
    + apply IH. intros q Hq. apply Hl. right. exact Hq.
    + apply Forall_forall. intros r Hr. apply in_map_iff in Hr.
      destruct Hr as (q & <- & Hq). rewrite Forall_forall in Hp.
      rewrite <- (Hl q (or_intror Hq)), <- (Hl p (or_introl eq_refl)).
      exact (Hp q Hq).
  - intros k.
    assert (Hf : forall l, (forall p, In p l -> snd p = item_total_at h (fst p)) ->
               filter (fun r => Qeq_bool (item_total_at h r) k) (map fst l)
               = map fst (filter (fun p => Qeq_bool (snd p) k) l)).
    { induction l as [| p l IH]; intros Hl; cbn; [reflexivity |].
      rewrite <- (Hl p (or_introl eq_refl)).
      rewrite IH by (intros q Hq; apply Hl; right; exact Hq).
      destruct (Qeq_bool (snd p) k); reflexivity. }
    rewrite Hits, !Hf by assumption.
    rewrite (sorted_desc_stable _ snd k keyed). reflexivity.
Qed.

Lemma sort_by_total_sorts_witness :
  Permutation [0%nat; 1%nat; 2%nat] [1%nat; 0%nat; 2%nat].
Proof.
  refine (proj1 (proj2 (sort_by_total_sorts [0%nat; 1%nat; 2%nat] [1%nat; 0%nat; 2%nat]
            (Sample.heap [Sample.item "O1" "T" "a" 1 1000000 0;
                          Sample.item "O1" "T" "b" 1 3000000 0;
                          Sample.item "O1" "T" "c" 1 1000000 0] [] [])
            _ _))).
  vm_compute. reflexivity.
Defined.

(** ** The item sub-totals after the fix-up *)

Lemma within_dollar_eps (d : Z) :
  (Qabs (inject_Z d) <= DOLLAR_EPS)%Q -> d = 0.
Proof.
  unfold Qle, DOLLAR_EPS, inject_Z. cbn. lia.
Qed.

Lemma adjust_amazon_item_quantity_ok (item : ref) (new_quantity : Z) (h h' : Heap) :
  adjust_amazon_item_quantity item new_quantity h = (h', Ok tt) ->
  exists it it',
    nth_error (items h) item = Some it /\
    nth_error (items h') item = Some it' /\
    0 < new_quantity <= Item.Quantity it /\
    Item.Purchase_Price_Per_Unit it * Item.Quantity it = Item.Item_Subtotal it /\
    Item.Quantity it' = new_quantity /\
    Item.Purchase_Price_Per_Unit it' = Item.Purchase_Price_Per_Unit it /\
    Item.Item_Subtotal it' = Item.Purchase_Price_Per_Unit it * new_quantity /\
    Item.Item_Subtotal_Tax it'
    = (Item.Item_Subtotal_Tax it / inject_Z (Item.Quantity it) * inject_Z new_quantity)%Q /\
    Item.Item_Total it'
    = (inject_Z (Item.Item_Subtotal it') + Item.Item_Subtotal_Tax it')%Q /\
    Item.ORIGINAL_QUANTITY_IN_ORDER it' = Some (Item.Quantity it).
Proof.
  unfold adjust_amazon_item_quantity. intros H.
  apply bind_ok_inv in H. destruct H as (h0 & it & Hit & H).
  unfold get_item, deref in Hit.
  destruct (nth_error (items h) item) as [it0 |] eqn:Hnth; [| discriminate Hit].
  injection Hit as <- <-.
  apply bind_ok_inv in H. destruct H as (h1 & [] & H1 & H).
  apply bind_ok_inv in H. destruct H as (h2 & [] & H2 & H).
  apply bind_ok_inv in H. destruct H as (h3 & [] & H3 & H).
  unfold assert in H1, H2, H3.
  destruct (0 <? new_quantity) eqn:E1; [| discriminate H1].
  destruct (new_quantity <=? Item.Quantity it0) eqn:E2; [| discriminate H2].
  destruct (_ =? Item.Item_Subtotal it0) eqn:E3; [| discriminate H3].
  injection H1 as <-. injection H2 as <-. injection H3 as <-.
  unfold set_item in H. injection H as <-.
  apply Z.ltb_lt in E1. apply Z.leb_le in E2. apply Z.eqb_eq in E3.
  eexists it0, _. split; [reflexivity |]. split.
  { cbn. exact (nth_error_update_eq _ _ _ it0 Hnth). }
  cbn. repeat split; try assumption; reflexivity.
Qed.

Lemma absorb_cent_diff_ok (order : Order.t) (item : ref) (h h' : Heap) (it : Item.t) :
  absorb_cent_diff order item h = (h', Ok tt) ->
  nth_error (items h) item = Some it ->
  exists it',
    nth_error (items h') item = Some it' /\
    Item.Item_Subtotal it' = Item.Item_Subtotal it /\
    Item.Quantity it' = Item.Quantity it /\
    Item.Purchase_Price_Per_Unit it' = Item.Purchase_Price_Per_Unit it /\
    Item.ORIGINAL_QUANTITY_IN_ORDER it' = Item.ORIGINAL_QUANTITY_IN_ORDER it.
Proof.
  unfold absorb_cent_diff. intros H Hnth.
  apply bind_ok_inv in H. destruct H as (h0 & it0 & Hit & H).
  unfold get_item, deref in Hit. rewrite Hnth in Hit. injection Hit as <- <-.
  destruct (_ && _).
  - unfold set_item in H. injection H as <-. eexists. split.
    + cbn. exact (nth_error_update_eq _ _ _ it Hnth).
    + repeat split.
  - injection H as <-. exists it. repeat split. exact Hnth.
Qed.

Lemma quantity_loop_ok (order : Order.t) (item : ref) (per_unit : Z) (range : list Z) :
  forall (h h' : Heap) (it : Item.t),
    quantity_loop order item per_unit range h = (h', Ok true) ->
    nth_error (items h) item = Some it ->
    Item.Purchase_Price_Per_Unit it = per_unit ->
    exists it' i,
      In i range /\
      nth_error (items h') item = Some it' /\
      Item.Quantity it' = i /\
      Item.Item_Subtotal it' = Order.Subtotal order /\
      0 < i <= Item.Quantity it /\
      Item.Purchase_Price_Per_Unit it' * i = Item.Item_Subtotal it' /\
      Item.ORIGINAL_QUANTITY_IN_ORDER it' = Some (Item.Quantity it).
Proof.
  induction range as [| i rest IH]; intros h h' it H Hnth Hppu; cbn [quantity_loop] in H.
  - discriminate H.
  - destruct (per_unit * i =? Order.Subtotal order) eqn:E.
    + apply Z.eqb_eq in E.
      apply bind_ok_inv in H. destruct H as (h1 & [] & Hadj & H).
      apply bind_ok_inv in H. destruct H as (h2 & [] & Habs & H).
      injection H as <-.
      apply adjust_amazon_item_quantity_ok in Hadj.
      destruct Hadj as (it0 & it1 & Hnth0 & Hnth1 & Hrange & _ & Hq & Hp & Hsub
                        & _ & _ & Horig).
      rewrite Hnth in Hnth0. injection Hnth0 as <-.
      destruct (absorb_cent_diff_ok order item h1 h2 it1 Habs Hnth1)
        as (it2 & Hnth2 & Hsub2 & Hq2 & Hp2 & Horig2).
      exists it2, i. split; [left; reflexivity |]. split; [exact Hnth2 |].
      split; [congruence |].
      split; [rewrite Hsub2, Hsub, Hppu; exact E |].
      split; [exact Hrange |].
      split; [rewrite Hsub2, Hsub, Hp2, Hp; reflexivity | congruence].
    + destruct (IH h h' it H Hnth Hppu) as (it' & j & Hj & Hrest).
      exists it', j. split; [right; exact Hj | exact Hrest].
Qed.

(** X5.  Whenever [tag_as_order] goes on after the sub-total check, the
    sub-totals of the items it goes on with add up to the sub-total of the
    order exactly: either they did, or the single item was copied and the
    copy was given a quantity below its own for which they do. *)
Theorem fix_subtotal_mismatch_balances :
  forall (order : Order.t) (its its' : list ref) (h h' : Heap),
    fix_subtotal_mismatch order its h = (h', Ok (Some its')) ->
    sum_subtotals its' h' = (h', Ok (Order.Subtotal order)).
Proof.
  intros order its its' h h' H. unfold fix_subtotal_mismatch in H.
  apply bind_ok_inv in H. destruct H as (h1 & items_sum & Hsum & H).
  assert (Hh1 : h1 = h).
  { unfold sum_subtotals in Hsum.
    apply bind_ok_inv in Hsum. destruct Hsum as (h2 & vs & Hvs & Hret).
    apply (mapM_get_item_ok (fun _ it => Item.Item_Subtotal it)) in Hvs.
    destruct Hvs as [-> _]. injection Hret as <- _. reflexivity. }
  subst h1.
  destruct (Qlt_le_dec DOLLAR_EPS _) as [_ | Hle].
  - destruct its as [| i0 [| i1 rest]]; try discriminate H.
    apply bind_ok_inv in H. destruct H as (h1 & item & Hcopy & H).
    apply bind_ok_inv in H. destruct H as (h2 & it & Hit & H).
    unfold get_item, deref in Hit.
    destruct (nth_error (items h1) item) as [it1 |] eqn:Hnth; [| discriminate Hit].
    injection Hit as <- <-.
    apply bind_ok_inv in H. destruct H as (h3 & found & Hloop & H).
    destruct found; [| discriminate H]. injection H as <- <-.
    destruct (quantity_loop_ok order item _ _ h1 h3 it1 Hloop Hnth eq_refl)
      as (it' & i & _ & Hnth' & _ & Hsub & _).
    unfold sum_subtotals, bind, mapM, bind, get_item, deref. rewrite Hnth'.
    cbn. rewrite Hsub. reflexivity.
  - injection H as <- <-. apply within_dollar_eps in Hle.
    rewrite Hsum. f_equal. f_equal. lia.
Qed.

Lemma fix_subtotal_mismatch_balances_witness :
  let h := Sample.heap Sample.slice_items Sample.slice_orders [] in
  exists h',
    sum_subtotals [1%nat] h' = (h', Ok 2000000).
Proof.
  intros h. eexists.
  refine (fix_subtotal_mismatch_balances (Sample.order "O3" "UPS(3)" 2 2000000 200000 2200000)
            [0%nat] [1%nat] h _ _).
  vm_compute. reflexivity.
Defined.

Lemma deepcopy_item_ok (r item : ref) (h h1 : Heap) :
  deepcopy_item r h = (h1, Ok item) ->
  exists it,
    nth_error (items h) r = Some it /\
    item = List.length (items h) /\
    nth_error (items h1) item = Some it.
Proof.
  unfold deepcopy_item, bind, get_item, deref. intros H.
  destruct (nth_error (items h) r) as [it |] eqn:Hnth; [| discriminate H].
  injection H as <- <-. exists it. split; [reflexivity |]. split; [reflexivity |].
  cbn. rewrite nth_error_app2 by lia. rewrite Nat.sub_diag. reflexivity.
Qed.

(** X6.  When the sub-total check of [tag_as_order] is passed with a single
    item, either nothing was touched, or the item was copied to a new
    address and the copy alone was adjusted: its quantity is at least 1 and
    below the quantity of the item, its sub-total is unit price times
    quantity, it records the quantity it was copied with, and the item
    itself is as it was. *)
Theorem quantity_fix_adjusts_a_copy :
  forall (order : Order.t) (i0 : ref) (its' : list ref) (h h' : Heap),
    fix_subtotal_mismatch order [i0] h = (h', Ok (Some its')) ->
    (its' = [i0] /\ h' = h)
    \/
    (exists it0 it',
        its' = [List.length (items h)] /\
        nth_error (items h) i0 = Some it0 /\
        nth_error (items h') i0 = Some it0 /\
        nth_error (items h') (List.length (items h)) = Some it' /\
        0 < Item.Quantity it' < Item.Quantity it0 /\
        Item.Purchase_Price_Per_Unit it' * Item.Quantity it' = Item.Item_Subtotal it' /\
        Item.ORIGINAL_QUANTITY_IN_ORDER it' = Some (Item.Quantity it0)).
Proof.
  intros order i0 its' h h' H.
  pose proof (tidy_fix_subtotal_mismatch (List.length (items h)) order [i0] h
                (Nat.le_refl _)) as [[_ Hkept] _].
  rewrite H in Hkept. cbn [fst] in Hkept.
  unfold fix_subtotal_mismatch in H.
  apply bind_ok_inv in H. destruct H as (h1 & items_sum & Hsum & H).
  assert (Hh1 : h1 = h).
  { unfold sum_subtotals in Hsum.
    apply bind_ok_inv in Hsum. destruct Hsum as (h2 & vs & Hvs & Hret).
    apply (mapM_get_item_ok (fun _ it => Item.Item_Subtotal it)) in Hvs.
    destruct Hvs as [-> _]. injection Hret as <- _. reflexivity. }
  subst h1.
  destruct (Qlt_le_dec DOLLAR_EPS _) as [_ | _].
  - right.
    apply bind_ok_inv in H. destruct H as (h1 & item & Hcopy & H).
    apply deepcopy_item_ok in Hcopy. destruct Hcopy as (it0 & Hnth0 & -> & Hnth1).
    apply bind_ok_inv in H. destruct H as (h2 & it & Hit & H).
    unfold get_item, deref in Hit. rewrite Hnth1 in Hit. injection Hit as <- <-.
    apply bind_ok_inv in H. destruct H as (h3 & found & Hloop & H).
    destruct found; [| discriminate H]. injection H as <- <-.
    destruct (quantity_loop_ok order _ _ _ h1 h3 it0 Hloop Hnth1 eq_refl)
      as (it' & i & Hi & Hnth' & Hq & _ & Hpos & Hinv & Horig).
    apply range_spec in Hi.
    exists it0, it'. split; [reflexivity |]. split; [exact Hnth0 |].
    split.
    { rewrite Hkept; [exact Hnth0 |]. apply nth_error_Some. congruence. }
    split; [exact Hnth' |]. split; [lia |]. split; [| exact Horig].
    rewrite Hq. exact Hinv.
  - left. injection H as <- <-. split; reflexivity.
Qed.

Lemma quantity_fix_adjusts_a_copy_witness :
  let h := Sample.heap Sample.slice_items Sample.slice_orders [] in
  exists h' its',
    (its' = [0%nat] /\ h' = h)
    \/
    (exists it0 it',
        its' = [List.length (items h)] /\
        nth_error (items h) 0%nat = Some it0 /\
        nth_error (items h') 0%nat = Some it0 /\
        nth_error (items h') (List.length (items h)) = Some it' /\
        0 < Item.Quantity it' < Item.Quantity it0 /\
        Item.Purchase_Price_Per_Unit it' * Item.Quantity it' = Item.Item_Subtotal it' /\
        Item.ORIGINAL_QUANTITY_IN_ORDER it' = Some (Item.Quantity it0)).
Proof.
  intros h. eexists. eexists.
  eapply (quantity_fix_adjusts_a_copy
            (Sample.order "O3" "UPS(3)" 2 2000000 200000 2200000) 0%nat _ h).
  vm_compute. reflexivity.
Defined.

(** ** What [reconcile] does to the sum of the lines *)




(** The rates are rounded as floats.  An item taxed one cent on 20 dollars
    has the rate 0.1 and takes the missing cent; of two items taxed 8.35 %
    and 8.3 %, both at the rate 8.3, the first one takes it. *)
Example redistribution_follows_the_float_rates :
  let t := Sample.debit 1 0 1 in
  let line := fun a => line_item t "Atlas" "Books" (inject_Z a) true "" in
  let item := fun subtotal tax =>
                Item.mk "O6" None "UPS(6)" "Atlas" "Book" 1 subtotal subtotal
                        (inject_Z tax) (inject_Z (subtotal + tax)) None in
  let order := fun tax => Order.mk "O6" None None "UPS(6)" 0 0 tax tax 0 0 None in
  let amounts := fun r : Heap * outcome (list Trans) =>
                   match snd r with
                   | Ok l => Some (map (fun nt => Qred (amount nt)) l)
                   | _ => None
                   end in
  amounts (reconcile Sample.default_category 10 (set_amount (inject_Z 20020000) t)
                     (order 20000) [0%nat] [line 20010000]
                     (Sample.heap [item 20000000 10000] [] []))
  = Some [inject_Z 20020000] /\
  amounts (reconcile Sample.default_category 10 (set_amount (inject_Z 32510000) t)
                     (order 2510000) [0%nat; 1%nat] [line 21670000; line 10830000]
                     (Sample.heap [item 20000000 1670000; item 10000000 830000] [] []))
  = Some [inject_Z 21680000; inject_Z 10830000].
Proof. vm_compute. split; reflexivity. Qed.



(** ** [truncate_title] *)

Lemma append_assoc (a b c : string) : ((a ++ b) ++ c)%string = (a ++ (b ++ c))%string.
Proof. induction a as [| x a IH]; cbn; [reflexivity | rewrite IH; reflexivity]. Qed.

Lemma append_empty_r (a : string) : (a ++ "")%string = a.
Proof. induction a as [| x a IH]; cbn; [reflexivity | rewrite IH; reflexivity]. Qed.

Lemma split_space_acc_nonempty (s cur : string) : Py.split_space_acc cur s <> [].
Proof.
  revert cur. induction s as [| c s IH]; intros cur; cbn; [discriminate |].
  destruct (Ascii.eqb c " "); [discriminate | apply IH].
Qed.

(** [' '.join(s.split(' ')) == s]. *)
Lemma join_split_space_acc (s cur : string) :
  Py.join " " (Py.split_space_acc cur s) = (cur ++ s)%string.
Proof.
  revert cur. induction s as [| c s IH]; intros cur; cbn [Py.split_space_acc].
  - cbn. rewrite append_empty_r. reflexivity.
  - destruct (Ascii.eqb c " ") eqn:E.
    + apply Ascii.eqb_eq in E. subst c.
      unfold Py.join in *. cbn [String.concat].
      destruct (Py.split_space_acc "" s) as [| w ws] eqn:Hs.
      * exfalso. exact (split_space_acc_nonempty s "" Hs).
      * rewrite <- Hs, IH. reflexivity.
    + rewrite IH, append_assoc. reflexivity.
Qed.

Lemma join_split_space (s : string) : Py.join " " (Py.split_space s) = s.
Proof. unfold Py.split_space. rewrite join_split_space_acc. reflexivity. Qed.

Lemma truncate_words_prefix (ws : list string) :
  forall target : Q, exists rest, ws = (truncate_words ws target ++ rest)%list.
Proof.
  induction ws as [| w ws IH]; intros target; cbn [truncate_words].
  - exists []. reflexivity.
  - destruct (Qlt_le_dec _ target).
    + destruct (IH (target - (len w + 1))%Q) as (rest & Hrest).
      exists rest. cbn. rewrite <- Hrest. reflexivity.
    + exists (w :: ws). reflexivity.
Qed.

Lemma join_prefix (kept rest : list string) :
  exists tail, Py.join " " (kept ++ rest) = (Py.join " " kept ++ tail)%string.
Proof.
  unfold Py.join. induction kept as [| w kept IH]; cbn [app].
  - exists (String.concat " " rest). reflexivity.
  - destruct IH as (tail & Htail).
    destruct kept as [| w' kept'].
    + cbn [app String.concat]. destruct rest as [| r rest'].
      * exists "". rewrite append_empty_r. reflexivity.
      * eexists. reflexivity.
    + cbn [app String.concat] in *. rewrite Htail.
      exists tail. rewrite !append_assoc. reflexivity.
Qed.

Lemma drop_last_prefix (s : string) : exists tail, s = (Py.drop_last s ++ tail)%string.
Proof.
  induction s as [| c s (tail & IH)]; cbn [Py.drop_last].
  - exists "". reflexivity.
  - destruct s as [| c' s'].
    + exists (String c ""). reflexivity.
    + exists tail. cbn [append]. rewrite <- IH. reflexivity.
Qed.

Lemma drop_last_length (s : string) :
  String.length (Py.drop_last s) = Nat.pred (String.length s).
Proof.
  induction s as [| c s IH]; cbn [Py.drop_last]; [reflexivity |].
  destruct s as [| c' s']; [reflexivity |].
  cbn [String.length] in *. rewrite IH. reflexivity.
Qed.

Lemma last_char_none (s : string) : Py.last_char s = None -> s = "".
Proof.
  induction s as [| c s IH]; cbn [Py.last_char]; [reflexivity |].
  destruct s as [| c' s']; [discriminate |].
  intros H. apply IH in H. discriminate H.
Qed.

Lemma strip_trailing_spec (n : nat) :
  forall s : string,
    (String.length s <= n)%nat ->
    (exists tail, s = (strip_trailing n s ++ tail)%string) /\
    match Py.last_char (strip_trailing n s) with
    | Some c => Py.char_in c TRAILING_SYMBOLS = false
    | None => True
    end.
Proof.
  induction n as [| n IH]; intros s Hlen; cbn [strip_trailing].
  - destruct s; [| cbn in Hlen; lia]. split; [exists ""; reflexivity | exact I].
  - destruct (Py.last_char s) as [c |] eqn:Hlast.
    + destruct (Py.char_in c TRAILING_SYMBOLS) eqn:Hsym.
      * destruct (IH (Py.drop_last s)) as [(tail & Htail) Hend].
        { rewrite drop_last_length. lia. }
        split; [| exact Hend].
        destruct (drop_last_prefix s) as (tail' & Htail').
        exists (tail ++ tail')%string. rewrite <- append_assoc, <- Htail. exact Htail'.
      * split; [exists ""; rewrite append_empty_r; reflexivity |].
        rewrite Hlast. exact Hsym.
    + split; [exists ""; rewrite append_empty_r; reflexivity |].
      rewrite Hlast. exact I.
Qed.

(** X8.  Without a quantity in front, [truncate_title] returns a prefix of
    the title it is given, and what it returns never ends with one of the
    trailing symbols (nor with a space): the title is cut at a word
    boundary, and the symbols the cut leaves at the end are removed. *)
Theorem truncate_title_is_a_clean_prefix :
  forall (title : string) (target_length : Q),
    let truncated := truncate_title title target_length None in
    (exists tail, title = (truncated ++ tail)%string) /\
    match Py.last_char truncated with
    | Some c => Py.char_in c TRAILING_SYMBOLS = false
    | None => True
    end.
Proof.
  intros title target truncated. unfold truncated, truncate_title. cbn [app].
  destruct (strip_trailing_spec _ _ (Nat.le_refl (String.length
              (Py.join " " (truncate_words (Py.split_space title) target)))))
    as [(tail & Htail) Hend].
  split; [| exact Hend].
  destruct (truncate_words_prefix (Py.split_space title) target) as (rest & Hrest).
  destruct (join_prefix (truncate_words (Py.split_space title) target) rest)
    as (tail' & Htail').
  rewrite <- Hrest, join_split_space in Htail'.
  exists (tail ++ tail')%string. rewrite <- append_assoc, <- Htail. exact Htail'.
Qed.

(** ** What [collapse_items_into_quantity] conserves *)

Lemma fold_left_Zadd (l : list Z) (a : Z) : fold_left Z.add l a = a + Py.sumZ l.
Proof.
  unfold Py.sumZ. revert a. induction l as [| x rest IH]; intros a; cbn; [lia |].
  rewrite (IH (a + x)), (IH x). lia.
Qed.

Lemma sumZ_cons (x : Z) (l : list Z) : Py.sumZ (x :: l) = x + Py.sumZ l.
Proof. unfold Py.sumZ at 1. cbn. apply fold_left_Zadd. Qed.

Lemma sumZ_app (a b : list Z) : Py.sumZ (a ++ b)%list = Py.sumZ a + Py.sumZ b.
Proof.
  induction a as [| x a IH]; cbn [app]; [reflexivity |].
  rewrite !sumZ_cons, IH. lia.
Qed.

Lemma sumZ_perm (a b : list Z) : Permutation a b -> Py.sumZ a = Py.sumZ b.
Proof.
  induction 1 as [| x a b _ IH | x y a | a b c _ IH1 _ IH2].
  - reflexivity.
  - rewrite !sumZ_cons, IH. reflexivity.
  - rewrite !sumZ_cons. lia.
  - congruence.
Qed.

Lemma refunded_app (a b : list Refund.t) :
  refunded (a ++ b)%list = refunded a + refunded b.
Proof. unfold refunded. rewrite map_app. apply sumZ_app. Qed.

(** The groups of a multi-map built by [mm_append] hold what was appended,
    each element once. *)
Lemma mm_append_concat {K V} (eqb : K -> K -> bool) (k : K) (v : V) (m : multimap K V) :
  Permutation (List.concat (mm_values (mm_append eqb k v m))) (v :: List.concat (mm_values m)).
Proof.
  unfold mm_values. induction m as [| [k' vs] rest IH]; cbn [mm_append map snd List.concat].
  - reflexivity.
  - destruct (eqb k k'); cbn [map snd List.concat].
    + rewrite <- app_assoc. cbn [app].
      rewrite <- Permutation_middle. reflexivity.
    + rewrite IH. rewrite <- Permutation_middle. reflexivity.
Qed.

Lemma mm_collect_concat {K A} (eqb : K -> K -> bool) (key : A -> K) (l : list A) :
  forall m : multimap K A,
    Permutation (List.concat (mm_values (mm_collect eqb key (fun x => x) l m)))
                (List.concat (mm_values m) ++ l)%list.
Proof.
  unfold mm_collect. induction l as [| x rest IH]; intros m; cbn [fold_left].
  - rewrite app_nil_r. reflexivity.
  - rewrite IH, mm_append_concat. cbn [app].
    rewrite <- Permutation_middle. reflexivity.
Qed.

Lemma collapse_group_refunded (g : list Refund.t) :
  (forall a b, In a g -> In b g ->
               Refund.Total_Refund_Amount a = Refund.Total_Refund_Amount b) ->
  refunded (collapse_group g) = refunded g.
Proof.
  intros Hsame. destruct g as [| first [| second others]]; try reflexivity.
  cbn [collapse_group]. unfold refunded at 1. cbn [map collapsed_row].
  rewrite sumZ_cons. cbn [Refund.Total_Refund_Amount Py.sumZ fold_left].
  assert (Hall : forall l, (forall a, In a l ->
                   Refund.Total_Refund_Amount a = Refund.Total_Refund_Amount first) ->
                 refunded l = Refund.Total_Refund_Amount first * Z.of_nat (List.length l)).
  { induction l as [| a l IH]; intros Hl.
    - cbn. lia.
    - unfold refunded in *. cbn [map List.length]. rewrite sumZ_cons.
      rewrite IH by (intros b Hb; apply Hl; right; exact Hb).
      rewrite (Hl a (or_introl eq_refl)). lia. }
  rewrite (Hall (first :: second :: others)); [unfold collapsed_row; cbn [Refund.Total_Refund_Amount]; lia |].
  intros a Ha. apply Hsame; [exact Ha | left; reflexivity].
Qed.

Lemma collapse_items_refunded :
  forall rows : list Refund.t,
    (forall a b, In a rows -> In b rows ->
                 collapse_key a = collapse_key b ->
                 Refund.Total_Refund_Amount a = Refund.Total_Refund_Amount b) ->
    refunded (collapse_items_into_quantity rows) = refunded rows /\
    (List.length (collapse_items_into_quantity rows) <= List.length rows)%nat.
Proof.
  intros rows Hsame. unfold collapse_items_into_quantity.
  destruct (List.length rows <=? 1)%nat; [split; [reflexivity | lia] |].
  destruct (collected_collect string Refund.t String.eqb collapse_key String.eqb_eq
              rows [] []) as (_ & _ & Hgroups).
  { split; [constructor |]. split; [intros y [] | constructor]. }
  cbn [app] in Hgroups.
  pose proof (mm_collect_concat String.eqb collapse_key rows []) as Hperm.
  cbn [mm_values map List.concat app] in Hperm.
  revert Hgroups Hperm.
  generalize (mm_collect String.eqb collapse_key (fun i => i) rows []).
  intros m Hgroups Hperm.
  assert (Hin : forall kv a, In kv m -> In a (snd kv) ->
                             In a rows /\ collapse_key a = fst kv).
  { intros kv a Hkv Ha. rewrite Forall_forall in Hgroups.
    rewrite (Hgroups kv Hkv) in Ha. apply filter_In in Ha.
    destruct Ha as [Ha E]. apply String.eqb_eq in E. split; assumption. }
  clear Hgroups.
  assert (Hsum : refunded (flat_map collapse_group (mm_values m))
                 = refunded (List.concat (mm_values m)) /\
                 (List.length (flat_map collapse_group (mm_values m))
                  <= List.length (List.concat (mm_values m)))%nat).
  { clear Hperm. unfold mm_values.
    induction m as [| kv m IH]; cbn [map flat_map List.concat]; [split; [reflexivity | lia] |].
    destruct IH as [IH1 IH2]; [intros kv' a Hkv'; apply Hin; right; exact Hkv' |].
    rewrite !refunded_app, !length_app, IH1. split.
    - f_equal. apply collapse_group_refunded. intros a b Ha Hb.
      destruct (Hin kv a (or_introl eq_refl) Ha) as [Ha' Ea].
      destruct (Hin kv b (or_introl eq_refl) Hb) as [Hb' Eb].
      apply Hsame; congruence.
    - assert (Hg : (List.length (collapse_group (snd kv)) <= List.length (snd kv))%nat).
      { destruct (snd kv) as [| x [| y g]]; cbn; lia. }
      lia. }
  destruct Hsum as [Hsum Hlen]. split.
  - rewrite Hsum. unfold refunded. apply sumZ_perm. apply Permutation_map. exact Hperm.
  - rewrite (Permutation_length Hperm) in Hlen. exact Hlen.
Qed.

(** Where a row of the result comes from. *)
Lemma collapse_rows_origin (rows : list Refund.t) (row : Refund.t) :
  In row (collapse_items_into_quantity rows) ->
  In row rows \/
  exists first qty, In first rows /\ row = collapsed_row first qty.
Proof.
  unfold collapse_items_into_quantity.
  destruct (List.length rows <=? 1)%nat; [intros H; left; exact H |].
  destruct (collected_collect string Refund.t String.eqb collapse_key String.eqb_eq
              rows [] []) as (_ & _ & Hgroups).
  { split; [constructor |]. split; [intros y [] | constructor]. }
  cbn [app] in Hgroups. rewrite Forall_forall in Hgroups.
  intros H. apply in_flat_map in H. destruct H as (g & Hg & Hrow).
  unfold mm_values in Hg. apply in_map_iff in Hg. destruct Hg as (kv & <- & Hkv).
  assert (Hsub : forall a, In a (snd kv) -> In a rows).
  { intros a Ha. rewrite (Hgroups kv Hkv) in Ha. apply filter_In in Ha. apply Ha. }
  destruct (snd kv) as [| first [| second others]]; cbn [collapse_group] in Hrow.
  - destruct Hrow.
  - left. destruct Hrow as [<- | []]. apply Hsub. left. reflexivity.
  - right. destruct Hrow as [<- | []]. eexists. eexists.
    split; [apply Hsub; left; reflexivity | reflexivity].
Qed.

(** X9.  When the rows that [collapse_items_into_quantity] puts in one group
    (the rows of equal key) have the same total refund amount, collapsing
    changes neither the total refunded nor, as every group is replaced by at
    most one row, makes the list longer; and rows whose total is their refund
    amount plus its tax, as [parse_amazon_csv] makes them, stay so. *)
Theorem collapse_conserves_the_refunded_total :
  forall rows : list Refund.t,
    (forall a b, In a rows -> In b rows ->
                 collapse_key a = collapse_key b ->
                 Refund.Total_Refund_Amount a = Refund.Total_Refund_Amount b) ->
    refunded (collapse_items_into_quantity rows) = refunded rows /\
    (List.length (collapse_items_into_quantity rows) <= List.length rows)%nat /\
    (Forall refund_totalled rows ->
     Forall refund_totalled (collapse_items_into_quantity rows)).
Proof.
  intros rows Hsame.
  destruct (collapse_items_refunded rows Hsame) as [Hsum Hlen].
  split; [exact Hsum |]. split; [exact Hlen |].
  intros Hall. rewrite Forall_forall in *. intros row Hrow.
  apply collapse_rows_origin in Hrow.
  destruct Hrow as [Hrow | (first & qty & Hfirst & ->)]; [exact (Hall row Hrow) |].
  specialize (Hall first Hfirst). unfold refund_totalled in *.
  unfold collapsed_row.
  cbn [Refund.Total_Refund_Amount Refund.Refund_Amount Refund.Refund_Tax_Amount].
  rewrite Hall. lia.
Qed.

Lemma collapse_conserves_the_refunded_total_witness :
  refunded (collapse_items_into_quantity
              [Sample.refund "O7" "Damaged" "Atlas" 2 1000000;
               Sample.refund "O7" "Damaged" "Atlas" 2 1000000;
               Sample.refund "O7" "Damaged" "Globe" 2 500000])
  = 2500000.
Proof.
  refine (proj1 (collapse_conserves_the_refunded_total _ _)).
  intros a b [<- | [<- | [<- | []]]] [<- | [<- | [<- | []]]] H;
    try reflexivity; vm_compute in H; discriminate H.
Defined.

(** ** [tag_as_refund] *)

Lemma closest_refund_loop_app (hp : list Refund.t) (t : Trans) :
  forall (before rest : list (list ref)) (closest : option (list ref)) (cd : Z),
    Forall (fun r => exists rd, first_dated_refund hp r = Ok rd) before ->
    exists closest' cd',
      closest_refund_loop hp t (before ++ rest) closest cd
      = closest_refund_loop hp t rest closest' cd'.
Proof.
  induction before as [| r before IH]; intros rest closest cd Hdated; cbn [app].
  - exists closest, cd. reflexivity.
  - inversion Hdated as [| ? ? [rd Hrd] Hdated']; subst.
    cbn [closest_refund_loop]. rewrite Hrd.
    destruct (_ && _ && _); apply IH; exact Hdated'.
Qed.

Lemma first_dated_refund_undated (hp : list Refund.t) (g : list ref) :
  Forall (fun d => exists rf, nth_error hp d = Some rf /\ Refund.Refund_Date rf = None) g ->
  first_dated_refund hp g = Raise StopIteration.
Proof.
  induction 1 as [| d g (rf & Hnth & Hdate) _ IH]; cbn [first_dated_refund].
  - reflexivity.
  - rewrite Hnth, Hdate. exact IH.
Qed.

(** X10.  [tag_as_refund] looks for a dated refund in every candidate group
    with [next(...)] and no default: when the groups before it are dated, a
    candidate group none of whose refunds has a refund date makes the call
    raise [StopIteration]; nothing has been claimed or counted by then. *)
Theorem tag_as_refund_raises_StopIteration :
  forall (table : string -> option string) (default_return : string) (t : Trans)
         (before after : list (list ref)) (g : list ref) (h : Heap),
    Forall (fun r => exists rd, first_dated_refund (refunds h) r = Ok rd) before ->
    Forall (fun d => exists rf, nth_error (refunds h) d = Some rf /\
                                Refund.Refund_Date rf = None) g ->
    tag_as_refund table default_return t (before ++ g :: after) h
    = (h, Raise StopIteration).
Proof.
  intros table default_return t before after g h Hbefore Hg.
  unfold tag_as_refund, bind, closest_refund_match.
  destruct (closest_refund_loop_app (refunds h) t before (g :: after) None 365 Hbefore)
    as (closest' & cd' & ->).
  cbn [closest_refund_loop].
  rewrite (first_dated_refund_undated _ _ Hg). reflexivity.
Qed.

Lemma tag_as_refund_raises_StopIteration_witness :
  tag_as_refund Sample.table Sample.default_return_category (Sample.credit 1 1000000 3)
                ([[0%nat]] ++ [1%nat] :: [])
                (Sample.heap [] [] [Sample.refund "O7" "Damaged" "Globe" 2 1000000;
                                    undated_refund])
  = (Sample.heap [] [] [Sample.refund "O7" "Damaged" "Globe" 2 1000000; undated_refund],
     Raise StopIteration).
Proof.
  apply (tag_as_refund_raises_StopIteration Sample.table Sample.default_return_category
           (Sample.credit 1 1000000 3) [[0%nat]] [] [1%nat]).
  - constructor; [| constructor]. eexists. vm_compute. reflexivity.
  - constructor; [| constructor]. eexists. split; reflexivity.
Defined.

(** The refund loop only ever selects one of its groups: one without a
    claimed member whose first dated refund is within 3 days. *)
Lemma closest_refund_loop_selected (hp : list Refund.t) (t : Trans) :
  forall (groups : list (list ref)) (closest : option (list ref)) (cd : Z)
         (g : list ref),
    closest_refund_loop hp t groups closest cd = Ok (Some g) ->
    closest = Some g \/
    (In g groups /\ any_claimed hp g = false /\
     exists rd, first_dated_refund hp g = Ok rd /\
                Z.abs (Date.days_between (odate t) rd) <= 3).
Proof.
  induction groups as [| r rest IH]; intros closest cd g H;
    cbn [closest_refund_loop] in H.
  - left. congruence.
  - destruct (first_dated_refund hp r) as [rd | e |] eqn:Hrd; try discriminate H.
    destruct (_ && _ && negb (any_claimed hp r)) eqn:Hc.
    + apply IH in H. destruct H as [H | (Hin & Hun & Hd)].
      * injection H as <-. right. split; [left; reflexivity |].
        apply andb_prop in Hc. destruct Hc as [Hc Hun].
        apply andb_prop in Hc. destruct Hc as [H4 _].
        apply negb_true_iff in Hun. apply Z.ltb_lt in H4.
        split; [exact Hun |]. exists rd. split; [exact Hrd | lia].
      * right. split; [right; exact Hin |]. split; assumption.
    + apply IH in H. destruct H as [H | (Hin & Hun & Hd)].
      * left. exact H.
      * right. split; [right; exact Hin |]. split; assumption.
Qed.

Lemma mapM_get_refund_ok :
  forall (g : list ref) (h h' : Heap) (rows : list Refund.t),
    mapM get_refund g h = (h', Ok rows) ->
    h' = h /\ Forall2 (fun r row => nth_error (refunds h) r = Some row) g rows.
Proof.
  induction g as [| r g IH]; intros h h' rows H; cbn [mapM] in H.
  - injection H as <- <-. split; [reflexivity | constructor].
  - apply bind_ok_inv in H. destruct H as (h1 & row & Hrow & H).
    unfold get_refund, deref in Hrow.
    destruct (nth_error (refunds h) r) as [rf |] eqn:Hnth; [| discriminate Hrow].
    injection Hrow as <- <-.
    apply bind_ok_inv in H. destruct H as (h2 & rows' & Hrows & H).
    apply IH in Hrows. destruct Hrows as [-> Hall]. injection H as <- <-.
    split; [reflexivity |]. constructor; assumption.
Qed.

(** What [claim_refunds] does when it returns: the refunds of the group
    carry the transaction, nothing else has changed. *)
Lemma claim_refunds_ok (t : Trans) :
  forall (group : list ref) (h h' : Heap),
    claim_refunds group t h = (h', Ok tt) ->
    items h' = items h /\ orders h' = orders h /\ stats h' = stats h /\
    (forall r, In r group ->
               exists rf, nth_error (refunds h) r = Some rf /\
                          nth_error (refunds h') r = Some (Refund.claim t rf)) /\
    (forall r, ~ In r group -> nth_error (refunds h') r = nth_error (refunds h) r).
Proof.
  induction group as [| r group IH]; intros h h' H; cbn [claim_refunds] in H.
  - injection H as <-. repeat split; try reflexivity. intros r [].
  - apply bind_ok_inv in H. destruct H as (h1 & [] & Hclaim & H).
    unfold claim_refund, bind, get_refund, deref in Hclaim.
    destruct (nth_error (refunds h) r) as [rf |] eqn:Hnth; [| discriminate Hclaim].
    injection Hclaim as <-.
    apply IH in H. cbn [items orders stats refunds] in H.
    destruct H as (Hi & Ho & Hs & Hin & Hout).
    split; [exact Hi |]. split; [exact Ho |]. split; [exact Hs |]. split.
    + intros r' Hr'.
      destruct (in_dec Nat.eq_dec r' group) as [Hmem | Hmem].
      * destruct (Hin r' Hmem) as (rf1 & Hrf1 & Hrf').
        destruct (Nat.eq_dec r r') as [<- | Hne].
        -- rewrite (nth_error_update_eq _ _ _ rf Hnth) in Hrf1. injection Hrf1 as <-.
           exists rf. split; [exact Hnth | exact Hrf'].
        -- rewrite nth_error_update_neq in Hrf1 by exact Hne.
           exists rf1. split; assumption.
      * destruct Hr' as [<- | Hr']; [| contradiction].
        rewrite (Hout r Hmem), (nth_error_update_eq _ _ _ rf Hnth).
        exists rf. split; [exact Hnth | reflexivity].
    + intros r' Hr'. rewrite Hout by (intros Hmem; apply Hr'; right; exact Hmem).
      apply nth_error_update_neq. intros ->. apply Hr'. left. reflexivity.
Qed.

(** The steps of a call of [tag_as_refund] that returns lines. *)
Lemma tag_as_refund_ok (table : string -> option string) (default_return : string)
    (t : Trans) (groups : list (list ref)) (h h' : Heap) (lines : list Trans) :
  tag_as_refund table default_return t groups h = (h', Ok (Some lines)) ->
  exists (group : list ref) (rows : list Refund.t),
    closest_refund_loop (refunds h) t groups None 365 = Ok (Some group) /\
    claim_refunds group t (fst (stats_incr "refund_match" h)) = (h', Ok tt) /\
    Forall2 (fun r row => nth_error (refunds h') r = Some row) group rows /\
    lines = map (refund_line table default_return t) (collapse_items_into_quantity rows).
Proof.
  intros H. unfold tag_as_refund in H.
  apply bind_ok_inv in H. destruct H as (h1 & closest & Hmatch & H).
  unfold closest_refund_match in Hmatch. injection Hmatch as <- Hloop.
  destruct closest as [[| r0 g] |]; try discriminate H.
  apply bind_ok_inv in H. destruct H as (h1 & [] & Hstats & H).
  apply bind_ok_inv in H. destruct H as (h2 & [] & Hclaim & H).
  apply bind_ok_inv in H. destruct H as (h3 & rows & Hrows & H).
  apply mapM_get_refund_ok in Hrows. destruct Hrows as [-> Hrows].
  injection H as <- <-.
  exists (r0 :: g), rows. split; [exact Hloop |]. split.
  - unfold stats_incr in Hstats. injection Hstats as <-. exact Hclaim.
  - split; [exact Hrows | reflexivity].
Qed.

(** X11.  When [tag_as_refund] returns lines, they stand for one of the
    candidate groups: a group none of whose refunds was claimed, whose first
    dated refund is at most 3 days from the transaction.  Every refund of
    that group now carries the transaction under [MATCHED_TRANSACTION], the
    other refunds, the orders and the items are as before, [refund_match] has
    been counted once, and there are at most as many lines as refunds in the
    group, each a credit marked [IS_REFUND] with the id and dates of the
    transaction. *)
Theorem tag_as_refund_itemizes_the_selected_group :
  forall (table : string -> option string) (default_return : string) (t : Trans)
         (groups : list (list ref)) (h h' : Heap) (lines : list Trans),
    tag_as_refund table default_return t groups h = (h', Ok (Some lines)) ->
    exists (group : list ref) (rd : date),
      In group groups /\
      any_claimed (refunds h) group = false /\
      first_dated_refund (refunds h) group = Ok rd /\
      Z.abs (Date.days_between (odate t) rd) <= 3 /\
      (forall r, In r group -> flag_at h' (ClaimRefund r) = Some t) /\
      (forall r, ~ In r group -> nth_error (refunds h') r = nth_error (refunds h) r) /\
      items h' = items h /\ orders h' = orders h /\
      counter_get "refund_match" (stats h')
      = counter_get "refund_match" (stats h) + 1 /\
      (List.length lines <= List.length group)%nat /\
      Forall (fun l => isDebit l = false /\ IS_REFUND l = true /\
                       id_ l = id_ t /\ date_ l = date_ t /\ odate l = odate t) lines.
Proof.
  intros table default_return t groups h h' lines H.
  apply tag_as_refund_ok in H. destruct H as (group & rows & Hloop & Hclaim & Hrows & ->).
  apply closest_refund_loop_selected in Hloop.
  destruct Hloop as [Hloop | (Hin & Hun & rd & Hrd & Hdays)]; [discriminate Hloop |].
  apply claim_refunds_ok in Hclaim. cbn [stats_incr fst items orders stats refunds] in Hclaim.
  destruct Hclaim as (Hi & Ho & Hs & Hclaimed & Hother).
  exists group, rd. repeat (split; [assumption |]).
  split.
  { intros r Hr. destruct (Hclaimed r Hr) as (rf & _ & Hrf). cbn [flag_at].
    rewrite Hrf. reflexivity. }
  split; [exact Hother |]. split; [exact Hi |]. split; [exact Ho |]. split.
  { rewrite Hs. apply counter_get_set_same. }
  split.
  - rewrite length_map.
    assert (Hlen : List.length rows = List.length group)
      by (symmetry; exact (Forall2_length Hrows)).
    rewrite <- Hlen. clear.
    unfold collapse_items_into_quantity.
    destruct (List.length rows <=? 1)%nat; [lia |].
    pose proof (mm_collect_concat String.eqb collapse_key rows []) as Hperm.
    cbn [mm_values map List.concat app] in Hperm.
    rewrite <- (Permutation_length Hperm).
    generalize (mm_collect String.eqb collapse_key (fun i => i) rows []). intros m.
    unfold mm_values.
    induction m as [| kv m IH]; cbn [map flat_map List.concat]; [lia |].
    rewrite !length_app.
    assert (Hg : (List.length (collapse_group (snd kv)) <= List.length (snd kv))%nat).
    { destruct (snd kv) as [| x [| y g]]; cbn; lia. }
    lia.
  - apply Forall_map. apply Forall_forall. intros row _.
    unfold refund_line, set_IS_REFUND, line_item. cbn. repeat split.
Qed.

Lemma tag_as_refund_itemizes_the_selected_group_witness :
  exists (group : list ref) (rd : date),
    In group [[0%nat]] /\
    any_claimed [Sample.refund "O7" "Damaged" "Globe" 2 1000000] group = false /\
    first_dated_refund [Sample.refund "O7" "Damaged" "Globe" 2 1000000] group = Ok rd /\
    Z.abs (Date.days_between (odate (Sample.credit 1 1000000 3)) rd) <= 3.
Proof.
  assert (Hrun : exists h' lines,
             tag_as_refund Sample.table Sample.default_return_category
                           (Sample.credit 1 1000000 3) [[0%nat]]
                           (Sample.heap [] []
                              [Sample.refund "O7" "Damaged" "Globe" 2 1000000])
             = (h', Ok (Some lines))).
  { eexists. eexists. vm_compute. reflexivity. }
  destruct Hrun as (h' & lines & Hrun).
  destruct (tag_as_refund_itemizes_the_selected_group _ _ _ _ _ _ _ Hrun)
    as (group & rd & H1 & H2 & H3 & H4 & _).
  exists group, rd. repeat split; assumption.
Defined.

(** ** A refund, from the index to the lines *)

Lemma mm_find_In {K V} (p : K -> bool) (m : multimap K V) (vs : list V) :
  mm_find p m = Some vs -> exists k, In (k, vs) m /\ p k = true.
Proof.
  induction m as [| [k ws] rest IH]; cbn [mm_find]; intros H; [discriminate H |].
  destruct (p k) eqn:Hp.
  - injection H as <-. exists k. split; [left; reflexivity | exact Hp].
  - destruct (IH H) as (k' & Hin & Hk'). exists k'. split; [right; exact Hin | exact Hk'].
Qed.

Lemma enumerate_nth {A} (l : list A) (i : ref) (x : A) :
  In (i, x) (enumerate l) -> nth_error l i = Some x.
Proof.
  unfold enumerate.
  assert (H : forall n, In (i, x) (combine (seq n (List.length l)) l) ->
                        (n <= i)%nat /\ nth_error l (i - n) = Some x).
  { induction l as [| y l IH]; intros n Hin; cbn in Hin; [destruct Hin |].
    destruct Hin as [Hin | Hin].
    - injection Hin as <- <-. rewrite Nat.sub_diag. split; [lia | reflexivity].
    - apply IH in Hin. destruct Hin as [Hle Hnth]. split; [lia |].
      replace (i - n)%nat with (S (i - S n)) by lia. exact Hnth. }
  intros Hin. apply H in Hin. rewrite Nat.sub_0_r in Hin. apply Hin.
Qed.

Lemma enumerated_rows {A} (l : list A) (g : list (ref * A)) :
  (forall x, In x g -> In x (enumerate l)) ->
  Forall2 (fun r row => nth_error l r = Some row) (map fst g) (map snd g).
Proof.
  induction g as [| [i x] g IH]; intros Hsub; cbn [map fst snd]; constructor.
  - apply enumerate_nth. apply Hsub. left. reflexivity.
  - apply IH. intros y Hy. apply Hsub. right. exact Hy.
Qed.

Lemma refund_total_refunded (g : list (ref * Refund.t)) :
  refund_total g = refunded (map snd g).
Proof. unfold refund_total, refunded. rewrite map_map. reflexivity. Qed.

(** Whatever its source, a group of the refund index is stored under the
    total of its refunds. *)
Lemma refund_group_source_total (refunds : list Refund.t) (amount : Z) (g : list ref) :
  refund_group_source refunds amount g ->
  exists rows, Forall2 (fun r row => nth_error refunds r = Some row) g rows /\
               refunded rows = amount.
Proof.
  intros [(r & Hr & -> & Htotal) | [(order_id & Hsrc) | (order_id & day & Hsrc)]].
  - exists [snd r]. split.
    + constructor; [| constructor]. apply enumerate_nth. destruct r; exact Hr.
    + unfold refunded. cbn [map]. rewrite sumZ_cons. cbn. lia.
  - cbv zeta in Hsrc. destruct Hsrc as (-> & _ & _ & Htotal).
    eexists. split.
    + apply enumerated_rows. intros x Hx. apply filter_In in Hx. apply Hx.
    + rewrite <- refund_total_refunded. exact Htotal.
  - cbv zeta in Hsrc. destruct Hsrc as (-> & _ & Htotal).
    eexists. split.
    + apply enumerated_rows. intros x Hx. apply filter_In in Hx. apply Hx.
    + rewrite <- refund_total_refunded. exact Htotal.
Qed.

Lemma refund_lines_sum (table : string -> option string) (default_return : string)
    (t : Trans) (rows : list Refund.t) :
  (sum_amounts (map (refund_line table default_return t) rows)
   == - inject_Z (refunded rows))%Q.
Proof.
  induction rows as [| r rows IH]; cbn [map].
  - rewrite sum_amounts_nil. reflexivity.
  - rewrite sum_amounts_cons, IH. unfold refunded. cbn [map]. rewrite sumZ_cons.
    rewrite inject_Z_plus. unfold refund_line, set_IS_REFUND, line_item. cbn [amount].
    ring.
Qed.

(** X12.  A credit that [tag_transactions] looks up in the refund index by
    its negated amount and [tag_as_refund] turns into lines keeps its
    amount: when refunds of equal collapse key have the same total, the
    lines add up to the amount of the transaction, whichever group of the
    index was selected. *)
Theorem refund_lines_conserve_the_amount :
  forall (table : string -> option string) (default_return : string) (t : Trans)
         (groups : list (list ref)) (h h' : Heap) (lines : list Trans),
    (forall a b, In a (refunds h) -> In b (refunds h) ->
                 collapse_key a = collapse_key b ->
                 Refund.Total_Refund_Amount a = Refund.Total_Refund_Amount b) ->
    mm_find (fun k => Qeq_bool (- amount t) (inject_Z k))
            (build_amount_to_refunds (refunds h)) = Some groups ->
    tag_as_refund table default_return t groups h = (h', Ok (Some lines)) ->
    (sum_amounts lines == amount t)%Q.
Proof.
  intros table default_return t groups h h' lines Hsame Hfind H.
  apply tag_as_refund_ok in H. destruct H as (group & rows & Hloop & Hclaim & Hrows & ->).
  apply closest_refund_loop_selected in Hloop.
  destruct Hloop as [Hloop | (Hin & _)]; [discriminate Hloop |].
  apply mm_find_In in Hfind. destruct Hfind as (k & Hk & Hamount).
  apply Qeq_bool_iff in Hamount.
  pose proof (mm_all2_In _ _ _ _ _ (build_amount_to_refunds_sources (refunds h)) Hk Hin)
    as Hsrc.
  apply refund_group_source_total in Hsrc. destruct Hsrc as (rows0 & Hrows0 & Htotal).
  apply claim_refunds_ok in Hclaim. cbn [stats_incr fst refunds] in Hclaim.
  destruct Hclaim as (_ & _ & _ & Hclaimed & _).
  assert (Hmap : rows = map (Refund.claim t) rows0).
  { clear - Hrows Hrows0 Hclaimed. revert rows Hrows Hclaimed.
    induction Hrows0 as [| r row0 g rows0 Hrow0 _ IH]; intros rows Hrows Hclaimed;
      inversion Hrows as [| ? row ? rows' Hrow Hrows']; subst; [reflexivity |].
    cbn [map]. f_equal.
    - destruct (Hclaimed r (or_introl eq_refl)) as (rf & Hrf & Hrf').
      congruence.
    - apply IH; [exact Hrows' |]. intros r' Hr'. apply Hclaimed. right. exact Hr'. }
  assert (Hmem : forall a, In a rows ->
                 exists a0, In a0 (refunds h) /\ a = Refund.claim t a0).
  { intros a Ha. rewrite Hmap in Ha. apply in_map_iff in Ha.
    destruct Ha as (a0 & <- & Ha0). exists a0. split; [| reflexivity].
    clear - Hrows0 Ha0. induction Hrows0 as [| r row0 g rows0 Hrow0 _ IH];
      [destruct Ha0 |].
    destruct Ha0 as [<- | Ha0]; [exact (nth_error_In _ _ Hrow0) | exact (IH Ha0)]. }
  rewrite refund_lines_sum.
  destruct (collapse_items_refunded rows) as [-> _].
  { intros a b Ha Hb Hkey.
    destruct (Hmem a Ha) as (a0 & Ha0 & ->). destruct (Hmem b Hb) as (b0 & Hb0 & ->).
    exact (Hsame a0 b0 Ha0 Hb0 Hkey). }
  assert (Hsum : refunded rows = refunded rows0).
  { rewrite Hmap. unfold refunded. rewrite map_map. reflexivity. }
  rewrite Hsum, Htotal, <- Hamount. ring.
Qed.

Lemma refund_lines_conserve_the_amount_witness :
  exists (h' : Heap) (lines : list Trans),
    tag_as_refund Sample.table Sample.default_return_category
                  (Sample.credit 1 3000000 3) [[0%nat; 1%nat]]
                  (Sample.heap [] [] Sample.two_day_refunds)
    = (h', Ok (Some lines)) /\
    (sum_amounts lines == amount (Sample.credit 1 3000000 3))%Q.
Proof.
  eexists. eexists. split.
  - vm_compute. reflexivity.
  - eapply (refund_lines_conserve_the_amount
              Sample.table Sample.default_return_category (Sample.credit 1 3000000 3)
              [[0%nat; 1%nat]] (Sample.heap [] [] Sample.two_day_refunds)).
    + intros a b [<- | [<- | []]] [<- | [<- | []]] Hkey; try reflexivity;
        vm_compute in Hkey; discriminate Hkey.
    + vm_compute. reflexivity.
    + vm_compute. reflexivity.
Defined.

(** ** The indexes of [tag_transactions] *)

Section Lookup.

Variables (K V A : Type) (eqb : K -> K -> bool) (key : A -> K) (val : A -> V).
Variable p : K -> bool.
Hypothesis eqb_eq : forall a b, eqb a b = true <-> a = b.
Hypothesis p_one_key : forall a b, p a = true -> p b = true -> a = b.

Lemma mm_find_append (k : K) (v : V) (m : multimap K V) :
  mm_find p (mm_append eqb k v m)
  = if p k then Some (match mm_find p m with
                      | Some vs => vs ++ [v]
                      | None => [v]
                      end)%list
    else mm_find p m.
Proof.
  induction m as [| [k0 vs0] rest IH]; cbn [mm_append mm_find].
  - destruct (p k); reflexivity.
  - destruct (eqb k k0) eqn:E; cbn [mm_find].
    + apply eqb_eq in E. subst k0. destruct (p k); reflexivity.
    + rewrite IH. destruct (p k0) eqn:Hk0; [| reflexivity].
      destruct (p k) eqn:Hk; [| reflexivity].
      exfalso. rewrite (p_one_key k k0 Hk Hk0) in E.
      assert (E' : eqb k0 k0 = true) by (apply eqb_eq; reflexivity). congruence.
Qed.

Lemma mm_find_collect (l : list A) :
  forall m : multimap K V,
    mm_find p (mm_collect eqb key val l m)
    = match mm_find p m with
      | Some vs => Some (vs ++ map val (filter (fun x => p (key x)) l))%list
      | None => found (map val (filter (fun x => p (key x)) l))
      end.
Proof.
  unfold mm_collect. induction l as [| x rest IH]; intros m; cbn [fold_left filter].
  - cbn [map found]. destruct (mm_find p m); [rewrite app_nil_r |]; reflexivity.
  - rewrite IH, mm_find_append. destruct (p (key x)); [| reflexivity].
    cbn [map found]. destruct (mm_find p m) as [vs |].
    + rewrite <- app_assoc. reflexivity.
    + reflexivity.
Qed.

End Lookup.

Lemma Qeq_bool_inject_Z_one_key (q : Q) (a b : Z) :
  Qeq_bool q (inject_Z a) = true -> Qeq_bool q (inject_Z b) = true -> a = b.
Proof.
  intros Ha Hb. apply Qeq_bool_iff in Ha. apply Qeq_bool_iff in Hb.
  rewrite Ha in Hb. unfold Qeq, inject_Z in Hb. cbn in Hb. lia.
Qed.

Lemma string_eqb_one_key (k a b : string) :
  String.eqb k a = true -> String.eqb k b = true -> a = b.
Proof. intros Ha Hb. apply String.eqb_eq in Ha. apply String.eqb_eq in Hb. congruence. Qed.

(** X13.  The three plain indexes that [tag_transactions] builds answer a
    look-up with exactly the matching rows of the report, in the order of the
    report, and with nothing when no row matches: the orders charged the
    amount of the transaction, the items of a tracking number, the items of
    an order id. *)
Theorem index_lookup_returns_the_matching_rows :
  (forall (orders : list Order.t) (amount : Q),
      mm_find (fun k => Qeq_bool amount (inject_Z k)) (build_amount_to_orders orders)
      = found (addresses_of
                 (fun o => Qeq_bool amount (inject_Z (Order.Total_Charged o))) orders))
  /\
  (forall (items : list Item.t) (tracking : string),
      mm_get String.eqb tracking (build_tracking_to_items items)
      = found (addresses_of
                 (fun i => String.eqb tracking (Item.Carrier_Name_Tracking_Number i))
                 items))
  /\
  (forall (items : list Item.t) (order_id : string),
      mm_get String.eqb order_id (build_order_id_to_items items)
      = found (addresses_of (fun i => String.eqb order_id (Item.Order_ID i)) items)).
Proof.
  split; [| split].
  - intros orders amount. unfold build_amount_to_orders, addresses_of.
    rewrite (mm_find_collect Z (ref) (ref * Order.t) Z.eqb
               (fun o => Order.Total_Charged (snd o)) fst
               (fun k => Qeq_bool amount (inject_Z k)) Z.eqb_eq
               (Qeq_bool_inject_Z_one_key amount)).
    reflexivity.
  - intros items tracking. unfold build_tracking_to_items, addresses_of, mm_get.
    rewrite (mm_find_collect string (ref) (ref * Item.t) String.eqb
               (fun i => Item.Carrier_Name_Tracking_Number (snd i)) fst
               (String.eqb tracking) String.eqb_eq (string_eqb_one_key tracking)).
    reflexivity.
  - intros items order_id. unfold build_order_id_to_items, addresses_of, mm_get.
    rewrite (mm_find_collect string (ref) (ref * Item.t) String.eqb
               (fun i => Item.Order_ID (snd i)) fst
               (String.eqb order_id) String.eqb_eq (string_eqb_one_key order_id)).
    reflexivity.
Qed.

(** ** What [tag_as_order] does to the selected order *)

(** X14.  Once the candidate loop of [tag_as_order] has selected an order,
    that order carries the transaction under [MATCHED_TRANSACTION] when the
    call ends, however it ends: with lines, with [None] because the items
    could not be worked out, or with an exception.  The order had no such
    key before, it is the only record claimed, and no other order and no
    refund is touched. *)
Theorem tag_as_order_consumes_the_selected_order :
  forall (table : string -> option string) (default : string) (fuel : nat)
         (t : Trans) (matched_orders : list ref)
         (tracking_to_items order_id_to_items : item_index) (h : Heap) (o : ref),
    closest_order_match t matched_orders h = (h, Ok (Some o)) ->
    let h' := fst (tag_as_order table default fuel t matched_orders
                                tracking_to_items order_id_to_items h) in
    (exists ord,
        nth_error (orders h) o = Some ord /\
        Order.MATCHED_TRANSACTION ord = None /\
        orders h' = update o (Order.claim t ord) (orders h)) /\
    refunds h' = refunds h /\
    claim_log h' = ClaimOrder o :: claim_log h.
Proof.
  intros table default fuel t cands tti oti h o Hmatch h'. subst h'.
  pose proof Hmatch as Hloop. unfold closest_order_match in Hloop.
  injection Hloop as Hloop. apply closest_order_loop_unclaimed in Hloop.
  destruct Hloop as [Hloop | (ord & Hnth & Hun)]; [discriminate Hloop |].
  unfold tag_as_order.
  rewrite (bind_ok _ _ h h (Some o) Hmatch).
  rewrite (bind_ok _ _ h (fst (stats_incr "order_match" h)) tt eq_refl).
  match goal with
  | |- context [bind (claim_order o t) ?k] => set (rest := k)
  end.
  assert (Hclaim : claim_order o t (fst (stats_incr "order_match" h))
                   = (mkHeap (items h) (update o (Order.claim t ord) (orders h))
                             (refunds h)
                             (counter_set "order_match"
                                (counter_get "order_match" (stats h) + 1) (stats h))
                             (ClaimOrder o :: claim_log h), Ok tt)).
  { unfold claim_order, bind, get_order, deref. cbn [stats_incr fst orders].
    rewrite Hnth. reflexivity. }
  rewrite (bind_ok _ _ _ _ tt Hclaim).
  assert (Hframes : frames (rest tt)) by (subst rest; cbv beta; frames_tac).
  destruct (Hframes (mkHeap (items h) (update o (Order.claim t ord) (orders h))
                            (refunds h)
                            (counter_set "order_match"
                               (counter_get "order_match" (stats h) + 1) (stats h))
                            (ClaimOrder o :: claim_log h))) as (Ho & Hr & Hl).
  cbn [orders refunds claim_log] in Ho, Hr, Hl.
  split; [exists ord; repeat split; assumption |].
  split; [exact Hr | exact Hl].
Qed.

Lemma tag_as_order_consumes_the_selected_order_witness :
  tag_as_order Sample.table Sample.default_category 10 (Sample.debit 1 5000000 2)
               [0%nat] [] []
               (Sample.heap [] [Sample.order "O1" "" 2 5000000 0 5000000] [])
  = (mkHeap [] [Order.claim (Sample.debit 1 5000000 2)
                            (Sample.order "O1" "" 2 5000000 0 5000000)] []
            [("order_match", 1)] [ClaimOrder 0%nat],
     Ok None) /\
  claim_log (fst (tag_as_order Sample.table Sample.default_category 10
                               (Sample.debit 1 5000000 2) [0%nat] [] []
                               (Sample.heap [] [Sample.order "O1" "" 2 5000000 0 5000000]
                                            [])))
  = [ClaimOrder 0%nat].
Proof.
  split; [vm_compute; reflexivity |].
  apply (tag_as_order_consumes_the_selected_order
           Sample.table Sample.default_category 10 (Sample.debit 1 5000000 2)
           [0%nat] [] []
           (Sample.heap [] [Sample.order "O1" "" 2 5000000 0 5000000] []) 0%nat).
  vm_compute. reflexivity.
Defined.

Lemma closest_order_loop_app (hp : list Order.t) (t : Trans) :
  forall (before rest : list ref) (closest : option ref) (cd : Z),
    Forall (fun o => exists d, order_days hp t o = Some d) before ->
    exists closest' cd',
      closest_order_loop hp t (before ++ rest) closest cd
      = closest_order_loop hp t rest closest' cd'.
Proof.
  induction before as [| o before IH]; intros rest closest cd Hdated; cbn [app].
  - exists closest, cd. reflexivity.
  - inversion Hdated as [| ? ? [d Hd] Hdated']; subst.
    cbn [closest_order_loop]. unfold order_days in Hd.
    destruct (nth_error hp o) as [ord |]; [| discriminate Hd].
    destruct (Order.Shipment_Date ord) as [sd |]; [| discriminate Hd].
    destruct (_ && _ && _); apply IH; exact Hdated'.
Qed.

(** X15.  The candidate loop of [tag_as_order] subtracts the shipment date of
    every candidate from the date of the transaction: a candidate order that
    has no shipment date, after candidates that have one, makes the call
    raise [TypeError], before anything is claimed or counted. *)
Theorem tag_as_order_raises_TypeError :
  forall (table : string -> option string) (default : string) (fuel : nat)
         (t : Trans) (before after : list ref) (o : ref) (ord : Order.t)
         (tracking_to_items order_id_to_items : item_index) (h : Heap),
    Forall (fun o' => exists d, order_days (orders h) t o' = Some d) before ->
    nth_error (orders h) o = Some ord ->
    Order.Shipment_Date ord = None ->
    tag_as_order table default fuel t (before ++ o :: after)
                 tracking_to_items order_id_to_items h
    = (h, Raise TypeError).
Proof.
  intros table default fuel t before after o ord tti oti h Hbefore Hnth Hdate.
  unfold tag_as_order, bind, closest_order_match.
  destruct (closest_order_loop_app (orders h) t before (o :: after) None 365 Hbefore)
    as (closest' & cd' & ->).
  cbn [closest_order_loop]. rewrite Hnth, Hdate. reflexivity.
Qed.

Lemma tag_as_order_raises_TypeError_witness :
  tag_as_order Sample.table Sample.default_category 10 (Sample.debit 1 5000000 2)
               ([0%nat] ++ 1%nat :: []) [] []
               (Sample.heap [] [Sample.order "O1" "" 2 5000000 0 5000000; unshipped_order]
                            [])
  = (Sample.heap [] [Sample.order "O1" "" 2 5000000 0 5000000; unshipped_order] [],
     Raise TypeError).
Proof.
  apply (tag_as_order_raises_TypeError
           Sample.table Sample.default_category 10 (Sample.debit 1 5000000 2)
           [0%nat] [] 1%nat unshipped_order).
  - constructor; [| constructor]. eexists. vm_compute. reflexivity.
  - reflexivity.
  - reflexivity.
Defined.

(** ** What [sanity_check_and_filter_tags] returns and counts *)

Lemma resolve_categories_spec (ids : string -> option Z) (new : list Trans) (h : Heap) :
  resolve_categories ids new h
  = (h, if forallb (category_known ids) new
        then Ok (map (with_category_id ids) new)
        else Raise AssertionError).
Proof.
  induction new as [| tr rest IH]; cbn [resolve_categories forallb map].
  - reflexivity.
  - unfold category_known at 1, with_category_id at 1.
    destruct (ids (category tr)) as [cid |]; cbn [andb]; [| reflexivity].
    unfold bind. rewrite IH.
    destruct (forallb (category_known ids) rest); reflexivity.
Qed.

Lemma resolve_all_categories_spec (ids : string -> option Z)
    (pairs : list (Trans * list Trans)) (h : Heap) :
  resolve_all_categories ids pairs h
  = (h, if forallb (fun p => forallb (category_known ids) (snd p)) pairs
        then Ok (map (fun p => (fst p, map (with_category_id ids) (snd p))) pairs)
        else Raise AssertionError).
Proof.
  induction pairs as [| [orig new] rest IH]; cbn [resolve_all_categories forallb map].
  - reflexivity.
  - unfold bind at 1. rewrite resolve_categories_spec. cbn [fst snd].
    destruct (forallb (category_known ids) new); cbn [andb]; [| reflexivity].
    unfold bind. rewrite IH.
    destruct (forallb (fun p => forallb (category_known ids) (snd p)) rest); reflexivity.
Qed.

(** X16.  What an accepted run of [sanity_check_and_filter_tags] returns
    and counts: every line returned has the [categoryId] its category has in
    Mint; every pair returned differs from what Mint holds and, unless
    changed transactions are to be tagged again, its original does not
    start with the prefix yet; [to_be_updated] is the number of pairs
    returned, and with [no_change] and [already_has_prefix] it accounts for
    every pair of the input. *)
Theorem sanity_check_resolves_filters_and_counts :
  forall (pairs : list (Trans * list Trans)) (ids : string -> option Z)
         (get_prefix : bool -> string) (retag_changed : bool) (h h' : Heap)
         (filtered : list (Trans * list Trans)),
    sanity_check_and_filter_tags pairs ids get_prefix retag_changed h
      = (h', Ok filtered) ->
    (forall orig new tr,
        In (orig, new) filtered -> In tr new ->
        categoryId tr <> None /\ categoryId tr = ids (category tr)) /\
    (forall p, In p filtered ->
               original_and_new_are_diff p = true /\
               (retag_changed = false -> orig_missing_prefix get_prefix p = true)) /\
    counter_get "to_be_updated" (stats h') = Z.of_nat (List.length filtered) /\
    counter_get "no_change" (stats h')
    + (if retag_changed then 0 else counter_get "already_has_prefix" (stats h'))
    + counter_get "to_be_updated" (stats h')
    = Z.of_nat (List.length pairs).
Proof.
  intros pairs ids get_prefix retag h h' filtered H.
  unfold sanity_check_and_filter_tags in H.
  apply bind_ok_inv in H. destruct H as (h1 & [] & H1 & H).
  rewrite assert_amounts_spec in H1.
  destruct (forallb amounts_close pairs); [| discriminate H1]. injection H1 as <-.
  apply bind_ok_inv in H. destruct H as (h2 & resolved & H2 & H).
  rewrite resolve_all_categories_spec in H2.
  destruct (forallb (fun p => forallb (category_known ids) (snd p)) pairs) eqn:Hknown;
    [| discriminate H2].
  injection H2 as <- <-.
  set (resolved := map (fun p => (fst p, map (with_category_id ids) (snd p))) pairs) in *.
  assert (Hlen : List.length resolved = List.length pairs) by apply length_map.
  assert (Hcat : forall orig new tr, In (orig, new) resolved -> In tr new ->
                   categoryId tr <> None /\ categoryId tr = ids (category tr)).
  { intros orig new tr Hp Htr. subst resolved. apply in_map_iff in Hp.
    destruct Hp as ([orig0 new0] & E & Hp). cbn [fst snd] in E. injection E as <- <-.
    apply in_map_iff in Htr. destruct Htr as (tr0 & <- & Htr0).
    rewrite forallb_forall in Hknown. specialize (Hknown _ Hp). cbn [snd] in Hknown.
    rewrite forallb_forall in Hknown. specialize (Hknown _ Htr0).
    unfold category_known in Hknown. unfold with_category_id.
    destruct (ids (category tr0)) as [cid |] eqn:Hid; [| discriminate Hknown].
    unfold set_categoryId. cbn [categoryId category]. rewrite Hid.
    split; [discriminate | reflexivity]. }
  clearbody resolved.
  apply bind_ok_inv in H. destruct H as (h3 & [] & H3 & H).
  unfold stats_set in H3. injection H3 as <-.
  apply bind_ok_inv in H. destruct H as (h4 & filtered' & H4 & H).
  apply bind_ok_inv in H. destruct H as (h5 & [] & H5 & H).
  unfold stats_set in H5. injection H5 as <-. injection H as <- <-.
  pose proof (filter_length_le original_and_new_are_diff resolved) as Hle1.
  destruct retag; cbn [negb] in H4.
  - injection H4 as <- <-. cbn [stats].
    split; [| split; [| split]].
    + intros orig new tr Hp. apply filter_In in Hp. apply (Hcat orig new tr), Hp.
    + intros p Hp. apply filter_In in Hp. split; [apply Hp | discriminate].
    + apply counter_get_set_same.
    + rewrite counter_get_set_same.
      rewrite counter_get_set_other by reflexivity.
      rewrite counter_get_set_same. lia.
  - apply bind_ok_inv in H4. destruct H4 as (h6 & [] & H6 & H4).
    unfold stats_set in H6. injection H6 as <-. injection H4 as <- <-. cbn [stats].
    pose proof (filter_length_le (orig_missing_prefix get_prefix)
                  (filter original_and_new_are_diff resolved)) as Hle2.
    split; [| split; [| split]].
    + intros orig new tr Hp. apply filter_In in Hp. destruct Hp as [Hp _].
      apply filter_In in Hp. apply (Hcat orig new tr), Hp.
    + intros p Hp. apply filter_In in Hp. destruct Hp as [Hp Hprefix].
      apply filter_In in Hp. split; [apply Hp | intros _; exact Hprefix].
    + apply counter_get_set_same.
    + rewrite counter_get_set_same.
      rewrite (counter_get_set_other "no_change" "to_be_updated") by reflexivity.
      rewrite (counter_get_set_other "no_change" "already_has_prefix") by reflexivity.
      rewrite counter_get_set_same.
      rewrite (counter_get_set_other "already_has_prefix" "to_be_updated") by reflexivity.
      rewrite counter_get_set_same. lia.
Qed.

Lemma sanity_check_resolves_filters_and_counts_witness :
  exists (h' : Heap) (filtered : list (Trans * list Trans)),
    sanity_check_and_filter_tags Sample.tagged_exact Sample.ids Sample.prefix false
                                 (Sample.heap [] [] [])
    = (h', Ok filtered) /\
    counter_get "to_be_updated" (stats h') = Z.of_nat (List.length filtered).
Proof.
  eexists. eexists. split.
  - vm_compute. reflexivity.
  - eapply (sanity_check_resolves_filters_and_counts
              Sample.tagged_exact Sample.ids Sample.prefix false (Sample.heap [] [] [])).
    vm_compute. reflexivity.
Defined.

(** X17.  A line whose category Mint does not know stops
    [sanity_check_and_filter_tags]: when the amounts of all pairs are
    conserved, the call raises [AssertionError], and nothing is counted. *)
Theorem sanity_check_rejects_unknown_category :
  forall (pairs : list (Trans * list Trans)) (ids : string -> option Z)
         (get_prefix : bool -> string) (retag_changed : bool) (h : Heap)
         (orig tr : Trans) (new : list Trans),
    forallb amounts_close pairs = true ->
    In (orig, new) pairs -> In tr new ->
    ids (category tr) = None ->
    sanity_check_and_filter_tags pairs ids get_prefix retag_changed h
    = (h, Raise AssertionError).
Proof.
  intros pairs ids get_prefix retag h orig tr new Hclose Hp Htr Hid.
  unfold sanity_check_and_filter_tags.
  rewrite (bind_ok _ _ h h tt) by (rewrite assert_amounts_spec, Hclose; reflexivity).
  apply bind_raise. rewrite resolve_all_categories_spec.
  destruct (forallb (fun p => forallb (category_known ids) (snd p)) pairs) eqn:Hknown;
    [| reflexivity].
  rewrite forallb_forall in Hknown. specialize (Hknown _ Hp). cbn [snd] in Hknown.
  rewrite forallb_forall in Hknown. specialize (Hknown _ Htr).
  unfold category_known in Hknown. rewrite Hid in Hknown. discriminate Hknown.
Qed.

Lemma sanity_check_rejects_unknown_category_witness :
  sanity_check_and_filter_tags
    [(Sample.debit 1 5000000 1,
      [set_category "Antiques" (Sample.book_line 5000000)])]
    Sample.ids Sample.prefix false (Sample.heap [] [] [])
  = (Sample.heap [] [] [], Raise AssertionError).
Proof.
  apply (sanity_check_rejects_unknown_category _ _ _ _ _
           (Sample.debit 1 5000000 1)
           (set_category "Antiques" (Sample.book_line 5000000))
           [set_category "Antiques" (Sample.book_line 5000000)]).
  - vm_compute. reflexivity.
  - left. reflexivity.
  - left. reflexivity.
  - vm_compute. reflexivity.
Defined.

(** ** [write_tags_to_mint] never gets to post *)

Lemma update_trans_url_undefined (global_str : global_value -> string) :
  update_trans_url global_str = Raise (NameError "MINT_ROOT_URL").
Proof. vm_compute. reflexivity. Qed.

(** The form of a pair is built when every line has a [categoryId]; the
    first line without one raises [KeyError]. *)
Lemma split_fields_outcome (orig_trans : Trans) (new_trans : list Trans) :
  forall (i : Z) (fields : form),
    (Forall (fun tr => categoryId tr <> None) new_trans ->
     exists data, split_fields orig_trans i new_trans fields = Ok data) /\
    (Exists (fun tr => categoryId tr = None) new_trans ->
     split_fields orig_trans i new_trans fields = Raise KeyError).
Proof.
  induction new_trans as [| tr rest IH]; intros i fields; cbn [split_fields].
  - split; [intros _; exists fields; reflexivity | intros H; inversion H].
  - destruct (categoryId tr) as [cat_id |] eqn:Hcat.
    + cbv zeta. split.
      * intros Hall. inversion Hall; subst. apply IH. assumption.
      * intros Hex. inversion Hex as [? ? Hnone | ? ? Hrest]; subst;
          [congruence | apply IH; exact Hrest].
    + split; [| intros _; reflexivity].
      intros Hall. inversion Hall; subst. congruence.
Qed.

Lemma pair_form_outcome (token : string) (orig : Trans) (new : list Trans) :
  let data := match new with
              | [trans] => modify_trans token trans
              | _ => itemized_split token orig new
              end in
  (Forall (fun tr => categoryId tr <> None) new -> exists d, data = Ok d) /\
  (Exists (fun tr => categoryId tr = None) new -> data = Raise KeyError).
Proof.
  destruct new as [| tr [| tr' new']]; cbv zeta;
    try (unfold itemized_split; apply split_fields_outcome).
  unfold modify_trans. destruct (categoryId tr) as [cat_id |] eqn:Hcat.
  - split; [intros _; eexists; reflexivity |].
    intros Hex. inversion Hex as [? ? Hnone | ? ? Hrest]; subst;
      [congruence | inversion Hrest].
  - split; [| intros _; reflexivity].
    intros Hall. inversion Hall; subst. congruence.
Qed.

Lemma categoryId_set_or_missing (new : list Trans) :
  Forall (fun tr => categoryId tr <> None) new \/
  Exists (fun tr => categoryId tr = None) new.
Proof.
  induction new as [| tr rest [IH | IH]].
  - left. constructor.
  - destruct (categoryId tr) eqn:Hcat.
    + left. constructor; [congruence | exact IH].
    + right. left. exact Hcat.
  - right. right. exact IH.
Qed.

(** X18.  [write_tags_to_mint] builds the url of every request from
    [MINT_ROOT_URL], a name that nothing in the module binds.  So no request
    is ever posted: with nothing to send the call returns (or fails on the
    duration it reports), and with something to send it raises before the
    first post: [KeyError] when a line of the first pair has no
    [categoryId], and [NameError] when they all have one, as the lines of
    every pair that [sanity_check_and_filter_tags] has returned do. *)
Theorem write_tags_to_mint_posts_nothing :
  forall (token : string) (global_str : global_value -> string)
         (start_time end_time : Q) (pairs : list (Trans * list Trans))
         (sent : list request),
    let run := write_tags_to_mint token global_str start_time end_time pairs sent in
    fst run = sent /\
    (pairs <> [] ->
     snd run = Raise KeyError \/ snd run = Raise (NameError "MINT_ROOT_URL")) /\
    (forall orig new rest,
        pairs = (orig, new) :: rest ->
        (Exists (fun tr => categoryId tr = None) new ->
         snd run = Raise KeyError) /\
        (Forall (fun tr => categoryId tr <> None) new ->
         snd run = Raise (NameError "MINT_ROOT_URL"))).
Proof.
  intros token global_str start_time end_time pairs sent run. subst run.
  unfold write_tags_to_mint.
  destruct pairs as [| [orig new] rest]; cbn [send_updates].
  - split; [| split].
    + destruct (duration start_time end_time) as [d | e |]; reflexivity.
    + intros H. congruence.
    + intros orig new rest H. discriminate H.
  - rewrite update_trans_url_undefined.
    destruct (pair_form_outcome token orig new) as [Hknown Hmissing].
    cbv zeta in Hknown, Hmissing.
    split; [| split].
    + destruct (categoryId_set_or_missing new) as [Hall | Hex].
      * destruct (Hknown Hall) as (data & ->). reflexivity.
      * rewrite (Hmissing Hex). reflexivity.
    + intros _. destruct (categoryId_set_or_missing new) as [Hall | Hex].
      * destruct (Hknown Hall) as (data & ->). right. reflexivity.
      * rewrite (Hmissing Hex). left. reflexivity.
    + intros orig' new' rest' E. injection E as <- <- <-. split.
      * intros Hex. rewrite (Hmissing Hex). reflexivity.
      * intros Hall. destruct (Hknown Hall) as (data & ->). reflexivity.
Qed.

Lemma write_tags_to_mint_posts_nothing_witness :
  write_tags_to_mint "token" (fun _ => "") 0 1
    [(Sample.debit 1 5000000 1, [set_categoryId 202 (Sample.book_line 5000000)])] []
  = ([], Raise (NameError "MINT_ROOT_URL")) /\
  write_tags_to_mint "token" (fun _ => "") 0 1
    [(Sample.debit 1 5000000 1, [set_categoryId 202 (Sample.book_line 3000000);
                                 Sample.book_line 2000000])] []
  = ([], Raise KeyError).
Proof.
  split.
  - pose proof (write_tags_to_mint_posts_nothing "token" (fun _ => "") 0 1
                  [(Sample.debit 1 5000000 1,
                    [set_categoryId 202 (Sample.book_line 5000000)])] [])
      as (Hsent & _ & Hfirst).
    apply injective_projections; cbn [fst snd]; [exact Hsent |].
    apply (Hfirst _ _ _ eq_refl). constructor; [discriminate | constructor].
  - pose proof (write_tags_to_mint_posts_nothing "token" (fun _ => "") 0 1
                  [(Sample.debit 1 5000000 1,
                    [set_categoryId 202 (Sample.book_line 3000000);
                     Sample.book_line 2000000])] [])
      as (Hsent & _ & Hfirst).
    apply injective_projections; cbn [fst snd]; [exact Hsent |].
    apply (Hfirst _ _ _ eq_refl). right. left. reflexivity.
Defined.

(** ** What [parse_amazon_csv] hands to the tagger *)

Section SortedAsc.

Variables (A K : Type) (ltb : K -> K -> bool) (eqb : K -> K -> bool) (key : A -> K).
Hypothesis ltb_asym : forall a b, ltb a b = true -> ltb b a = false.
Hypothesis leb_trans : forall a b c, ltb b a = false -> ltb c b = false -> ltb c a = false.
Hypothesis eqb_not_ltb : forall a b k, eqb a k = true -> eqb b k = true -> ltb a b = false.

Lemma insert_asc_perm (x : A) (l : list A) :
  Permutation (x :: l) (insert_asc ltb key x l).
Proof.
  induction l as [| y rest IH]; cbn; [reflexivity |].
  destruct (ltb (key y) (key x)); [| reflexivity].
  rewrite perm_swap. apply perm_skip. exact IH.
Qed.

Lemma sorted_asc_perm (l : list A) : Permutation l (sorted_asc ltb key l).
Proof.
  unfold sorted_asc. induction l as [| x rest IH]; cbn; [reflexivity |].
  rewrite <- insert_asc_perm. apply perm_skip. exact IH.
Qed.

Lemma insert_asc_sorted (x : A) (l : list A) :
  StronglySorted (fun a b => ltb (key b) (key a) = false) l ->
  StronglySorted (fun a b => ltb (key b) (key a) = false) (insert_asc ltb key x l).
Proof.
  induction l as [| y rest IH]; intros Hs; cbn.
  - constructor; constructor.
  - inversion Hs as [| ? ? Hrest Hy]; subst.
    destruct (ltb (key y) (key x)) eqn:Hlt.
    + constructor; [apply IH; exact Hrest |].
      apply Forall_forall. intros z Hz.
      apply (Permutation_in _ (Permutation_sym (insert_asc_perm x rest))) in Hz.
      destruct Hz as [<- | Hz]; [apply ltb_asym; exact Hlt |].
      rewrite Forall_forall in Hy. exact (Hy z Hz).
    + constructor; [exact Hs |].
      constructor; [exact Hlt |].
      apply Forall_forall. intros z Hz. rewrite Forall_forall in Hy.
      apply leb_trans with (b := key y); [exact Hlt | exact (Hy z Hz)].
Qed.

Lemma sorted_asc_sorted (l : list A) :
  StronglySorted (fun a b => ltb (key b) (key a) = false) (sorted_asc ltb key l).
Proof.
  unfold sorted_asc. induction l as [| x rest IH]; cbn; [constructor |].
  apply insert_asc_sorted. exact IH.
Qed.

(** Stability: the elements of one key keep their order. *)
Lemma insert_asc_stable (k : K) (x : A) (l : list A) :
  filter (fun a => eqb (key a) k) (insert_asc ltb key x l)
  = filter (fun a => eqb (key a) k) (x :: l).
Proof.
  induction l as [| y rest IH]; cbn [insert_asc]; [reflexivity |].
  destruct (ltb (key y) (key x)) eqn:Hlt; [| reflexivity].
  cbn [filter] in *. rewrite IH.
  destruct (eqb (key x) k) eqn:Ex; [| reflexivity].
  destruct (eqb (key y) k) eqn:Ey; [| reflexivity].
  rewrite (eqb_not_ltb _ _ _ Ey Ex) in Hlt. discriminate Hlt.
Qed.

Lemma sorted_asc_stable (k : K) (l : list A) :
  filter (fun a => eqb (key a) k) (sorted_asc ltb key l)
  = filter (fun a => eqb (key a) k) l.
Proof.
  unfold sorted_asc. induction l as [| x rest IH]; cbn [fold_right]; [reflexivity |].
  rewrite insert_asc_stable. cbn [filter]. rewrite IH. reflexivity.
Qed.

End SortedAsc.

Lemma date_ltb_true (a b : date) :
  date_ltb a b = true <->
  year a < year b \/
  (year a = year b /\ (month a < month b \/ (month a = month b /\ day a < day b))).
Proof.
  unfold date_ltb.
  rewrite !orb_true_iff, !andb_true_iff, !orb_true_iff, !andb_true_iff,
    !Z.ltb_lt, !Z.eqb_eq.
  reflexivity.
Qed.

Lemma date_ltb_false (a b : date) :
  date_ltb a b = false <->
  ~ (year a < year b \/
     (year a = year b /\ (month a < month b \/ (month a = month b /\ day a < day b)))).
Proof.
  rewrite <- date_ltb_true. destruct (date_ltb a b); split; intros H; congruence.
Qed.

Lemma date_ltb_asym (a b : date) : date_ltb a b = true -> date_ltb b a = false.
Proof. rewrite date_ltb_true, date_ltb_false. lia. Qed.

Lemma date_leb_trans (a b c : date) :
  date_ltb b a = false -> date_ltb c b = false -> date_ltb c a = false.
Proof. rewrite !date_ltb_false. lia. Qed.

Lemma date_eqb_not_ltb (a b k : date) :
  Date.eqb a k = true -> Date.eqb b k = true -> date_ltb a b = false.
Proof.
  unfold Date.eqb. rewrite !andb_true_iff, !Z.eqb_eq, date_ltb_false. lia.
Qed.

(** The keys are the order dates of the rows, none of them missing. *)
Lemma order_date_keys_ok {A} (order_date : A -> option date) (rows : list A) :
  forall keyed,
    order_date_keys order_date rows = Ok keyed ->
    map snd keyed = rows /\
    Forall (fun p => order_date (snd p) = Some (fst p)) keyed.
Proof.
  induction rows as [| row rest IH]; intros keyed H; cbn [order_date_keys] in H.
  - injection H as <-. split; [reflexivity | constructor].
  - destruct (order_date row) as [d |] eqn:Hd; [| discriminate H].
    destruct (order_date_keys order_date rest) as [keyed' | e |]; try discriminate H.
    injection H as <-. destruct (IH keyed' eq_refl) as [Hrows Hkeys].
    split; [cbn [map snd]; rewrite Hrows; reflexivity |].
    constructor; [exact Hd | exact Hkeys].
Qed.

Lemma order_date_keys_undated {A} (order_date : A -> option date) (rows : list A)
    (row : A) :
  In row rows -> order_date row = None ->
  order_date_keys order_date rows = Raise TypeError.
Proof.
  induction rows as [| r rest IH]; intros Hin Hnone; [destruct Hin |].
  cbn [order_date_keys]. destruct Hin as [-> | Hin].
  - rewrite Hnone. reflexivity.
  - rewrite (IH Hin Hnone). destruct (order_date r); reflexivity.
Qed.

Lemma sorted_by_order_date_ok {A} (order_date : A -> option date) (rows sorted : list A) :
  sorted_by_order_date order_date rows = Ok sorted ->
  Permutation rows sorted /\
  StronglySorted (not_after order_date) sorted /\
  forall d, ordered_on order_date d sorted = ordered_on order_date d rows.
Proof.
  unfold sorted_by_order_date. intros H.
  destruct (List.length rows <=? 1)%nat eqn:Hlen.
  - injection H as <-. split; [reflexivity |]. split; [| reflexivity].
    apply Nat.leb_le in Hlen.
    destruct rows as [| a [| b rest]]; [constructor | | cbn in Hlen; lia].
    constructor; constructor.
  - destruct (order_date_keys order_date rows) as [keyed | e |] eqn:Hkeys;
      try discriminate H.
    injection H as <-.
    apply order_date_keys_ok in Hkeys. destruct Hkeys as [Hrows Hdated].
    assert (Hdated' : forall p, In p (sorted_asc date_ltb fst keyed) ->
                                order_date (snd p) = Some (fst p)).
    { intros p Hp. rewrite Forall_forall in Hdated. apply Hdated.
      exact (Permutation_in _ (Permutation_sym (sorted_asc_perm _ _ date_ltb fst keyed)) Hp). }
    split; [| split].
    + rewrite <- Hrows. apply Permutation_map. apply sorted_asc_perm.
    + pose proof (sorted_asc_sorted _ _ date_ltb fst date_ltb_asym date_leb_trans keyed)
        as Hsorted.
      revert Hdated' Hsorted. generalize (sorted_asc date_ltb fst keyed). intros l.
      induction l as [| p l IH]; intros Hd Hs; cbn [map]; [constructor |].
      inversion Hs as [| ? ? Hs' Hp]; subst.
      constructor; [apply IH; [intros q Hq; apply Hd; right; exact Hq | exact Hs'] |].
      apply Forall_map. apply Forall_forall. intros q Hq.
      rewrite Forall_forall in Hp. unfold not_after.
      rewrite (Hd p (or_introl eq_refl)), (Hd q (or_intror Hq)). exact (Hp q Hq).
    + intros d. unfold ordered_on. rewrite <- Hrows.
      pose proof (sorted_asc_stable _ _ date_ltb Date.eqb fst date_eqb_not_ltb d keyed)
        as Hstable.
      assert (Hfilter : forall l : list (date * A),
                 (forall p, In p l -> order_date (snd p) = Some (fst p)) ->
                 filter (fun r => opt_date_eqb (order_date r) (Some d)) (map snd l)
                 = map snd (filter (fun p => Date.eqb (fst p) d) l)).
      { induction l as [| p l IH]; intros Hd; cbn [map filter]; [reflexivity |].
        rewrite (Hd p (or_introl eq_refl)). cbn [opt_date_eqb].
        rewrite IH by (intros q Hq; apply Hd; right; exact Hq).
        destruct (Date.eqb (fst p) d); reflexivity. }
      rewrite (Hfilter _ Hdated'), Hstable.
      symmetry. apply Hfilter. rewrite Forall_forall in Hdated. exact Hdated.
Qed.

(** X19.  What [parse_amazon_csv] returns, given the rows read: the items
    and the orders are the rows read and the refunds are the rows read with
    their total set to refund amount plus refund tax; each report is in the
    order of its order dates, and the rows of one order date keep the order
    they were read in. *)
Theorem parse_amazon_csv_totals_and_sorts :
  forall (amazon_items items : list Item.t) (amazon_orders orders : list Order.t)
         (amazon_refunds refunds : list Refund.t),
    parse_amazon_csv amazon_items amazon_orders amazon_refunds
    = Ok (items, orders, refunds) ->
    (Permutation amazon_items items /\
     StronglySorted (not_after Item.Order_Date) items /\
     forall d, ordered_on Item.Order_Date d items
               = ordered_on Item.Order_Date d amazon_items) /\
    (Permutation amazon_orders orders /\
     StronglySorted (not_after Order.Order_Date) orders /\
     forall d, ordered_on Order.Order_Date d orders
               = ordered_on Order.Order_Date d amazon_orders) /\
    (Permutation (map total_refund amazon_refunds) refunds /\
     StronglySorted (not_after Refund.Order_Date) refunds /\
     forall d, ordered_on Refund.Order_Date d refunds
               = ordered_on Refund.Order_Date d (map total_refund amazon_refunds)) /\
    Forall refund_totalled refunds.
Proof.
  intros amazon_items items amazon_orders orders amazon_refunds refunds H.
  unfold parse_amazon_csv in H.
  destruct (sorted_by_order_date Item.Order_Date amazon_items)
    as [items' | e |] eqn:Hitems; try discriminate H.
  destruct (sorted_by_order_date Order.Order_Date amazon_orders)
    as [orders' | e |] eqn:Horders; try discriminate H.
  destruct (sorted_by_order_date Refund.Order_Date (map total_refund amazon_refunds))
    as [refunds' | e |] eqn:Hrefunds; try discriminate H.
  injection H as <- <- <-.
  apply sorted_by_order_date_ok in Hitems, Horders, Hrefunds.
  split; [exact Hitems |]. split; [exact Horders |]. split; [exact Hrefunds |].
  destruct Hrefunds as (Hperm & _).
  apply (Permutation_Forall Hperm).
  apply Forall_map. apply Forall_forall. intros r _. reflexivity.
Qed.

Lemma parse_amazon_csv_totals_and_sorts_witness :
  exists refunds : list Refund.t,
    parse_amazon_csv [] [] [untotalled_refund "O2" 9 2000000 150000;
                            untotalled_refund "O1" 3 1000000 80000]
    = Ok ([], [], refunds) /\
    Forall refund_totalled refunds.
Proof.
  eexists. split.
  - vm_compute. reflexivity.
  - eapply (parse_amazon_csv_totals_and_sorts
              [] [] [] [] [untotalled_refund "O2" 9 2000000 150000;
                           untotalled_refund "O1" 3 1000000 80000]).
    vm_compute. reflexivity.
Defined.

(** X20.  The sort of [parse_amazon_csv] compares the order dates of the
    rows: among two or more items, an item whose order date did not parse
    makes the call raise [TypeError]. *)
Theorem parse_amazon_csv_raises_on_undated_item :
  forall (amazon_items : list Item.t) (amazon_orders : list Order.t)
         (amazon_refunds : list Refund.t) (item : Item.t),
    (2 <= List.length amazon_items)%nat ->
    In item amazon_items ->
    Item.Order_Date item = None ->
    parse_amazon_csv amazon_items amazon_orders amazon_refunds = Raise TypeError.
Proof.
  intros amazon_items amazon_orders amazon_refunds item Hlen Hin Hnone.
  unfold parse_amazon_csv, sorted_by_order_date at 1.
  destruct (List.length amazon_items <=? 1)%nat eqn:E;
    [apply Nat.leb_le in E; lia |].
  rewrite (order_date_keys_undated Item.Order_Date amazon_items item Hin Hnone).
  reflexivity.
Qed.

Lemma parse_amazon_csv_raises_on_undated_item_witness :
  parse_amazon_csv
    [Sample.item "O1" "UPS(1)" "Atlas" 1 5000000 0;
     Item.mk "O2" None "UPS(2)" "Globe" "Book" 1 5000000 5000000 0 (5000000 # 1) None]
    [] []
  = Raise TypeError.
Proof.
  apply (parse_amazon_csv_raises_on_undated_item _ [] []
           (Item.mk "O2" None "UPS(2)" "Globe" "Book" 1 5000000 5000000 0
                    (5000000 # 1) None)).
  - cbn. lia.
  - right. left. reflexivity.
  - reflexivity.
Defined.

(** ** The items that [tag_as_order] works out belong to the order *)

Lemma mm_all2_collect {K V A} (eqb : K -> K -> bool) (P : K -> V -> Prop)
    (key : A -> K) (val : A -> V) (l : list A) :
  (forall a b, eqb a b = true -> a = b) ->
  forall m, (forall x, In x l -> P (key x) (val x)) -> mm_all2 P m ->
            mm_all2 P (mm_collect eqb key val l m).
Proof.
  intros Heqb. unfold mm_collect.
  induction l as [| x rest IH]; intros m Hl Hm; cbn [fold_left].
  - exact Hm.
  - apply IH; [intros y Hy; apply Hl; right; exact Hy |].
    apply mm_all2_append; [exact Heqb | apply Hl; left; reflexivity | exact Hm].
Qed.

Lemma mm_all2_find {K V} (P : K -> V -> Prop) (p : K -> bool) (m : multimap K V)
    (vs : list V) :
  mm_all2 P m -> mm_find p m = Some vs ->
  exists k, p k = true /\ Forall (P k) vs.
Proof.
  intros Hm Hfind. apply mm_find_In in Hfind. destruct Hfind as (k & Hin & Hk).
  exists k. split; [exact Hk |].
  unfold mm_all2 in Hm. rewrite Forall_forall in Hm. exact (Hm _ Hin).
Qed.

Lemma items_of_order_ok (order_id : string) (l : list ref) :
  forall (h h' : Heap) (its : list ref),
    items_of_order order_id l h = (h', Ok its) ->
    h' = h /\ Forall (of_order h order_id) its.
Proof.
  induction l as [| i rest IH]; intros h h' its H; cbn [items_of_order] in H.
  - injection H as <- <-. split; [reflexivity | constructor].
  - apply bind_ok_inv in H. destruct H as (h1 & it & Hit & H).
    unfold get_item, deref in Hit.
    destruct (nth_error (items h) i) as [it0 |] eqn:Hnth; [| discriminate Hit].
    injection Hit as <- <-.
    apply bind_ok_inv in H. destruct H as (h2 & others & Hothers & H).
    apply IH in Hothers. destruct Hothers as [-> Hall]. injection H as <- <-.
    split; [reflexivity |].
    destruct (String.eqb (Item.Order_ID it0) order_id) eqn:E; [| exact Hall].
    apply String.eqb_eq in E. constructor; [| exact Hall].
    exists it0. split; assumption.
Qed.

Lemma assert_order_id_ok (order_id : string) (its : list ref) (h : Heap) :
  Forall (of_order h order_id) its ->
  assert_order_id order_id its h = (h, Ok tt).
Proof.
  induction 1 as [| i its (it & Hnth & Hid) _ IH]; cbn [assert_order_id].
  - reflexivity.
  - unfold bind at 1, get_item, deref. rewrite Hnth.
    rewrite Hid, String.eqb_refl. exact IH.
Qed.

Lemma adjust_amazon_item_quantity_order_id (item : ref) (new_quantity : Z)
    (h h' : Heap) (order_id : string) :
  adjust_amazon_item_quantity item new_quantity h = (h', Ok tt) ->
  of_order h order_id item -> of_order h' order_id item.
Proof.
  unfold adjust_amazon_item_quantity. intros H (it & Hnth & Hid).
  apply bind_ok_inv in H. destruct H as (h0 & it0 & Hit & H).
  unfold get_item, deref in Hit. rewrite Hnth in Hit. injection Hit as <- <-.
  apply bind_ok_inv in H. destruct H as (h1 & [] & H1 & H).
  apply bind_ok_inv in H. destruct H as (h2 & [] & H2 & H).
  apply bind_ok_inv in H. destruct H as (h3 & [] & H3 & H).
  unfold assert in H1, H2, H3.
  destruct (0 <? new_quantity); [| discriminate H1].
  destruct (new_quantity <=? Item.Quantity it); [| discriminate H2].
  destruct (_ =? Item.Item_Subtotal it); [| discriminate H3].
  injection H1 as <-. injection H2 as <-. injection H3 as <-.
  unfold set_item in H. injection H as <-.
  eexists. split; [cbn; exact (nth_error_update_eq _ _ _ it Hnth) | exact Hid].
Qed.

Lemma absorb_cent_diff_order_id (order : Order.t) (item : ref) (h h' : Heap)
    (order_id : string) :
  absorb_cent_diff order item h = (h', Ok tt) ->
  of_order h order_id item -> of_order h' order_id item.
Proof.
  unfold absorb_cent_diff. intros H (it & Hnth & Hid).
  apply bind_ok_inv in H. destruct H as (h0 & it0 & Hit & H).
  unfold get_item, deref in Hit. rewrite Hnth in Hit. injection Hit as <- <-.
  destruct (_ && _).
  - unfold set_item in H. injection H as <-.
    eexists. split; [cbn; exact (nth_error_update_eq _ _ _ it Hnth) | exact Hid].
  - injection H as <-. exists it. split; assumption.
Qed.

Lemma unit_price_loop_ok (order : Order.t) (order_id : string) (candidates : list ref) :
  forall (h h' : Heap) (item : ref),
    Forall (of_order h order_id) candidates ->
    unit_price_loop order candidates h = (h', Ok (Some item)) ->
    of_order h' order_id item.
Proof.
  induction candidates as [| i rest IH]; intros h h' item Hall H;
    cbn [unit_price_loop] in H.
  - discriminate H.
  - inversion Hall as [| ? ? (it & Hnth & Hid) Hrest]; subst.
    apply bind_ok_inv in H. destruct H as (h0 & it0 & Hit & H).
    unfold get_item, deref in Hit. rewrite Hnth in Hit. injection Hit as <- <-.
    destruct (Item.Purchase_Price_Per_Unit it =? Order.Subtotal order).
    + apply bind_ok_inv in H. destruct H as (h1 & copy & Hcopy & H).
      apply deepcopy_item_ok in Hcopy. destruct Hcopy as (it1 & Hnth1 & _ & Hcopy).
      rewrite Hnth in Hnth1. injection Hnth1 as <-.
      apply bind_ok_inv in H. destruct H as (h2 & [] & Hadjust & H).
      apply bind_ok_inv in H. destruct H as (h3 & [] & Habsorb & H).
      apply bind_ok_inv in H. destruct H as (h4 & [] & Hstats & H).
      unfold stats_incr in Hstats. injection Hstats as <-. injection H as <- <-.
      assert (H1 : of_order h1 (Item.Order_ID it) copy)
        by (exists it; split; [exact Hcopy | reflexivity]).
      apply (adjust_amazon_item_quantity_order_id _ _ _ _ _ Hadjust) in H1.
      apply (absorb_cent_diff_order_id _ _ _ _ _ Habsorb) in H1.
      destruct H1 as (it' & Hnth' & Hid'). exists it'. split; assumption.
    + exact (IH _ _ _ Hrest H).
Qed.

(** X21.  The items that [tag_as_order] works out for a shipment belong to
    its order, so that the assertion on their order ids that follows cannot
    fail: the items found by tracking number are filtered by order id, and
    the item found by order id is a copy of an item of an index that, like
    the one [tag_transactions] builds, stores items under their own order
    id. *)
Theorem resolved_items_belong_to_the_order :
  (forall (amazon_items : list Item.t) (h : Heap),
      items h = amazon_items ->
      indexes_order_ids h (build_order_id_to_items amazon_items))
  /\
  (forall (order : Order.t) (tracking_to_items order_id_to_items : item_index)
          (h h' : Heap) (its : list ref),
      indexes_order_ids h order_id_to_items ->
      resolve_items order tracking_to_items order_id_to_items h = (h', Ok (Some its)) ->
      Forall (of_order h' (Order.Order_ID order)) its /\
      assert_order_id (Order.Order_ID order) its h' = (h', Ok tt)).
Proof.
  split.
  - intros amazon_items h <-. unfold indexes_order_ids, build_order_id_to_items.
    apply mm_all2_collect.
    + intros a b E. apply String.eqb_eq. exact E.
    + intros [i it] Hin. cbn [fst snd]. exists it.
      split; [apply enumerate_nth; exact Hin | reflexivity].
    + constructor.
  - intros order tti oti h h' its Hindex H.
    assert (Hits : Forall (of_order h' (Order.Order_ID order)) its).
    { unfold resolve_items in H.
      destruct (if String.eqb (Order.Carrier_Name_Tracking_Number order) ""
                then None
                else mm_get String.eqb (Order.Carrier_Name_Tracking_Number order) tti)
        as [found_items |].
      - apply bind_ok_inv in H. destruct H as (h1 & its' & Hits' & H).
        apply items_of_order_ok in Hits'. destruct Hits' as [-> Hall].
        injection H as <- <-. exact Hall.
      - destruct (mm_get String.eqb (Order.Order_ID order) oti) as [cands |] eqn:Hget;
          [| discriminate H].
        destruct cands as [| c cands]; [discriminate H |].
        unfold mm_get in Hget.
        destruct (mm_all2_find _ _ _ _ Hindex Hget) as (k & Hk & Hall).
        apply String.eqb_eq in Hk. subst k.
        apply bind_ok_inv in H. destruct H as (h1 & item & Hloop & H).
        destruct item as [item |].
        + injection H as <- <-. constructor; [| constructor].
          exact (unit_price_loop_ok order _ _ _ _ _ Hall Hloop).
        + apply bind_ok_inv in H. destruct H as (h2 & [] & _ & H). discriminate H. }
    split; [exact Hits | apply assert_order_id_ok; exact Hits].
Qed.

Lemma resolved_items_belong_to_the_order_witness :
  exists (h' : Heap) (its : list ref),
    resolve_items (Sample.order "O1" "" 2 5000000 0 5000000) []
                  (build_order_id_to_items [Sample.item "O1" "UPS(1)" "Atlas" 2 5000000 0])
                  (Sample.heap [Sample.item "O1" "UPS(1)" "Atlas" 2 5000000 0] [] [])
    = (h', Ok (Some its)) /\
    assert_order_id "O1" its h' = (h', Ok tt).
Proof.
  eexists. eexists. split.
  - vm_compute. reflexivity.
  - eapply (proj2 resolved_items_belong_to_the_order
              (Sample.order "O1" "" 2 5000000 0 5000000) []
              (build_order_id_to_items [Sample.item "O1" "UPS(1)" "Atlas" 2 5000000 0])
              (Sample.heap [Sample.item "O1" "UPS(1)" "Atlas" 2 5000000 0] [] [])).
    + apply (proj1 resolved_items_belong_to_the_order). reflexivity.
    + vm_compute. reflexivity.
Defined.

(** ** Which group of refunds [tag_as_refund] selects *)

Lemma closest_refund_loop_spec (hp : list Refund.t) (t : Trans) :
  forall (rest seen : list (list ref)) (closest : option (list ref)) (cd : Z),
    Forall (fun g => exists d, refund_days hp t g = Some d) rest ->
    best_refund_group hp t seen closest cd ->
    exists r cd',
      closest_refund_loop hp t rest closest cd = Ok r /\
      best_refund_group hp t (seen ++ rest) r cd'.
Proof.
  induction rest as [| g rest IH]; intros seen closest cd Hdated Hbest.
  - exists closest, cd. rewrite app_nil_r. split; [reflexivity | exact Hbest].
  - inversion Hdated as [| ? ? [d Hd] Hdated']; subst.
    cbn [closest_refund_loop].
    pose proof Hd as Hdays. unfold refund_days in Hd.
    destruct (first_dated_refund hp g) as [rd | e |]; try discriminate Hd.
    injection Hd as Hd. rewrite Hd.
    replace (seen ++ g :: rest)%list with ((seen ++ [g]) ++ rest)%list
      by (rewrite <- app_assoc; reflexivity).
    destruct ((d <? 4) && (d <? cd) && negb (any_claimed hp g)) eqn:Hc.
    + apply andb_prop in Hc. destruct Hc as [Hc Hun].
      apply andb_prop in Hc. destruct Hc as [H4 Hcd].
      apply Z.ltb_lt in H4. apply Z.ltb_lt in Hcd. apply negb_true_iff in Hun.
      apply IH; [exact Hdated' |].
      cbn [best_refund_group]. split.
      { split; [exact Hdays |]. split; [lia | exact Hun]. }
      exists seen, []. split; [reflexivity |]. split; [| intros g' d' []].
      intros g' d' Hin Hq.
      destruct closest as [g0 |]; cbn [best_refund_group] in Hbest.
      * destruct Hbest as (Hq0 & before & after & -> & Hbefore & Hafter).
        apply in_app_or in Hin. destruct Hin as [Hin | [<- | Hin]].
        -- specialize (Hbefore _ _ Hin Hq). lia.
        -- destruct Hq0 as (Hd0 & _). destruct Hq as (Hd' & _).
           rewrite Hd0 in Hd'. injection Hd' as <-. exact Hcd.
        -- specialize (Hafter _ _ Hin Hq). lia.
      * destruct Hbest as (_ & Hnone). exfalso. exact (Hnone _ _ Hin Hq).
    + apply IH; [exact Hdated' |].
      assert (Hrej : forall d', refund_group_qualifies hp t g d' -> d' = d /\ cd <= d).
      { intros d' (Hq & H3 & Hun).
        rewrite Hdays in Hq. injection Hq as <-.
        rewrite Hun in Hc. split; [reflexivity |].
        destruct (d <? 4) eqn:H4; [| apply Z.ltb_ge in H4; lia].
        destruct (d <? cd) eqn:Hcd; [discriminate Hc | apply Z.ltb_ge in Hcd; lia]. }
      destruct closest as [g0 |]; cbn [best_refund_group] in *.
      * destruct Hbest as (Hq0 & before & after & -> & Hbefore & Hafter).
        split; [exact Hq0 |].
        exists before, (after ++ [g])%list.
        split; [rewrite <- app_assoc; reflexivity |]. split; [exact Hbefore |].
        intros g' d' Hin Hq. apply in_app_or in Hin. destruct Hin as [Hin | [<- | []]].
        -- exact (Hafter _ _ Hin Hq).
        -- destruct (Hrej _ Hq) as [-> Hle]. exact Hle.
      * destruct Hbest as (H4 & Hnone). split; [exact H4 |].
        intros g' d' Hin Hq. apply in_app_or in Hin. destruct Hin as [Hin | [<- | []]].
        -- exact (Hnone _ _ Hin Hq).
        -- destruct (Hrej _ Hq) as [-> Hle]. destruct Hq as (_ & H3 & _). lia.
Qed.

Lemma claim_refunds_valid (t : Trans) :
  forall (group : list ref) (h : Heap),
    Forall (fun r => (r < List.length (refunds h))%nat) group ->
    exists h', claim_refunds group t h = (h', Ok tt) /\
               List.length (refunds h') = List.length (refunds h).
Proof.
  induction group as [| r group IH]; intros h Hvalid; cbn [claim_refunds].
  - exists h. split; reflexivity.
  - inversion Hvalid as [| ? ? Hr Hrest]; subst.
    destruct (nth_error (refunds h) r) as [rf |] eqn:Hnth;
      [| apply nth_error_None in Hnth; lia].
    set (h1 := mkHeap (items h) (orders h) (update r (Refund.claim t rf) (refunds h))
                      (stats h) (ClaimRefund r :: claim_log h)).
    assert (Hclaim : claim_refund r t h = (h1, Ok tt)).
    { unfold claim_refund, bind, get_refund, deref. rewrite Hnth. reflexivity. }
    assert (Hlen : List.length (refunds h1) = List.length (refunds h))
      by apply length_update.
    destruct (IH h1) as (h' & Hrun & Hlen').
    { rewrite Hlen. exact Hrest. }
    exists h'. split; [| congruence].
    rewrite (bind_ok _ _ _ _ tt Hclaim). exact Hrun.
Qed.

Lemma mapM_get_refund_valid :
  forall (group : list ref) (h : Heap),
    Forall (fun r => (r < List.length (refunds h))%nat) group ->
    exists rows, mapM get_refund group h = (h, Ok rows).
Proof.
  induction group as [| r group IH]; intros h Hvalid; cbn [mapM].
  - exists []. reflexivity.
  - inversion Hvalid as [| ? ? Hr Hrest]; subst.
    destruct (nth_error (refunds h) r) as [rf |] eqn:Hnth;
      [| apply nth_error_None in Hnth; lia].
    destruct (IH h Hrest) as (rows & Hrows).
    exists (rf :: rows).
    rewrite (bind_ok _ _ h h rf) by (unfold get_refund, deref; rewrite Hnth; reflexivity).
    rewrite (bind_ok _ _ h h rows Hrows). reflexivity.
Qed.

(** Once the loop has selected a group whose refunds are in the heap, the
    call returns the lines of that group, and claims its refunds and no
    other. *)
Lemma tag_as_refund_tags_selected (table : string -> option string)
    (default_return : string) (t : Trans) (groups : list (list ref)) (h : Heap)
    (g : list ref) :
  closest_refund_match t groups h = (h, Ok (Some g)) ->
  g <> [] ->
  Forall (fun r => (r < List.length (refunds h))%nat) g ->
  exists (h' : Heap) (rows : list Refund.t),
    tag_as_refund table default_return t groups h
    = (h', Ok (Some (map (refund_line table default_return t)
                         (collapse_items_into_quantity rows)))) /\
    Forall2 (fun r row => nth_error (refunds h') r = Some row) g rows /\
    (forall r, In r g -> flag_at h' (ClaimRefund r) = Some t) /\
    (forall r, ~ In r g -> nth_error (refunds h') r = nth_error (refunds h) r).
Proof.
  intros Hmatch Hne Hvalid.
  destruct (claim_refunds_valid t g (fst (stats_incr "refund_match" h)) Hvalid)
    as (h' & Hclaim & Hlen).
  assert (Hvalid' : Forall (fun r => (r < List.length (refunds h'))%nat) g).
  { rewrite Hlen. exact Hvalid. }
  destruct (mapM_get_refund_valid g h' Hvalid') as (rows & Hrows).
  exists h', rows.
  assert (Hrun : tag_as_refund table default_return t groups h
                 = (h', Ok (Some (map (refund_line table default_return t)
                                      (collapse_items_into_quantity rows))))).
  { unfold tag_as_refund. rewrite (bind_ok _ _ h h (Some g) Hmatch).
    destruct g as [| r0 g']; [congruence |].
    rewrite (bind_ok _ _ h (fst (stats_incr "refund_match" h)) tt eq_refl).
    rewrite (bind_ok _ _ _ _ tt Hclaim).
    rewrite (bind_ok _ _ _ _ rows Hrows). reflexivity. }
  split; [exact Hrun |].
  apply mapM_get_refund_ok in Hrows. destruct Hrows as [_ Hrows].
  split; [exact Hrows |].
  apply claim_refunds_ok in Hclaim. cbn [stats_incr fst refunds] in Hclaim.
  destruct Hclaim as (_ & _ & _ & Hclaimed & Hother).
  split; [| exact Hother].
  intros r Hr. destruct (Hclaimed r Hr) as (rf & _ & Hrf). cbn [flag_at].
  rewrite Hrf. reflexivity.
Qed.

(** X22.  Among candidate groups that all have a dated refund,
    [tag_as_refund] returns [None] and leaves everything as it was when no
    group qualifies (first dated refund within 3 days of the transaction,
    no refund claimed).  Otherwise it tags a qualifying group of least
    distance, the first one in the list among those (the qualifying groups
    before it are strictly farther): it returns the lines of the refunds of
    that group, collapsed, and those refunds, and no other, now carry the
    transaction. *)
Theorem tag_as_refund_selects_closest :
  forall (table : string -> option string) (default_return : string) (t : Trans)
         (groups : list (list ref)) (h : Heap),
    Forall (fun g => exists d, refund_days (refunds h) t g = Some d) groups ->
    Forall (Forall (fun r => (r < List.length (refunds h))%nat)) groups ->
    ((forall g d, In g groups -> ~ refund_group_qualifies (refunds h) t g d) ->
     tag_as_refund table default_return t groups h = (h, Ok None)) /\
    (forall g d, In g groups -> refund_group_qualifies (refunds h) t g d ->
     exists g1 d1 before after,
       groups = (before ++ g1 :: after)%list /\
       refund_group_qualifies (refunds h) t g1 d1 /\
       (forall g' d', In g' before -> refund_group_qualifies (refunds h) t g' d' ->
                      d1 < d') /\
       (forall g' d', In g' after -> refund_group_qualifies (refunds h) t g' d' ->
                      d1 <= d') /\
       exists (h' : Heap) (rows : list Refund.t),
         tag_as_refund table default_return t groups h
         = (h', Ok (Some (map (refund_line table default_return t)
                              (collapse_items_into_quantity rows)))) /\
         Forall2 (fun r row => nth_error (refunds h') r = Some row) g1 rows /\
         (forall r, In r g1 -> flag_at h' (ClaimRefund r) = Some t) /\
         (forall r, ~ In r g1 -> nth_error (refunds h') r = nth_error (refunds h) r)).
Proof.
  intros table default_return t groups h Hdated Hvalid.
  destruct (closest_refund_loop_spec (refunds h) t groups [] None 365 Hdated)
    as (r & cd & Hloop & Hbest).
  { cbn [best_refund_group]. split; [lia |]. intros g d []. }
  cbn [app] in Hbest.
  assert (Hmatch : closest_refund_match t groups h = (h, Ok r))
    by (unfold closest_refund_match; rewrite Hloop; reflexivity).
  split.
  - intros Hnone.
    assert (Hr : r = None).
    { destruct r as [g1 |]; [| reflexivity].
      cbn [best_refund_group] in Hbest.
      destruct Hbest as (Hq & before & after & -> & _).
      exfalso. apply (Hnone g1 cd); [| exact Hq].
      apply in_or_app. right. left. reflexivity. }
    subst r. unfold tag_as_refund.
    rewrite (bind_ok _ _ h h None Hmatch). reflexivity.
  - intros g d Hin Hq.
    destruct r as [g1 |]; cbn [best_refund_group] in Hbest.
    + destruct Hbest as (Hq1 & before & after & Hsplit & Hbefore & Hafter).
      exists g1, cd, before, after.
      split; [exact Hsplit |]. split; [exact Hq1 |].
      split; [exact Hbefore |]. split; [exact Hafter |].
      apply (tag_as_refund_tags_selected table default_return t groups h g1 Hmatch).
      * destruct Hq1 as (Hdays & _). unfold refund_days in Hdays.
        intros ->. cbn [first_dated_refund] in Hdays. discriminate Hdays.
      * rewrite Forall_forall in Hvalid. apply Hvalid. rewrite Hsplit.
        apply in_or_app. right. left. reflexivity.
    + destruct Hbest as (_ & Hnone). exfalso. exact (Hnone _ _ Hin Hq).
Qed.

Lemma tag_as_refund_selects_closest_witness :
  exists (h' : Heap) (lines : list Trans),
    tag_as_refund Sample.table Sample.default_return_category
                  (Sample.credit 1 1000000 3) [[1%nat]; [0%nat]]
                  (Sample.heap [] [] Sample.two_day_refunds)
    = (h', Ok (Some lines)) /\
    flag_at h' (ClaimRefund 0%nat) = Some (Sample.credit 1 1000000 3) /\
    flag_at h' (ClaimRefund 1%nat) = None.
Proof.
  destruct (tag_as_refund_selects_closest
              Sample.table Sample.default_return_category (Sample.credit 1 1000000 3)
              [[1%nat]; [0%nat]] (Sample.heap [] [] Sample.two_day_refunds))
    as (_ & Hsome).
  - constructor; [| constructor; [| constructor]]; eexists; vm_compute; reflexivity.
  - repeat constructor.
  - assert (Hq0 : refund_group_qualifies Sample.two_day_refunds
                                          (Sample.credit 1 1000000 3) [0%nat] 1).
    { split; [vm_compute; reflexivity |]. split; [lia | reflexivity]. }
    destruct (Hsome [0%nat] 1) as (g1 & d1 & before & after & Hsplit & Hq & Hbefore
                                   & Hafter & h' & rows & Hrun & _ & Hclaimed & Hother).
    { right. left. reflexivity. }
    { exact Hq0. }
    assert (Hg1 : g1 = [0%nat]).
    { destruct before as [| b0 [| b1 before']].
      - injection Hsplit as <- <-. exfalso.
        destruct Hq as (Hd & _). vm_compute in Hd. injection Hd as <-.
        specialize (Hafter [0%nat] 1 (or_introl eq_refl) Hq0). lia.
      - injection Hsplit as _ <- _. reflexivity.
      - exfalso. injection Hsplit as _ _ Hsplit.
        destruct before'; discriminate Hsplit. }
    subst g1. exists h'. eexists. split; [exact Hrun |]. split.
    + apply Hclaimed. left. reflexivity.
    + cbn [flag_at]. rewrite Hother by (intros [E | []]; discriminate E).
      reflexivity.
Defined.

(** ** Credits, from the transactions to the tagged lines *)

Lemma Forall2_nth_error {A B} (R : A -> B -> Prop) (l1 : list A) (l2 : list B) :
  Forall2 R l1 l2 ->
  forall n a b, nth_error l1 n = Some a -> nth_error l2 n = Some b -> R a b.
Proof.
  induction 1 as [| x y l1 l2 Hxy _ IH]; intros [| n] a b Ha Hb; cbn in Ha, Hb;
    try discriminate.
  - injection Ha as <-. injection Hb as <-. exact Hxy.
  - exact (IH n a b Ha Hb).
Qed.

Lemma Forall2_update {A B} (R : A -> B -> Prop) (l1 : list A) (l2 : list B) :
  Forall2 R l1 l2 ->
  forall n b b',
    nth_error l2 n = Some b -> (forall a, R a b -> R a b') ->
    Forall2 R l1 (update n b' l2).
Proof.
  induction 1 as [| x y l1 l2 Hxy Hrest IH]; intros [| n] b b' Hb Hstep; cbn in Hb;
    try discriminate; cbn [update].
  - injection Hb as <-. constructor; [apply Hstep; exact Hxy | exact Hrest].
  - constructor; [exact Hxy | exact (IH n b b' Hb Hstep)].
Qed.

Lemma same_refund_claim (t : Trans) (a b : Refund.t) :
  same_refund a b -> same_refund a (Refund.claim t b).
Proof. intros H. exact H. Qed.

Lemma same_refunds_refl (h : Heap) : same_refunds (refunds h) h.
Proof.
  unfold same_refunds. induction (refunds h) as [| r rest IH]; constructor.
  - split; reflexivity.
  - exact IH.
Qed.

Lemma keeps_refund_rows_bind {A B} (c : M A) (k : A -> M B) :
  keeps_refund_rows c -> (forall a, keeps_refund_rows (k a)) ->
  keeps_refund_rows (bind c k).
Proof.
  intros Hc Hk rows h Hrows. unfold bind. specialize (Hc rows h Hrows).
  destruct (c h) as [h1 [a | e |]]; cbn [fst] in *; try exact Hc.
  exact (Hk a rows h1 Hc).
Qed.

Lemma keeps_refund_rows_frames {A} (c : M A) : frames c -> keeps_refund_rows c.
Proof.
  intros Hc rows h Hrows. destruct (Hc h) as (_ & Hr & _).
  unfold same_refunds. rewrite Hr. exact Hrows.
Qed.

Lemma keeps_refund_rows_claim_order (o : ref) (t : Trans) :
  keeps_refund_rows (claim_order o t).
Proof.
  intros rows h Hrows. unfold claim_order, bind, get_order, deref.
  destruct (nth_error (orders h) o); exact Hrows.
Qed.

Lemma keeps_refund_rows_claim_refund (r : ref) (t : Trans) :
  keeps_refund_rows (claim_refund r t).
Proof.
  intros rows h Hrows. unfold claim_refund, bind, get_refund, deref.
  destruct (nth_error (refunds h) r) as [rf |] eqn:Hnth; [| exact Hrows].
  cbn [fst]. unfold same_refunds. cbn [refunds].
  apply (Forall2_update _ _ _ Hrows r rf); [exact Hnth |].
  intros a Ha. apply same_refund_claim. exact Ha.
Qed.

Lemma keeps_refund_rows_claim_refunds (t : Trans) (group : list ref) :
  keeps_refund_rows (claim_refunds group t).
Proof.
  induction group as [| r group IH]; cbn [claim_refunds].
  - apply keeps_refund_rows_frames. apply frames_ret.
  - apply keeps_refund_rows_bind; [apply keeps_refund_rows_claim_refund |].
    intros []. exact IH.
Qed.

Lemma keeps_refund_rows_tag_as_order (table : string -> option string)
    (default : string) (fuel : nat) (t : Trans) (cands : list ref)
    (tti oti : item_index) :
  keeps_refund_rows (tag_as_order table default fuel t cands tti oti).
Proof.
  unfold tag_as_order. apply keeps_refund_rows_bind.
  { intros rows h Hrows. exact Hrows. }
  intros [o |]; [| apply keeps_refund_rows_frames; frames_tac].
  apply keeps_refund_rows_bind; [apply keeps_refund_rows_frames; frames_tac |].
  intros []. apply keeps_refund_rows_bind; [apply keeps_refund_rows_claim_order |].
  intros []. apply keeps_refund_rows_frames. frames_tac.
Qed.

Lemma keeps_refund_rows_tag_as_refund (table : string -> option string)
    (default_return : string) (t : Trans) (groups : list (list ref)) :
  keeps_refund_rows (tag_as_refund table default_return t groups).
Proof.
  unfold tag_as_refund. apply keeps_refund_rows_bind.
  { intros rows h Hrows. exact Hrows. }
  intros [[| r0 g] |]; try solve [apply keeps_refund_rows_frames; frames_tac].
  apply keeps_refund_rows_bind; [apply keeps_refund_rows_frames; frames_tac |].
  intros []. apply keeps_refund_rows_bind; [apply keeps_refund_rows_claim_refunds |].
  intros []. apply keeps_refund_rows_frames. frames_tac.
Qed.

Lemma keeps_refund_rows_tag_one (table : string -> option string)
    (default default_return : string) (fuel : nat) (itemize : bool)
    (prefix : bool -> string) (amount_to_orders : multimap Z ref)
    (tti oti : item_index) (amount_to_refunds : multimap Z (list ref)) (t : Trans) :
  keeps_refund_rows (tag_one table default default_return fuel itemize prefix
                             amount_to_orders tti oti amount_to_refunds t).
Proof.
  unfold tag_one. apply keeps_refund_rows_bind.
  - destruct (if isDebit t then _ else None) as [matched_orders |].
    + apply keeps_refund_rows_tag_as_order.
    + destruct (if negb (isDebit t) then _ else None) as [groups |].
      * apply keeps_refund_rows_tag_as_refund.
      * apply keeps_refund_rows_frames. frames_tac.
  - intros new_trans. apply keeps_refund_rows_frames.
    destruct new_trans as [[| nt rest] |]; frames_tac.
    unfold summarize_new_trans, load_global, py_len. frames_tac.
Qed.

(** The lines of a refund add up to the amount of the credit, also when the
    index was built before some refunds were claimed. *)
Lemma refund_lines_conserve_from (rows0 : list Refund.t)
    (table : string -> option string) (default_return : string) (t : Trans)
    (groups : list (list ref)) (h h' : Heap) (lines : list Trans) :
  key_fixes_total rows0 ->
  same_refunds rows0 h ->
  mm_find (fun k => Qeq_bool (- amount t) (inject_Z k)) (build_amount_to_refunds rows0)
  = Some groups ->
  tag_as_refund table default_return t groups h = (h', Ok (Some lines)) ->
  (sum_amounts lines == amount t)%Q.
Proof.
  intros Hsame Hrows0 Hfind H.
  apply tag_as_refund_ok in H. destruct H as (group & rows & Hloop & Hclaim & Hrows & ->).
  apply closest_refund_loop_selected in Hloop.
  destruct Hloop as [Hloop | (Hin & _)]; [discriminate Hloop |].
  apply mm_find_In in Hfind. destruct Hfind as (k & Hk & Hamount).
  apply Qeq_bool_iff in Hamount.
  pose proof (mm_all2_In _ _ _ _ _ (build_amount_to_refunds_sources rows0) Hk Hin)
    as Hsrc.
  apply refund_group_source_total in Hsrc. destruct Hsrc as (read0 & Hread0 & Htotal).
  apply claim_refunds_ok in Hclaim. cbn [stats_incr fst refunds] in Hclaim.
  destruct Hclaim as (_ & _ & _ & Hclaimed & _).
  assert (Hrel : Forall2 same_refund read0 rows).
  { clear - Hrows Hread0 Hclaimed Hrows0. revert rows Hrows Hclaimed.
    induction Hread0 as [| r row0 g read0 Hrow0 _ IH]; intros rows Hrows Hclaimed;
      inversion Hrows as [| ? row ? rows' Hrow Hrows']; subst; constructor.
    - destruct (Hclaimed r (or_introl eq_refl)) as (rf & Hrf & Hrf').
      rewrite Hrow in Hrf'. injection Hrf' as ->.
      apply same_refund_claim.
      exact (Forall2_nth_error _ _ _ Hrows0 r row0 rf Hrow0 Hrf).
    - apply IH; [exact Hrows' |]. intros r' Hr'. apply Hclaimed. right. exact Hr'. }
  assert (Hmem : forall a, In a rows ->
                 exists a0, In a0 rows0 /\ same_refund a0 a).
  { clear - Hrel Hread0. revert group Hread0.
    induction Hrel as [| a0 a read0 rows Ha _ IH]; intros group Hread0 x Hx;
      [destruct Hx |].
    inversion Hread0 as [| r ? g ? Hr Hread0']; subst.
    destruct Hx as [<- | Hx].
    - exists a0. split; [exact (nth_error_In _ _ Hr) | exact Ha].
    - exact (IH g Hread0' x Hx). }
  rewrite refund_lines_sum.
  destruct (collapse_items_refunded rows) as [-> _].
  { intros a b Ha Hb Hkey.
    destruct (Hmem a Ha) as (a0 & Ha0 & Hka & Hta).
    destruct (Hmem b Hb) as (b0 & Hb0 & Hkb & Htb).
    rewrite Hta, Htb. apply Hsame; congruence. }
  assert (Hsum : refunded rows = refunded read0).
  { clear - Hrel. unfold refunded.
    induction Hrel as [| a0 a read0 rows (_ & Ht) _ IH]; [reflexivity |].
    cbn [map]. rewrite !sumZ_cons, IH, Ht. reflexivity. }
  rewrite Hsum, Htotal, <- Hamount. ring.
Qed.

Lemma itemize_new_trans_sum (new_trans : list Trans) (prefix : string) :
  (sum_amounts (itemize_new_trans new_trans prefix) == sum_amounts new_trans)%Q.
Proof.
  unfold sum_amounts, itemize_new_trans.
  rewrite map_rev, map_map. cbn [set_merchant amount]. apply sumQ_rev.
Qed.

Lemma tag_one_credit (rows0 : list Refund.t) (table : string -> option string)
    (default default_return : string) (fuel : nat) (prefix : bool -> string)
    (amount_to_orders : multimap Z ref) (tti oti : item_index)
    (t : Trans) (h h' : Heap) (p : Trans * list Trans) :
  key_fixes_total rows0 ->
  same_refunds rows0 h ->
  tag_one table default default_return fuel true prefix amount_to_orders tti oti
          (build_amount_to_refunds rows0) t h = (h', Ok (Some p)) ->
  isDebit (fst p) = false -> (sum_amounts (snd p) == amount (fst p))%Q.
Proof.
  intros Hsame Hrows0 H.
  pose proof (tag_one_original _ _ _ _ _ _ _ _ _ _ _ _ _ _ H) as Hfst.
  rewrite Hfst. intros Hcredit.
  unfold tag_one in H. rewrite Hcredit in H. cbn [negb] in H.
  apply bind_ok_inv in H. destruct H as (h1 & new_trans & Hnew & H).
  destruct new_trans as [[| nt rest] |]; try discriminate H.
  apply bind_ok_inv in H. destruct H as (h2 & tagged & Htagged & H).
  injection Htagged as <- <-. injection H as <- <-. cbn [snd].
  rewrite itemize_new_trans_sum.
  destruct (mm_find (fun k => Qeq_bool (- amount t) (inject_Z k))
                    (build_amount_to_refunds rows0)) as [groups |] eqn:Hfind;
    [| discriminate Hnew].
  exact (refund_lines_conserve_from rows0 _ _ _ _ _ _ _ Hsame Hrows0 Hfind Hnew).
Qed.

Lemma tag_loop_credits (rows0 : list Refund.t)
    (step : Trans -> M (option (Trans * list Trans)))
    (Q : Trans * list Trans -> Prop) :
  (forall t, keeps_refund_rows (step t)) ->
  (forall t h h' p, same_refunds rows0 h -> step t h = (h', Ok (Some p)) -> Q p) ->
  forall (trans : list Trans) (acc result : list (Trans * list Trans)) (h h' : Heap),
    same_refunds rows0 h -> Forall Q acc ->
    tag_loop step trans acc h = (h', Ok result) ->
    Forall Q result.
Proof.
  intros Hkeeps HQ.
  induction trans as [| t rest IH]; intros acc result h h' Hrows Hacc H;
    cbn [tag_loop] in H.
  - injection H as _ <-. exact Hacc.
  - apply bind_ok_inv in H. destruct H as (h1 & r & Hr & H).
    apply (IH (acc ++ opt_to_list r)%list result h1 h'); [| | exact H].
    + pose proof (Hkeeps t rows0 h Hrows) as Hnext. rewrite Hr in Hnext. exact Hnext.
    + apply Forall_app. split; [exact Hacc |].
      destruct r as [p |]; [| constructor].
      constructor; [exact (HQ _ _ _ _ Hrows Hr) | constructor].
Qed.

(** X23.  Over a whole run of [tag_transactions] that itemizes: when the
    refunds of equal collapse key have the same total, the lines of every
    credit in the result add up to the amount of that credit exactly,
    whatever was claimed before it in the run; such a pair passes the amount
    check of [sanity_check_and_filter_tags]. *)
Theorem tagged_credits_conserve_their_amount :
  forall (table : string -> option string) (default default_return : string)
         (fuel : nat) (trans : list Trans) (prefix : bool -> string) (h h' : Heap)
         (result : list (Trans * list Trans)),
    key_fixes_total (refunds h) ->
    tag_transactions table default default_return fuel trans true prefix h
    = (h', Ok result) ->
    forall t lines,
      In (t, lines) result -> isDebit t = false ->
      (sum_amounts lines == amount t)%Q /\ amounts_close (t, lines) = true.
Proof.
  intros table default default_return fuel trans prefix h h' result Hsame H t lines
         Hin Hcredit.
  assert (Hsum : (sum_amounts lines == amount t)%Q).
  { unfold tag_transactions in H.
    apply bind_ok_inv in H. destruct H as (h1 & [] & H1 & H).
    apply bind_ok_inv in H. destruct H as (h2 & [] & H2 & H).
    apply bind_ok_inv in H. destruct H as (h3 & unsplit & Hunsplit & H).
    unfold stats_set in H1, H2. injection H1 as <-. injection H2 as <-.
    unfold lift in Hunsplit. injection Hunsplit as <- _.
    match type of H with
    | tag_loop _ _ _ ?start = _ =>
        assert (Hstart : same_refunds (refunds h) start)
          by exact (same_refunds_refl start)
    end.
    pose proof (tag_loop_credits (refunds h) _
                  (fun p => isDebit (fst p) = false ->
                            (sum_amounts (snd p) == amount (fst p))%Q)
                  (fun t0 => keeps_refund_rows_tag_one table default default_return fuel
                               true prefix _ _ _ _ t0)
                  (fun t0 h0 h1 p Hrows Hstep =>
                     tag_one_credit (refunds h) table default default_return fuel prefix
                                    _ _ _ t0 h0 h1 p Hsame Hrows Hstep)
                  _ _ _ _ _ Hstart (Forall_nil _) H) as Hall.
    rewrite Forall_forall in Hall. exact (Hall (t, lines) Hin Hcredit). }
  split; [exact Hsum |].
  apply amounts_close_true. cbn [fst snd].
  assert (E : (amount t - sum_amounts lines == 0)%Q) by (rewrite Hsum; ring).
  rewrite E. reflexivity.
Qed.

Lemma tagged_credits_conserve_their_amount_witness :
  exists (h' : Heap) (result : list (Trans * list Trans)),
    tag_transactions Sample.table Sample.default_category Sample.default_return_category
                     10 [Sample.credit 1 3000000 3] true Sample.prefix
                     (Sample.heap [] [] Sample.two_day_refunds)
    = (h', Ok result) /\
    Forall (fun p => amounts_close p = true) result.
Proof.
  eexists. eexists. split.
  - vm_compute. reflexivity.
  - constructor; [| constructor].
    eapply (tagged_credits_conserve_their_amount
              Sample.table Sample.default_category Sample.default_return_category
              10 [Sample.credit 1 3000000 3] Sample.prefix
              (Sample.heap [] [] Sample.two_day_refunds)).
    + intros a b [<- | [<- | []]] [<- | [<- | []]] Hkey; try reflexivity;
        vm_compute in Hkey; discriminate Hkey.
    + vm_compute. reflexivity.
    + left. reflexivity.
    + reflexivity.
Defined.
